(** * Catalog aggregation and fallback pipeline of the movie controller

    A shallow embedding of [server/src/controllers/movieController.js]
    (the listing handler [getMovies], the upstream path
    [getMoviesFromTmdb], the three normalisation functions and the trailer
    endpoint [getTmdbTrailer]), of the error middleware [errorHandler] and
    of the client functions that call the trailer endpoint, together with
    the properties the catalog specification states about them.

    Conventions of the embedding.
    - JavaScript strings are [string]; the text operations ([trim],
      [toLowerCase], the [\s+] replacement) are the ASCII ones.
    - JavaScript numbers are [jsnum]: NaN, the two infinities, or a finite
      value kept as a rational.  Millisecond clocks and the cooldown are
      integers ([Z]).
    - The ECMAScript builtin [Number] is an interface ([ECMAScript]); every
      general theorem holds for any implementation of it.
    - The module-level variables [tmdbDisabledUntil] and
      [tmdbFailureStreak], and the record of upstream calls, are threaded
      through a state-and-exception monad; one handler invocation is one
      run of that monad (requests are taken one after the other). *)

From Stdlib Require Import ZArith QArith Qminmax Qround List String Ascii Bool Lia.
From Stdlib Require Import DecimalString DecimalPos.
Import ListNotations.

Local Open Scope Z_scope.
Local Open Scope list_scope.
Local Open Scope string_scope.

(* ================================================================== *)
(** ** JavaScript values used by the controller *)
(* ================================================================== *)

(** A JavaScript number. *)
Inductive jsnum : Type :=
| NaN
| NegInf
| Fin (q : Q)
| PosInf.

(** A query-string value as the [qs] parser hands it to the handler: absent,
    a single string, or an array of strings for a repeated key. *)
Inductive jsval : Type :=
| JUndef
| JStr (s : string)
| JArr (l : list string).

(** The part of the ECMAScript runtime the controller relies on. *)
Class ECMAScript : Type := {
  Number : jsval -> jsnum
}.

Definition num_of_Z (z : Z) : jsnum := Fin (inject_Z z).

(** [ToBoolean] on numbers: NaN and zero are falsy. *)
Definition truthy_num (n : jsnum) : bool :=
  match n with
  | NaN => false
  | Fin q => negb (Qeq_bool q 0)
  | NegInf | PosInf => true
  end.

(** [a || b] on numbers. *)
Definition or_num (a b : jsnum) : jsnum := if truthy_num a then a else b.

Definition Math_max (a b : jsnum) : jsnum :=
  match a, b with
  | NaN, _ | _, NaN => NaN
  | PosInf, _ | _, PosInf => PosInf
  | NegInf, x | x, NegInf => x
  | Fin x, Fin y => Fin (Qmax x y)
  end.

Definition Math_min (a b : jsnum) : jsnum :=
  match a, b with
  | NaN, _ | _, NaN => NaN
  | NegInf, _ | _, NegInf => NegInf
  | PosInf, x | x, PosInf => x
  | Fin x, Fin y => Fin (Qmin x y)
  end.

(** The order of the extended number line; nothing compares with NaN. *)
Definition num_le (a b : jsnum) : Prop :=
  match a, b with
  | NaN, _ | _, NaN => False
  | NegInf, _ => True
  | _, PosInf => True
  | Fin x, Fin y => (x <= y)%Q
  | _, _ => False
  end.

Definition num_lt (a b : jsnum) : Prop :=
  match a, b with
  | NaN, _ | _, NaN => False
  | NegInf, NegInf | PosInf, PosInf => False
  | NegInf, _ => True
  | _, PosInf => True
  | Fin x, Fin y => (x < y)%Q
  | _, _ => False
  end.

(** [ToIntegerOrInfinity] followed by the clamping [Array.prototype.slice]
    applies to its end index: the number of elements [xs.slice(0, n)] keeps
    out of a list of length [len]. *)
Definition slice_end (n : jsnum) (len : nat) : nat :=
  match n with
  | NaN => 0%nat
  | NegInf => 0%nat
  | PosInf => len
  | Fin q =>
      let k := (if Qle_bool 0 q then Qfloor q else - Qfloor (- q)) in
      if (k <? 0)%Z then Z.to_nat (Z.max (Z.of_nat len + k) 0)
      else Nat.min (Z.to_nat k) len
  end.

Definition slice0 {A : Type} (xs : list A) (n : jsnum) : list A :=
  firstn (slice_end n (List.length xs)) xs.

(** [ToBoolean] on strings and on optional strings ([undefined] is falsy). *)
Definition truthy_str (s : string) : bool := negb (s =? "")%string.

Definition truthy_ostr (o : option string) : bool :=
  match o with Some s => truthy_str s | None => false end.

Definition truthy_obool (o : option bool) : bool :=
  match o with Some b => b | None => false end.

(** [a || b] where [a] may be absent and [b] is a string. *)
Definition or_str (a : option string) (b : string) : string :=
  match a with
  | Some s => if truthy_str s then s else b
  | None => b
  end.

(** *** String operations (ASCII) *)

Definition is_space (c : ascii) : bool :=
  let n := nat_of_ascii c in
  ((9 <=? n)%nat && (n <=? 13)%nat) || (n =? 32)%nat.

Definition lower_char (c : ascii) : ascii :=
  let n := nat_of_ascii c in
  if ((65 <=? n)%nat && (n <=? 90)%nat) then ascii_of_nat (n + 32) else c.

Fixpoint toLowerCase (s : string) : string :=
  match s with
  | EmptyString => EmptyString
  | String c r => String (lower_char c) (toLowerCase r)
  end.

Fixpoint trimStart (s : string) : string :=
  match s with
  | EmptyString => EmptyString
  | String c r => if is_space c then trimStart r else s
  end.

Fixpoint rev_string (s acc : string) : string :=
  match s with
  | EmptyString => acc
  | String c r => rev_string r (String c acc)
  end.

Definition trimEnd (s : string) : string :=
  rev_string (trimStart (rev_string s "")) "".

Definition trim (s : string) : string := trimEnd (trimStart s).

(** [s.includes(sub)]. *)
Fixpoint includes (s sub : string) : bool :=
  if prefix sub s then true
  else match s with
       | EmptyString => false
       | String _ r => includes r sub
       end.

(** [s.replace(/\s+/g, '-')]: every maximal run of white space becomes one
    hyphen.  [inrun] tells whether the previous character was white space. *)
Fixpoint replace_ws (inrun : bool) (s : string) : string :=
  match s with
  | EmptyString => EmptyString
  | String c r =>
      if is_space c
      then (if inrun then replace_ws true r else String "-" (replace_ws true r))
      else String c (replace_ws false r)
  end.

(** [s.slice(0, 4)]. *)
Definition slice4 (s : string) : string := substring 0 4 s.

(** Decimal rendering of an integer, as template interpolation and
    [String(n)] give it. *)
Definition Z_to_string (z : Z) : string := NilZero.string_of_int (Z.to_int z).

(** [`${x}`] for a field that may be missing. *)
Definition interp_id (o : option Z) : string :=
  match o with
  | Some z => Z_to_string z
  | None => "undefined"
  end.

Definition interp_str (o : option string) : string :=
  match o with
  | Some s => s
  | None => "undefined"
  end.

(** *** [Map] with string keys, in insertion order *)

Definition Map (V : Type) : Type := list (string * V).

Fixpoint Map_get {V : Type} (m : Map V) (k : string) : option V :=
  match m with
  | [] => None
  | (k', v) :: r => if (k' =? k)%string then Some v else Map_get r k
  end.

Fixpoint Map_set {V : Type} (m : Map V) (k : string) (v : V) : Map V :=
  match m with
  | [] => [(k, v)]
  | (k', v') :: r =>
      if (k' =? k)%string then (k', v) :: r else (k', v') :: Map_set r k v
  end.

(** [new Map(entries)]. *)
Definition Map_of_entries {V : Type} (entries : list (string * V)) : Map V :=
  fold_left (fun m kv => Map_set m (fst kv) (snd kv)) entries [].

(* ================================================================== *)
(** ** Data model *)
(* ================================================================== *)

(** A BSON ObjectId: twelve bytes, printed by [toString] as lowercase
    hexadecimal.  The Movie schema declares no [_id], so Mongoose gives every
    document one of these. *)
Record ObjectId : Type := { oid_bytes : list Byte.byte }.

Definition ObjectId_wf (o : ObjectId) : Prop := List.length (oid_bytes o) = 12%nat.

Definition hex_digit (n : N) : ascii :=
  if (n <? 10)%N then ascii_of_N (48 + n) else ascii_of_N (87 + n).

Definition byte_hex (b : Byte.byte) (rest : string) : string :=
  let n := Byte.to_N b in
  String (hex_digit (n / 16)) (String (hex_digit (n mod 16)) rest).

Definition ObjectId_toString (o : ObjectId) : string :=
  fold_right byte_hex "" (oid_bytes o).

(** The canonical record every source is normalised to.  The timestamps are
    absent on records that do not come from the store. *)
Record ContentRecord : Type := {
  cr_id : string;
  cr_title : string;
  cr_description : string;
  cr_category : string;
  cr_type : string;
  cr_year : jsnum;
  cr_rating : string;
  cr_duration : string;
  cr_image : string;
  cr_backdrop : string;
  cr_trailerUrl : string;
  cr_featured : option bool;
  cr_createdAt : option Z;
  cr_updatedAt : option Z
}.

(** A document of the [Movie] collection (models/Movie.js). *)
Record MovieDoc : Type := {
  md__id : ObjectId;
  md_title : string;
  md_description : string;
  md_category : string;
  md_type : string;
  md_year : jsnum;
  md_rating : string;
  md_duration : string;
  md_imageUrl : string;
  md_backdropUrl : string;
  md_trailerUrl : string;
  md_featured : option bool;
  md_createdAt : option Z;
  md_updatedAt : option Z
}.

(** An entry of the seed catalog ([data/seedMovies]); the same fields as the
    schema, without identifier or timestamps. *)
Record SeedMovie : Type := {
  sm_title : string;
  sm_description : string;
  sm_category : string;
  sm_type : string;
  sm_year : jsnum;
  sm_rating : string;
  sm_duration : string;
  sm_imageUrl : string;
  sm_backdropUrl : string;
  sm_trailerUrl : string;
  sm_featured : option bool
}.

(** An element of an upstream [results] array.  Listing endpoints fill the
    first group of fields, the videos endpoint the last three; a field the
    JSON lacks is [None]. *)
Record TmdbObject : Type := {
  o_id : option Z;
  o_title : option string;
  o_name : option string;
  o_release_date : option string;
  o_first_air_date : option string;
  o_poster_path : option string;
  o_backdrop_path : option string;
  o_overview : option string;
  o_adult : option bool;
  o_site : option string;
  o_type : option string;
  o_key : option string
}.

Record Genre : Type := {
  g_name : option string;
  g_id : option Z
}.

(** A decoded upstream response body. *)
Record Payload : Type := {
  p_genres : option (list Genre);
  p_results : option (list TmdbObject)
}.

(* ================================================================== *)
(** ** Normalisation layer *)
(* ================================================================== *)

Definition TMDB_IMAGE_BASE : string := "https://image.tmdb.org/t/p".

Section Normalisation.
Context {js : ECMAScript}.

(** [mapTmdbItem(item, category, type, trailerMap, isFeatured)];
    [fullYear] is what [new Date().getFullYear()] answers. *)
Definition mapTmdbItem (fullYear : Z) (item : TmdbObject) (category type : string)
    (trailerMap : Map string) (isFeatured : bool) : ContentRecord :=
  let title := or_str (o_title item) (or_str (o_name item) "Untitled") in
  let date := or_str (o_release_date item) (or_str (o_first_air_date item) "") in
  let year := if truthy_str date then Number (JStr (slice4 date))
              else num_of_Z fullYear in
  let poster :=
    if truthy_ostr (o_poster_path item)
    then TMDB_IMAGE_BASE ++ "/w500" ++ interp_str (o_poster_path item)
    else if truthy_ostr (o_backdrop_path item)
         then TMDB_IMAGE_BASE ++ "/w780" ++ interp_str (o_backdrop_path item)
         else "" in
  let backdrop :=
    if truthy_ostr (o_backdrop_path item)
    then TMDB_IMAGE_BASE ++ "/w1280" ++ interp_str (o_backdrop_path item)
    else poster in
  let key := type ++ ":" ++ interp_id (o_id item) in
  {| cr_id := "tmdb-" ++ type ++ "-" ++ interp_id (o_id item);
     cr_title := title;
     cr_description := or_str (o_overview item) "No description available.";
     cr_category := category;
     cr_type := type;
     cr_year := year;
     cr_rating := if truthy_obool (o_adult item) then "18+" else "13+";
     cr_duration := if (type =? "series")%string then "Series" else "Movie";
     cr_image := poster;
     cr_backdrop := backdrop;
     cr_trailerUrl := or_str (Map_get trailerMap key) "";
     cr_featured := Some isFeatured;
     cr_createdAt := None;
     cr_updatedAt := None |}.

End Normalisation.

Definition normalizeMovie (movie : MovieDoc) : ContentRecord :=
  {| cr_id := ObjectId_toString (md__id movie);
     cr_title := md_title movie;
     cr_description := md_description movie;
     cr_category := md_category movie;
     cr_type := md_type movie;
     cr_year := md_year movie;
     cr_rating := md_rating movie;
     cr_duration := md_duration movie;
     cr_image := md_imageUrl movie;
     cr_backdrop := md_backdropUrl movie;
     cr_trailerUrl := md_trailerUrl movie;
     cr_featured := md_featured movie;
     cr_createdAt := md_createdAt movie;
     cr_updatedAt := md_updatedAt movie |}.

Definition normalizeSeedMovie (movie : SeedMovie) : ContentRecord :=
  {| cr_id := "seed-" ++ replace_ws false (toLowerCase (sm_title movie));
     cr_title := sm_title movie;
     cr_description := sm_description movie;
     cr_category := sm_category movie;
     cr_type := sm_type movie;
     cr_year := sm_year movie;
     cr_rating := sm_rating movie;
     cr_duration := sm_duration movie;
     cr_image := sm_imageUrl movie;
     cr_backdrop := sm_backdropUrl movie;
     cr_trailerUrl := sm_trailerUrl movie;
     cr_featured := sm_featured movie;
     cr_createdAt := None;
     cr_updatedAt := None |}.

(* ================================================================== *)
(** ** Process state, environment and the handler monad *)
(* ================================================================== *)

Definition Error : Type := string.

(** The two module-level variables of the controller, and the paths the
    upstream client was asked for so far (most recent first). *)
Record State : Type := {
  tmdbDisabledUntil : Z;
  tmdbFailureStreak : Z;
  upstreamCalls : list string
}.

Definition initialState : State :=
  {| tmdbDisabledUntil := 0; tmdbFailureStreak := 0; upstreamCalls := [] |}.

(** Configuration read from [process.env] when the module is loaded: the
    API key as it is, and the constant [TMDB_COOLDOWN_MS], that is
    [Number(process.env.TMDB_COOLDOWN_MS || 5 * 60 * 1000)], as a whole
    number of milliseconds. *)
Record Env : Type := {
  TMDB_API_KEY : option string;
  TMDB_COOLDOWN_MS : Z
}.

(** The filter object handed to [Movie.find]. *)
Record Filter : Type := {
  f_text_search : option string;
  f_category : option string;
  f_type : option string;
  f_featured : option bool
}.

(** What the outside answers during one request: the clock, the upstream
    service (per path, parameters and attempt number), the connection state
    of the store and the store's answer to
    [Movie.find(filter).sort({createdAt: -1}).limit(n)]. *)
Record World : Type := {
  now : Z;
  fullYear : Z;
  upstream : string -> list (string * string) -> nat -> Error + Payload;
  readyState : Z;
  Movie_find : Filter -> jsnum -> Error + list MovieDoc
}.

Definition M (A : Type) : Type := State -> (Error + A) * State.

Definition ret {A : Type} (a : A) : M A := fun s => (inr a, s).

Definition throw {A : Type} (e : Error) : M A := fun s => (inl e, s).

Definition bind {A B : Type} (m : M A) (k : A -> M B) : M B :=
  fun s =>
    match m s with
    | (inr a, s') => k a s'
    | (inl e, s') => (inl e, s')
    end.

(** [try { m } catch (e) { h e }]; the writes [m] made before throwing stay. *)
Definition try_catch {A : Type} (m : M A) (h : Error -> M A) : M A :=
  fun s =>
    match m s with
    | (inr a, s') => (inr a, s')
    | (inl e, s') => h e s'
    end.

Definition get_state : M State := fun s => (inr s, s).

Definition modify (f : State -> State) : M unit := fun s => (inr tt, f s).

Declare Scope js_scope.
Delimit Scope js_scope with js.
Notation "x <- m ;; k" := (bind m (fun x => k))
  (at level 61, m at next level, right associativity) : js_scope.
Notation "m ;; k" := (bind m (fun _ => k))
  (at level 61, right associativity) : js_scope.
Local Open Scope js_scope.

(** A settled promise. *)
Definition settle {A : Type} (m : M A) : M (Error + A) :=
  fun s => let (r, s') := m s in (inr r, s').

Fixpoint settle_all {A : Type} (ms : list (M A)) : M (list (Error + A)) :=
  match ms with
  | [] => ret []
  | m :: rest =>
      r <- settle m ;;
      rs <- settle_all rest ;;
      ret (r :: rs)
  end.

Fixpoint all_fulfilled {A : Type} (rs : list (Error + A)) : Error + list A :=
  match rs with
  | [] => inr []
  | inl e :: _ => inl e
  | inr a :: rest =>
      match all_fulfilled rest with
      | inl e => inl e
      | inr xs => inr (a :: xs)
      end
  end.

(** [await Promise.allSettled(ms)]: every computation is started. *)
Definition Promise_allSettled {A : Type} (ms : list (M A)) : M (list (Error + A)) :=
  settle_all ms.

(** [await Promise.all(ms)]: every computation is started; the result is
    rejected as soon as one of them is. *)
Definition Promise_all {A : Type} (ms : list (M A)) : M (list A) :=
  rs <- settle_all ms ;;
  match all_fulfilled rs with
  | inl e => throw e
  | inr xs => ret xs
  end.

Definition set_tmdbFailureStreak (v : Z) (s : State) : State :=
  {| tmdbDisabledUntil := tmdbDisabledUntil s;
     tmdbFailureStreak := v;
     upstreamCalls := upstreamCalls s |}.

Definition set_tmdbDisabledUntil (v : Z) (s : State) : State :=
  {| tmdbDisabledUntil := v;
     tmdbFailureStreak := tmdbFailureStreak s;
     upstreamCalls := upstreamCalls s |}.

Definition log_call (path : string) (s : State) : State :=
  {| tmdbDisabledUntil := tmdbDisabledUntil s;
     tmdbFailureStreak := tmdbFailureStreak s;
     upstreamCalls := path :: upstreamCalls s |}.

(** *** Responses *)

Inductive Body : Type :=
| Listing (count : nat) (data : list ContentRecord)
| TrailerData (trailerUrl : string)
| Message (message : string).

Record Response : Type := {
  status : Z;
  body : Body
}.

(** How a handler ends: [res.status(..).json(..)] or [next(error)]. *)
Inductive Outcome : Type :=
| Sent (r : Response)
| Next (e : Error).

(** The query string of a listing request. *)
Record Query : Type := {
  q_search : jsval;
  q_category : jsval;
  q_type : jsval;
  q_featured : jsval;
  q_limit : jsval;
  q_source : jsval;
  q_perCategory : jsval
}.

(** [v === s] for a string literal [s]. *)
Definition strict_eq_str (v : jsval) (s : string) : bool :=
  match v with
  | JStr t => (t =? s)%string
  | _ => false
  end.

(** Destructuring default [{ x = d }]: only [undefined] takes the default. *)
Definition default_to (v : jsval) (d : string) : jsval :=
  match v with
  | JUndef => JStr d
  | _ => v
  end.

(** The receiver of a string method call such as [x.trim()]: a value that
    is not a string has no such method and the call throws a TypeError. *)
Definition string_receiver (v : jsval) : M string :=
  match v with
  | JStr s => ret s
  | _ => throw "TypeError: trim is not a function"
  end.

Fixpoint mapi_from {A B : Type} (i : nat) (f : nat -> A -> B) (xs : list A) : list B :=
  match xs with
  | [] => []
  | x :: r => f i x :: mapi_from (S i) f r
  end.

(** [xs.map((x, index) => f index x)]. *)
Definition mapi {A B : Type} (f : nat -> A -> B) (xs : list A) : list B :=
  mapi_from 0 f xs.

(* ================================================================== *)
(** ** Upstream catalog provider client *)
(* ================================================================== *)

(** A category row requested from the upstream, and the same row with the
    items it returned. *)
Record Category : Type := {
  c_title : string;
  c_path : string;
  c_type : string;
  c_params : list (string * string)
}.

Record CategoryResult : Type := {
  r_category : Category;
  r_results : list TmdbObject
}.

Record TrailerTarget : Type := {
  t_id : option Z;
  t_type : string
}.

Definition categories : list Category :=
  [ {| c_title := "Trending Movies"; c_path := "/trending/movie/week"; c_type := "movie"; c_params := [] |};
    {| c_title := "Trending TV"; c_path := "/trending/tv/week"; c_type := "series"; c_params := [] |};
    {| c_title := "Now Playing"; c_path := "/movie/now_playing"; c_type := "movie"; c_params := [] |};
    {| c_title := "Popular Movies"; c_path := "/movie/popular"; c_type := "movie"; c_params := [] |};
    {| c_title := "Top Rated Movies"; c_path := "/movie/top_rated"; c_type := "movie"; c_params := [] |};
    {| c_title := "Upcoming Movies"; c_path := "/movie/upcoming"; c_type := "movie"; c_params := [] |};
    {| c_title := "Popular TV"; c_path := "/tv/popular"; c_type := "series"; c_params := [] |};
    {| c_title := "Top Rated TV"; c_path := "/tv/top_rated"; c_type := "series"; c_params := [] |};
    {| c_title := "On The Air"; c_path := "/tv/on_the_air"; c_type := "series"; c_params := [] |} ].

Definition movieGenres : list string :=
  [ "Action"; "Adventure"; "Animation"; "Comedy"; "Crime"; "Documentary";
    "Drama"; "Family"; "Fantasy"; "Horror"; "Romance"; "Science Fiction";
    "Thriller" ].

Definition tvGenres : list string :=
  [ "Action & Adventure"; "Animation"; "Comedy"; "Crime"; "Documentary";
    "Drama"; "Family"; "Mystery"; "Reality"; "Sci-Fi & Fantasy";
    "War & Politics" ].

(** The discovery rows for the genre names the genre map resolves to a
    truthy id; the other names are skipped. *)
Definition genreRows (names : list string) (genreMap : Map Z)
    (suffix path type : string) : list Category :=
  flat_map
    (fun name =>
       match Map_get genreMap (toLowerCase name) with
       | Some id =>
           if (id =? 0)%Z then []
           else [ {| c_title := name ++ suffix;
                     c_path := path;
                     c_type := type;
                     c_params := [ ("with_genres", Z_to_string id);
                                   ("sort_by", "popularity.desc") ] |} ]
       | None => []
       end)
    names.

Section Upstream.
Context {js : ECMAScript}.
Variable env : Env.
Variable w : World.

(** The retry loop of [tmdbFetch]: attempts [attempt], [attempt + 1], ...
    while [fuel] attempts remain; the first good answer is returned and
    after the last attempt the last error is thrown. *)
Fixpoint tmdbFetch_attempts (path : string) (params : list (string * string))
    (attempt fuel : nat) (lastError : Error) : Error + Payload :=
  match fuel with
  | O => inl lastError
  | S fuel' =>
      match upstream w path params attempt with
      | inr payload => inr payload
      | inl error => tmdbFetch_attempts path params (S attempt) fuel' error
      end
  end.

(** [tmdbFetch(path, params, attempts = 2)].  [buildTmdbUrl] throws when
    no API key is configured. *)
Definition tmdbFetch (path : string) (params : list (string * string)) : M Payload :=
  modify (log_call path) ;;
  if truthy_ostr (TMDB_API_KEY env)
  then match tmdbFetch_attempts path params 0 2 "undefined" with
       | inr payload => ret payload
       | inl e => throw e
       end
  else throw "TMDB_API_KEY is missing in server/.env".

Definition is_video_of_kind (kind : string) (item : TmdbObject) : bool :=
  match o_site item, o_type item with
  | Some site, Some type => (site =? "YouTube")%string && (type =? kind)%string
  | _, _ => false
  end.

(** [preferred.map(kind => results.find(..)).find(Boolean)]. *)
Fixpoint first_preferred (preferred : list string) (results : list TmdbObject)
    : option TmdbObject :=
  match preferred with
  | [] => None
  | kind :: rest =>
      match find (is_video_of_kind kind) results with
      | Some video => Some video
      | None => first_preferred rest results
      end
  end.

(** [fetchTrailerUrl(id, type)]; [id] is the text interpolated in the
    path. *)
Definition fetchTrailerUrl (id : string) (type : string) : M string :=
  let path := if (type =? "series")%string
              then "/tv/" ++ id ++ "/videos"
              else "/movie/" ++ id ++ "/videos" in
  payload <- tmdbFetch path [] ;;
  let results := match p_results payload with Some r => r | None => [] end in
  let video := first_preferred ["Trailer"; "Teaser"; "Clip"] results in
  ret match video with
      | Some v => "https://www.youtube.com/embed/" ++ interp_str (o_key v)
      | None => ""
      end.

(** [fetchGenreMap(type)]. *)
Definition fetchGenreMap (type : string) : M (Map Z) :=
  let path := if (type =? "series")%string
              then "/genre/tv/list" else "/genre/movie/list" in
  payload <- tmdbFetch path [] ;;
  let genres := match p_genres payload with Some g => g | None => [] end in
  ret (fold_left
         (fun map genre =>
            match g_name genre, g_id genre with
            | Some name, Some id =>
                if truthy_str name && negb (id =? 0)%Z
                then Map_set map (toLowerCase name) id
                else map
            | _, _ => map
            end)
         genres []).

End Upstream.

(* ================================================================== *)
(** ** Catalog aggregator *)
(* ================================================================== *)

Section Aggregator.
Context {js : ECMAScript}.
Variable env : Env.
Variable seedMovies : list SeedMovie.
Variable w : World.

(** [Math.min(Math.max(Number(req.query.perCategory) || 16, 6), 40)]. *)
Definition perCategory (req : Query) : jsnum :=
  Math_min (Math_max (or_num (Number (q_perCategory req)) (num_of_Z 16)) (num_of_Z 6))
           (num_of_Z 40).

(** The discovery rows appended to the fixed ones. *)
Definition genreCategories (genreMapMovie genreMapTv : Map Z) : list Category :=
  (genreRows movieGenres genreMapMovie " Movies" "/discover/movie" "movie"
   ++ genreRows tvGenres genreMapTv " TV" "/discover/tv" "series")%list.

(** One element of the [Promise.all] over the category rows. *)
Definition fetchCategory (req : Query) (category : Category) : M CategoryResult :=
  payload <- tmdbFetch env w (c_path category) (c_params category) ;;
  let results := match p_results payload with Some r => r | None => [] end in
  ret {| r_category := category; r_results := slice0 results (perCategory req) |}.

Definition categoryResults (req : Query) : M (list CategoryResult) :=
  genreMapMovie <- fetchGenreMap env w "movie" ;;
  genreMapTv <- fetchGenreMap env w "series" ;;
  Promise_all
    (map (fetchCategory req)
         (categories ++ genreCategories genreMapMovie genreMapTv)%list).

Definition trailerTargets (results : list CategoryResult) : list TrailerTarget :=
  flat_map
    (fun category =>
       map (fun item => {| t_id := o_id item; t_type := c_type (r_category category) |})
           (firstn 3 (r_results category)))
    (firstn 2 results).

Definition fetchTrailerEntry (target : TrailerTarget) : M (string * string) :=
  trailerUrl <- fetchTrailerUrl env w (interp_id (t_id target)) (t_type target) ;;
  ret (t_type target ++ ":" ++ interp_id (t_id target), trailerUrl).

(** The fulfilled results whose URL is not empty. *)
Definition trailerEntries (trailerResults : list (Error + string * string))
    : list (string * string) :=
  flat_map
    (fun result =>
       match result with
       | inr (key, url) => if truthy_str url then [(key, url)] else []
       | inl _ => []
       end)
    trailerResults.

Definition tmdbData (results : list CategoryResult) (trailerMap : Map string)
    : list ContentRecord :=
  List.concat
    (mapi
       (fun categoryIndex category =>
          mapi
            (fun index item =>
               mapTmdbItem (fullYear w) item
                 (c_title (r_category category)) (c_type (r_category category))
                 trailerMap
                 ((categoryIndex =? 0)%nat && (index =? 0)%nat))
            (r_results category))
       results).

(** [getMoviesFromTmdb(req, res, next)].  Its [catch] clause rethrows. *)
Definition getMoviesFromTmdb (req : Query) : M Outcome :=
  results <- categoryResults req ;;
  trailerResults <- Promise_allSettled (map fetchTrailerEntry (trailerTargets results)) ;;
  let trailerMap := Map_of_entries (trailerEntries trailerResults) in
  let data := tmdbData results trailerMap in
  modify (set_tmdbFailureStreak 0) ;;
  modify (set_tmdbDisabledUntil 0) ;;
  ret (Sent {| status := 200; body := Listing (List.length data) data |}).

(** The [catch] clause around the upstream attempt in [getMovies]. *)
Definition recordFailure : M unit :=
  modify (fun s => set_tmdbFailureStreak (tmdbFailureStreak s + 1) s) ;;
  s <- get_state ;;
  if (tmdbFailureStreak s >=? 1)%Z
  then modify (set_tmdbDisabledUntil (now w + TMDB_COOLDOWN_MS env))
  else ret tt.

(** [Math.min(Math.max(Number(limit) || 50, 1), 500)] after the
    destructuring default [limit = '200']. *)
Definition cappedLimit (req : Query) : jsnum :=
  let limit := default_to (q_limit req) "200" in
  Math_min (Math_max (or_num (Number limit) (num_of_Z 50)) (num_of_Z 1))
           (num_of_Z 500).

(** The [filter] object built from the query (each value after its
    [trim] call succeeded). *)
Definition buildFilter (search category type : string) (featured : jsval) : Filter :=
  {| f_text_search := if truthy_str (trim search) then Some (trim search) else None;
     f_category := if truthy_str (trim category) then Some (trim category) else None;
     f_type := if truthy_str (trim type) then Some (trim type) else None;
     f_featured := if strict_eq_str featured "true" || strict_eq_str featured "false"
                   then Some (strict_eq_str featured "true") else None |}.

(** The four [.filter] calls and the [.slice] over the seed catalog. *)
Definition filteredSeed (search category type : string) (featured : jsval)
    (limit : jsnum) : list SeedMovie :=
  slice0
    (filter (fun movie => if strict_eq_str featured "true"
                          then truthy_obool (sm_featured movie) else true)
       (filter (fun movie => negb (truthy_str search)
                             || includes (toLowerCase (sm_title movie)) (toLowerCase search))
          (filter (fun movie => negb (truthy_str category)
                                || (sm_category movie =? category)%string)
             (filter (fun movie => negb (truthy_str type)
                                   || (sm_type movie =? type)%string)
                seedMovies))))
    limit.

(** The store/seed part of [getMovies] (from the destructuring of
    [req.query] to the end of the [try] block). *)
Definition getMovies_fallback (req : Query) : M Outcome :=
  search <- string_receiver (default_to (q_search req) "") ;;
  category <- string_receiver (default_to (q_category req) "") ;;
  type <- string_receiver (default_to (q_type req) "") ;;
  let featured := default_to (q_featured req) "" in
  let filter := buildFilter search category type featured in
  let isDbReady := (readyState w =? 1)%Z in
  if isDbReady
  then match Movie_find w filter (cappedLimit req) with
       | inl e => throw e
       | inr movies =>
           modify (set_tmdbFailureStreak 0) ;;
           modify (set_tmdbDisabledUntil 0) ;;
           ret (Sent {| status := 200;
                        body := Listing (List.length movies) (map normalizeMovie movies) |})
       end
  else
    let seed := filteredSeed search category type featured (cappedLimit req) in
    ret (Sent {| status := 200;
                 body := Listing (List.length seed) (map normalizeSeedMovie seed) |}).

(** [getMovies(req, res, next)].  The inner [try] returns the upstream
    response when there is one ([Some]); otherwise control falls through
    to the store/seed part. *)
Definition getMovies (req : Query) : M Outcome :=
  try_catch
    (s <- get_state ;;
     let tmdbDisabled := (tmdbDisabledUntil s >? now w)%Z in
     early <- (if truthy_ostr (TMDB_API_KEY env)
                  && negb (strict_eq_str (q_source req) "db")
                  && negb tmdbDisabled
               then try_catch
                      (r <- getMoviesFromTmdb req ;; ret (Some r))
                      (fun _ => recordFailure ;; ret None)
               else ret None) ;;
     match early with
     | Some r => ret r
     | None => getMovies_fallback req
     end)
    (fun error => ret (Next error)).

(** [getTmdbTrailer(req, res, next)] with the route parameters [type] and
    [id]. *)
Definition getTmdbTrailer (type id : option string) : M Outcome :=
  try_catch
    (let normalizedType :=
       match type with
       | Some t => if (t =? "series")%string then "series"
                   else if (t =? "movie")%string then "movie" else ""
       | None => ""
       end in
     if negb (truthy_str normalizedType) || negb (truthy_ostr id)
     then ret (Sent {| status := 400; body := Message "Valid type and id are required." |})
     else if negb (truthy_ostr (TMDB_API_KEY env))
     then ret (Sent {| status := 503; body := Message "TMDB trailer service is unavailable." |})
     else
       trailerUrl <- fetchTrailerUrl env w (interp_str id) normalizedType ;;
       if negb (truthy_str trailerUrl)
       then ret (Sent {| status := 404; body := Message "Trailer not available for this title." |})
       else ret (Sent {| status := 200; body := TrailerData trailerUrl |}))
    (fun error => ret (Next error)).

End Aggregator.

(* ================================================================== *)
(** ** A runtime for concrete runs *)
(* ================================================================== *)

(** The decimal-integer fragment of ECMAScript's [StringToNumber]: optional
    white space, an optional sign and decimal digits; the empty string is
    zero.  Literals with a fraction, an exponent, a radix prefix or
    [Infinity] lie outside the fragment (it answers NaN there); the concrete
    runs below use it on [undefined] and on short digit strings only. *)

Definition digit_value (c : ascii) : option Z :=
  let n := nat_of_ascii c in
  if ((48 <=? n)%nat && (n <=? 57)%nat) then Some (Z.of_nat n - 48) else None.

Fixpoint digits_value (s : string) (acc : Z) : option Z :=
  match s with
  | EmptyString => Some acc
  | String c r =>
      match digit_value c with
      | Some d => digits_value r (10 * acc + d)
      | None => None
      end
  end.

Definition unsigned_decimal (s : string) : option Z :=
  match s with
  | EmptyString => None
  | _ => digits_value s 0
  end.

Definition StringToNumber_decimal (s : string) : jsnum :=
  match trim s with
  | EmptyString => num_of_Z 0
  | String "-" r =>
      match unsigned_decimal r with
      | Some z => num_of_Z (- z)
      | None => NaN
      end
  | String "+" r =>
      match unsigned_decimal r with
      | Some z => num_of_Z z
      | None => NaN
      end
  | t =>
      match unsigned_decimal t with
      | Some z => num_of_Z z
      | None => NaN
      end
  end.

Definition Number_decimal (v : jsval) : jsnum :=
  match v with
  | JUndef => NaN
  | JStr s => StringToNumber_decimal s
  | JArr l => StringToNumber_decimal (String.concat "," l)
  end.

Definition DecimalRuntime : ECMAScript := {| Number := Number_decimal |}.

(** The empty query string. *)
Definition noQuery : Query :=
  {| q_search := JUndef; q_category := JUndef; q_type := JUndef;
     q_featured := JUndef; q_limit := JUndef; q_source := JUndef;
     q_perCategory := JUndef |}.

(** An upstream that is down, and one that answers every path with an
    empty body. *)
Definition upstreamDown : string -> list (string * string) -> nat -> Error + Payload :=
  fun _ _ _ => inl "TMDB request failed".

Definition upstreamEmpty : string -> list (string * string) -> nat -> Error + Payload :=
  fun _ _ _ => inr {| p_genres := None; p_results := None |}.

(** An upstream whose weekly movie trend lists one title and whose videos
    endpoint knows one YouTube trailer for it; every other path answers
    with an empty body. *)
Definition upstreamOne : string -> list (string * string) -> nat -> Error + Payload :=
  fun path _ _ =>
    if (path =? "/trending/movie/week")%string
    then inr {| p_genres := None;
                p_results := Some [ {| o_id := Some 550; o_title := Some "Fight Club";
                                       o_name := None;
                                       o_release_date := Some "1999-10-15";
                                       o_first_air_date := None;
                                       o_poster_path := Some "/p.jpg";
                                       o_backdrop_path := None;
                                       o_overview := None; o_adult := None;
                                       o_site := None; o_type := None;
                                       o_key := None |} ] |}
    else if (path =? "/movie/550/videos")%string
    then inr {| p_genres := None;
                p_results := Some [ {| o_id := None; o_title := None; o_name := None;
                                       o_release_date := None;
                                       o_first_air_date := None;
                                       o_poster_path := None;
                                       o_backdrop_path := None;
                                       o_overview := None; o_adult := None;
                                       o_site := Some "YouTube";
                                       o_type := Some "Trailer";
                                       o_key := Some "abc" |} ] |}
    else inr {| p_genres := None; p_results := None |}.

Definition emptyStore : Filter -> jsnum -> Error + list MovieDoc :=
  fun _ _ => inr [].

Definition envWithKey : Env :=
  {| TMDB_API_KEY := Some "k"; TMDB_COOLDOWN_MS := 300000 |}.

Definition envNoKey : Env :=
  {| TMDB_API_KEY := None; TMDB_COOLDOWN_MS := 300000 |}.

Definition seedOf (title type category : string) (featured : bool) : SeedMovie :=
  {| sm_title := title; sm_description := ""; sm_category := category;
     sm_type := type; sm_year := num_of_Z 2020; sm_rating := "13+";
     sm_duration := "2h"; sm_imageUrl := ""; sm_backdropUrl := "";
     sm_trailerUrl := ""; sm_featured := Some featured |}.

(* ================================================================== *)
(** ** Vocabulary of the properties *)
(* ================================================================== *)

(** Two states agree on the health tracker. *)
Definition same_health (s s' : State) : Prop :=
  tmdbDisabledUntil s' = tmdbDisabledUntil s
  /\ tmdbFailureStreak s' = tmdbFailureStreak s.

(** No upstream call was made between two states. *)
Definition same_calls (s s' : State) : Prop :=
  upstreamCalls s' = upstreamCalls s.

(** A computation relates every start state to its end state by [R],
    whether it returns or throws. *)
Definition frames {A : Type} (R : State -> State -> Prop) (m : M A) : Prop :=
  forall s, R s (snd (m s)).

(** The state in which the [catch] clause of the upstream attempt leaves the
    tracker when the attempt, started at time [t], ended in state [s]. *)
Definition failureRecorded (env : Env) (t : Z) (s : State) : State :=
  {| tmdbDisabledUntil := t + TMDB_COOLDOWN_MS env;
     tmdbFailureStreak := tmdbFailureStreak s + 1;
     upstreamCalls := upstreamCalls s |}.

(** The condition under which [getMovies] attempts the upstream. *)
Definition upstreamEligible (env : Env) (w : World) (req : Query) (s : State) : bool :=
  truthy_ostr (TMDB_API_KEY env)
  && negb (strict_eq_str (q_source req) "db")
  && negb (tmdbDisabledUntil s >? now w)%Z.

(** The store/seed part of [getMovies] under the handler's outer [catch]. *)
Definition guardedFallback {js : ECMAScript} (seedMovies : list SeedMovie)
    (w : World) (req : Query) : M Outcome :=
  try_catch (getMovies_fallback seedMovies w req) (fun error => ret (Next error)).

(** Serving requests one after the other; each comes with the world it
    meets. *)
Fixpoint serveAll {js : ECMAScript} (env : Env) (seedMovies : list SeedMovie)
    (reqs : list (World * Query)) (s : State) : State :=
  match reqs with
  | [] => s
  | (w, req) :: rest =>
      serveAll env seedMovies rest (snd (getMovies env seedMovies w req s))
  end.

Definition num_ltb (a b : jsnum) : bool :=
  match a, b with
  | NaN, _ | _, NaN => false
  | NegInf, NegInf | PosInf, PosInf => false
  | NegInf, _ => true
  | _, PosInf => true
  | Fin x, Fin y => match (x ?= y)%Q with Lt => true | _ => false end
  | _, _ => false
  end.

(** Clamping as the specification words it: [n] brought into [[lo, hi]]. *)
Definition clamp (n lo hi : jsnum) : jsnum :=
  if num_ltb n lo then lo else if num_ltb hi n then hi else n.

(** The number the specification clamps: [Number(v)] when that is a nonzero
    number and [d] otherwise. *)
Definition number_or {js : ECMAScript} (v : jsval) (d : Z) : jsnum :=
  match Number v with
  | NaN => num_of_Z d
  | Fin q => if Qeq_bool q 0 then num_of_Z d else Fin q
  | n => n
  end.

Definition is_movie_or_series (t : string) : Prop := t = "movie" \/ t = "series".

(** A seed record meets the filters of the query, in the words of the
    specification: exact type, exact category, case-insensitive substring of
    the title, and the featured flag when [featured] is [true] or [false]. *)
Definition meets_filters (search category type : string) (featured : jsval)
    (movie : SeedMovie) : Prop :=
  (type <> "" -> sm_type movie = type)
  /\ (category <> "" -> sm_category movie = category)
  /\ (search <> "" ->
      includes (toLowerCase (sm_title movie)) (toLowerCase search) = true)
  /\ (featured = JStr "true" -> truthy_obool (sm_featured movie) = true)
  /\ (featured = JStr "false" -> truthy_obool (sm_featured movie) = false).

(** A fetched row keeps its category and holds a slice of what the
    upstream listed. *)
Definition row_of {js : ECMAScript} (req : Query) (category : Category)
    (row : CategoryResult) : Prop :=
  r_category row = category
  /\ exists results, r_results row = slice0 results (perCategory req).

Definition validTrailerType (type : option string) : Prop :=
  type = Some "movie" \/ type = Some "series".

Definition twelve (b : Byte.byte) : ObjectId := {| oid_bytes := repeat b 12 |}.

Definition docOf (oid : ObjectId) (type : string) : MovieDoc :=
  {| md__id := oid; md_title := "t"; md_description := "d"; md_category := "c";
     md_type := type; md_year := num_of_Z 2020; md_rating := "13+";
     md_duration := "2h"; md_imageUrl := "i"; md_backdropUrl := "b";
     md_trailerUrl := "u"; md_featured := Some false;
     md_createdAt := Some 0; md_updatedAt := Some 0 |}.

Definition itemOf (id : Z) (release_date : option string) : TmdbObject :=
  {| o_id := Some id; o_title := Some "T"; o_name := None;
     o_release_date := release_date; o_first_air_date := None;
     o_poster_path := None; o_backdrop_path := None; o_overview := None;
     o_adult := None; o_site := None; o_type := None; o_key := None |}.

Definition videoOf (site kind key : string) : TmdbObject :=
  {| o_id := None; o_title := None; o_name := None;
     o_release_date := None; o_first_air_date := None;
     o_poster_path := None; o_backdrop_path := None; o_overview := None;
     o_adult := None; o_site := Some site; o_type := Some kind; o_key := Some key |}.

Definition worldAt (t : Z)
    (up : string -> list (string * string) -> nat -> Error + Payload)
    (ready : Z) : World :=
  {| now := t; fullYear := 2026; upstream := up; readyState := ready;
     Movie_find := emptyStore |}.

(* ================================================================== *)
(** ** Callers of the controller (client) *)
(* ================================================================== *)

Definition is_digit (c : ascii) : bool :=
  let n := nat_of_ascii c in (48 <=? n)%nat && (n <=? 57)%nat.

Fixpoint all_digits (s : string) : bool :=
  match s with
  | EmptyString => true
  | String c r => is_digit c && all_digits r
  end.

(** What is left of [s] after the literal [p], when [s] begins with it. *)
Fixpoint strip_prefix (p s : string) : option string :=
  match p, s with
  | EmptyString, _ => Some s
  | String a p', String b s' => if Ascii.eqb a b then strip_prefix p' s' else None
  | String _ _, EmptyString => None
  end.

(** One alternative of the group followed by [-(\d+)$]: the captured kind
    and digits. *)
Definition match_kind_digits (kind rest : string) : option (string * string) :=
  match strip_prefix (kind ++ "-") rest with
  | Some digits =>
      if truthy_str digits && all_digits digits then Some (kind, digits) else None
  | None => None
  end.

(** [id.match(/^tmdb-(movie|series)-(\d+)$/)]: the two captured groups
    (App.js, [resolveTrailerForItem]). *)
Definition matchTmdbId (id : string) : option (string * string) :=
  match strip_prefix "tmdb-" id with
  | Some rest =>
      match match_kind_digits "movie" rest with
      | Some groups => Some groups
      | None => match_kind_digits "series" rest
      end
  | None => None
  end.

(** The answer of the API server as the client's [fetch] sees it: the
    request may fail on the way, or a response arrives. *)
Definition Transport : Type := string -> string -> Error + Response.

(** [response.ok]. *)
Definition response_ok (r : Response) : bool :=
  (200 <=? status r)%Z && (status r <=? 299)%Z.

(** [fetchTmdbTrailer(type, id)] of the client API module, over the
    transport that carries [GET /movies/tmdb-trailer/:type/:id];
    [handleJsonResponse] throws on a response that is not ok, and
    [payload?.data?.trailerUrl || ''] reads the body. *)
Definition fetchTmdbTrailer (get : Transport) (type : string) (id : string)
    : Error + string :=
  let safeType := if (type =? "series")%string then "series" else "movie" in
  match get safeType id with
  | inl e => inl e
  | inr response =>
      if response_ok response
      then match body response with
           | TrailerData trailerUrl => inr trailerUrl
           | _ => inr ""
           end
      else inl match body response with
               | Message m => if truthy_str m then m else "Request failed"
               | _ => "Request failed"
               end
  end.

(** [resolveTrailerForItem(item)] (App.js); [None] is a missing item. *)
Definition resolveTrailerForItem (get : Transport) (item : option ContentRecord)
    : string :=
  match item with
  | None => ""
  | Some item =>
      if truthy_str (cr_trailerUrl item) then cr_trailerUrl item
      else match matchTmdbId (cr_id item) with
           | None => ""
           | Some (type, tmdbId) =>
               match fetchTmdbTrailer get type tmdbId with
               | inr url => url
               | inl _ => ""
               end
           end
  end.

(** The transport when the route is served by [getTmdbTrailer] in world [w]
    and state [s]; [onError] is the response the error middleware writes for
    an error handed to [next]. *)
Definition trailerRoute (env : Env) (w : World) (s : State)
    (onError : Error -> Response) : Transport :=
  fun type id =>
    match fst (getTmdbTrailer env w (Some type) (Some id) s) with
    | inr (Sent r) => inr r
    | inr (Next e) => inr (onError e)
    | inl e => inr (onError e)
    end.

(** [normalizeContentType(type)] (App.js); [None] is a missing type. *)
Definition normalizeContentType (type : option string) : string :=
  let safeType := toLowerCase (trim (or_str type "")) in
  if (safeType =? "movie")%string then "movie"
  else if existsb (String.eqb safeType)
            ["series"; "tv"; "show"; "tvshow"; "tv-show"; "tv series"]
       then "series"
       else "".

(* ================================================================== *)
(** ** Further vocabulary *)
(* ================================================================== *)

(** A computation makes at most [n] upstream calls. *)
Definition calls_within {A : Type} (n : nat) (m : M A) : Prop :=
  forall s,
    (List.length (upstreamCalls (snd (m s))) <= List.length (upstreamCalls s) + n)%nat.

(** Two states that differ at most in the failure streak, which is not
    negative in either. *)
Definition streak_apart (s1 s2 : State) : Prop :=
  tmdbDisabledUntil s1 = tmdbDisabledUntil s2
  /\ upstreamCalls s1 = upstreamCalls s2
  /\ 0 <= tmdbFailureStreak s1
  /\ 0 <= tmdbFailureStreak s2.

(** A computation that cannot tell such states apart. *)
Definition streak_blind {A : Type} (m : M A) : Prop :=
  forall s1 s2,
    streak_apart s1 s2 ->
    fst (m s1) = fst (m s2) /\ streak_apart (snd (m s1)) (snd (m s2)).

(** The tracker as the handler keeps it: a streak that is not negative, and
    no deadline without a failure. *)
Definition tracker_ok (s : State) : Prop :=
  0 <= tmdbFailureStreak s
  /\ (tmdbFailureStreak s = 0 -> tmdbDisabledUntil s = 0).

Definition is_upper (c : ascii) : bool :=
  let n := nat_of_ascii c in (65 <=? n)%nat && (n <=? 90)%nat.

(** Some character of the string passes the test. *)
Fixpoint some_char (test : ascii -> bool) (s : string) : bool :=
  match s with
  | EmptyString => false
  | String c r => test c || some_char test r
  end.

(** An embed URL as [fetchTrailerUrl] builds it, or no URL. *)
Definition embed_or_empty (url : string) : Prop :=
  url = "" \/ prefix "https://www.youtube.com/embed/" url = true.

(** The whole seed predicate of one record, as the four [.filter] calls
    apply it. *)
Definition seed_keeps (search category type : string) (featured : jsval)
    (movie : SeedMovie) : bool :=
  (negb (truthy_str type) || (sm_type movie =? type)%string)
  && (negb (truthy_str category) || (sm_category movie =? category)%string)
  && (negb (truthy_str search)
      || includes (toLowerCase (sm_title movie)) (toLowerCase search))
  && (if strict_eq_str featured "true" then truthy_obool (sm_featured movie) else true).


(** The loop of [fetchGenreMap] over the genres of a payload, from a map
    built so far. *)
Definition genreMapFrom (genres : list Genre) (map : Map Z) : Map Z :=
  fold_left
    (fun map genre =>
       match g_name genre, g_id genre with
       | Some name, Some id =>
           if truthy_str name && negb (id =? 0)%Z
           then Map_set map (toLowerCase name) id
           else map
       | _, _ => map
       end)
    genres map.

(** A genre the loop enters in the map: it has a name and an id, both
    truthy. *)
Definition genre_entered (genre : Genre) (key : string) (id : Z) : Prop :=
  exists name,
    g_name genre = Some name /\ name <> "" /\ toLowerCase name = key
    /\ g_id genre = Some id /\ id <> 0.

(** The records of one row, mapped as the inner [forEach] of
    [getMoviesFromTmdb] does. *)
Definition rowRecords {js : ECMAScript} (w : World) (trailerMap : Map string)
    (categoryIndex : nat) (category : CategoryResult) : list ContentRecord :=
  mapi
    (fun index item =>
       mapTmdbItem (fullYear w) item
         (c_title (r_category category)) (c_type (r_category category))
         trailerMap
         ((categoryIndex =? 0)%nat && (index =? 0)%nat))
    (r_results category).

(** A query value that is absent or a single string. *)
Definition textual (v : jsval) : Prop := v = JUndef \/ exists s, v = JStr s.

(** The string a textual query value stands for after its destructuring
    default. *)
Definition text_of (v : jsval) : string :=
  match v with
  | JStr s => s
  | _ => ""
  end.


(** The record of upstream calls has not shrunk. *)
Definition calls_grow (s s' : State) : Prop :=
  (List.length (upstreamCalls s) <= List.length (upstreamCalls s'))%nat.

(** The first row of a listing holds at least one item. *)
Definition firstRowNonEmpty (rows : list CategoryResult) : bool :=
  match rows with
  | row :: _ => match r_results row with _ :: _ => true | [] => false end
  | [] => false
  end.

Fixpoint sum_lengths (rows : list CategoryResult) : nat :=
  match rows with
  | [] => 0
  | row :: rest => (List.length (r_results row) + sum_lengths rest)%nat
  end.

(* ================================================================== *)
(** ** The store's part in a listing request *)
(* ================================================================== *)

(** The store serves the request: no [trim] call throws, the store is
    connected and it answers the query, so that the handler reaches the
    reset that precedes the store's response. *)
Definition storeServes {js : ECMAScript} (w : World) (req : Query) : bool :=
  match default_to (q_search req) "", default_to (q_category req) "",
        default_to (q_type req) "" with
  | JStr search, JStr category, JStr type =>
      (readyState w =? 1)%Z
      && match Movie_find w
                 (buildFilter search category type (default_to (q_featured req) ""))
                 (cappedLimit req) with
         | inr _ => true
         | inl _ => false
         end
  | _, _, _ => false
  end.

(** The tracker after either reset ([tmdbFailureStreak = 0;
    tmdbDisabledUntil = 0]). *)
Definition trackerReset (s : State) : State :=
  set_tmdbDisabledUntil 0 (set_tmdbFailureStreak 0 s).

(** A store whose queries are rejected. *)
Definition storeRejects : Filter -> jsnum -> Error + list MovieDoc :=
  fun _ _ => inl "store query failed".

(** An upstream that answers every request with a status that is not ok and
    a body without message: each attempt of [tmdbFetch] ends in
    [new Error('TMDB request failed')]. *)
Definition upstreamNotOk : string -> list (string * string) -> nat -> Error + Payload :=
  fun _ _ _ => inl "TMDB request failed".

(** A world whose store is connected and rejects every query. *)
Definition worldRejecting (t : Z)
    (up : string -> list (string * string) -> nat -> Error + Payload) : World :=
  {| now := t; fullYear := 2026; upstream := up; readyState := 1;
     Movie_find := storeRejects |}.

(** A store that holds [docs], lets every filter pass and honours the limit
    it is asked for; and a world whose store is connected and is that
    one. *)
Definition storeHolding (docs : list MovieDoc)
    : Filter -> jsnum -> Error + list MovieDoc :=
  fun _ limit => inr (slice0 docs limit).

Definition worldHolding (t : Z)
    (up : string -> list (string * string) -> nat -> Error + Payload)
    (docs : list MovieDoc) : World :=
  {| now := t; fullYear := 2026; upstream := up; readyState := 1;
     Movie_find := storeHolding docs |}.

(** The query string [?limit=<text>]. *)
Definition limitQuery (text : string) : Query :=
  {| q_search := JUndef; q_category := JUndef; q_type := JUndef;
     q_featured := JUndef; q_limit := JStr text; q_source := JUndef;
     q_perCategory := JUndef |}.

(* ================================================================== *)
(** ** The error middleware and the trailer endpoint *)
(* ================================================================== *)

(** An error object as [errorHandler] reads it: [err.name], [err.status]
    ([None] when the property is missing), [err.message] and the messages
    of the entries of [err.errors]. *)
Record ErrorObject : Type := {
  err_name : string;
  err_status : option Z;
  err_message : string;
  err_errors : list string
}.

(** [new Error(message)], as [tmdbFetch] throws it for an upstream answer
    that is not ok, and [buildTmdbUrl] for a missing key. *)
Definition new_Error (message : string) : ErrorObject :=
  {| err_name := "Error"; err_status := None; err_message := message;
     err_errors := [] |}.

(** The body [{message, details}] the middleware writes; [details] is
    [undefined] unless the error is a validation error. *)
Record ErrorBody : Type := {
  eb_message : string;
  eb_details : option (list string)
}.

(** How the middleware ends: [res.status(..).json(..)] or [next(err)]. *)
Inductive Handled : Type :=
| Answered (status : Z) (body : ErrorBody)
| Forwarded (err : ErrorObject).

(** [errorHandler(err, req, res, next)]; [headersSent] is
    [res.headersSent]. *)
Definition errorHandler (headersSent : bool) (err : ErrorObject) : Handled :=
  if headersSent then Forwarded err
  else
    let isValidationError := (err_name err =? "ValidationError")%string in
    let isCastError := (err_name err =? "CastError")%string in
    let fallback := if isValidationError || isCastError then 400 else 500 in
    let status := match err_status err with
                  | Some st => if (st =? 0)%Z then fallback else st
                  | None => fallback
                  end in
    Answered status
      {| eb_message := if (status =? 500)%Z then "Internal server error"
                       else err_message err;
         eb_details := if isValidationError then Some (err_errors err) else None |}.

(** What a client of [GET /movies/tmdb-trailer/:type/:id] receives: the
    response of the handler, or what the error middleware (mounted after
    the routes) makes of the error the handler hands to [next]; nothing has
    been sent by then.  [thrown] gives the error object behind an error, of
    which the handler monad keeps the message.  A handler whose promise
    rejects would leave the request unanswered. *)
Inductive EndpointAnswer : Type :=
| FromHandler (r : Response)
| FromMiddleware (h : Handled)
| Unanswered.

Definition trailerEndpoint (env : Env) (w : World) (thrown : Error -> ErrorObject)
    (type id : option string) (s : State) : EndpointAnswer :=
  match fst (getTmdbTrailer env w type id s) with
  | inr (Sent r) => FromHandler r
  | inr (Next e) => FromMiddleware (errorHandler false (thrown e))
  | inl _ => Unanswered
  end.

(** The status a client sees. *)
Definition answer_status (a : EndpointAnswer) : option Z :=
  match a with
  | FromHandler r => Some (status r)
  | FromMiddleware (Answered st _) => Some st
  | FromMiddleware (Forwarded _) => None
  | Unanswered => None
  end.

(** A listed video that can serve as a trailer, in the words of the
    specification: hosted on YouTube and of the given kind. *)
Definition youtube_of_kind (kind : string) (item : TmdbObject) : Prop :=
  o_site item = Some "YouTube" /\ o_type item = Some kind.

Definition matchingTrailer (item : TmdbObject) : Prop :=
  youtube_of_kind "Trailer" item \/ youtube_of_kind "Teaser" item
  \/ youtube_of_kind "Clip" item.

(* ================================================================== *)
(** ** Framing: what each computation leaves untouched *)
(* ================================================================== *)

Section Frames.
Variable R : State -> State -> Prop.
Hypothesis R_refl : forall s, R s s.
Hypothesis R_trans : forall s1 s2 s3, R s1 s2 -> R s2 s3 -> R s1 s3.

Lemma frames_ret {A : Type} (a : A) : frames R (ret a).
Proof. intro s; apply R_refl. Qed.

Lemma frames_throw {A : Type} (e : Error) : frames R (@throw A e).
Proof. intro s; apply R_refl. Qed.

Lemma frames_get_state : frames R get_state.
Proof. intro s; apply R_refl. Qed.

Lemma frames_modify (f : State -> State) :
  (forall s, R s (f s)) -> frames R (modify f).
Proof. intros H s; apply H. Qed.

Lemma frames_bind {A B : Type} (m : M A) (k : A -> M B) :
  frames R m -> (forall a, frames R (k a)) -> frames R (bind m k).
Proof.
  intros Hm Hk s. unfold bind.
  specialize (Hm s). destruct (m s) as [[e | a] s1]; simpl in *.
  - exact Hm.
  - eapply R_trans; [exact Hm | apply Hk].
Qed.

Lemma frames_try_catch {A : Type} (m : M A) (h : Error -> M A) :
  frames R m -> (forall e, frames R (h e)) -> frames R (try_catch m h).
Proof.
  intros Hm Hh s. unfold try_catch.
  specialize (Hm s). destruct (m s) as [[e | a] s1]; simpl in *.
  - eapply R_trans; [exact Hm | apply Hh].
  - exact Hm.
Qed.

Lemma frames_settle {A : Type} (m : M A) : frames R m -> frames R (settle m).
Proof.
  intros Hm s. unfold settle. specialize (Hm s).
  destruct (m s) as [r s1]; exact Hm.
Qed.

Lemma frames_settle_all {A : Type} (ms : list (M A)) :
  Forall (frames R) ms -> frames R (settle_all ms).
Proof.
  induction 1 as [| m ms Hm _ IH]; simpl.
  - apply frames_ret.
  - apply frames_bind; [now apply frames_settle |].
    intro r. apply frames_bind; [exact IH |].
    intro rs. apply frames_ret.
Qed.

Lemma frames_Promise_all {A : Type} (ms : list (M A)) :
  Forall (frames R) ms -> frames R (Promise_all ms).
Proof.
  intro H. unfold Promise_all.
  apply frames_bind; [now apply frames_settle_all |].
  intro rs. destruct (all_fulfilled rs); [apply frames_throw | apply frames_ret].
Qed.

Lemma frames_string_receiver (v : jsval) : frames R (string_receiver v).
Proof. destruct v; simpl; first [apply frames_ret | apply frames_throw]. Qed.

End Frames.

Lemma same_health_refl (s : State) : same_health s s.
Proof. split; reflexivity. Qed.

Lemma same_health_trans (s1 s2 s3 : State) :
  same_health s1 s2 -> same_health s2 s3 -> same_health s1 s3.
Proof. unfold same_health; intros [? ?] [? ?]; split; congruence. Qed.

Lemma same_calls_refl (s : State) : same_calls s s.
Proof. reflexivity. Qed.

Lemma same_calls_trans (s1 s2 s3 : State) :
  same_calls s1 s2 -> same_calls s2 s3 -> same_calls s1 s3.
Proof. unfold same_calls; congruence. Qed.

Create HintDb frames.

#[local] Hint Resolve same_health_refl same_health_trans
  same_calls_refl same_calls_trans : frames.

Ltac frame_step :=
  first
    [ apply frames_ret
    | apply frames_throw
    | apply frames_get_state
    | apply frames_string_receiver
    | apply frames_bind; [solve [eauto with frames] .. | | intro]
    | apply frames_try_catch; [solve [eauto with frames] .. | | intro] ];
  eauto with frames.

(** *** The upstream client never writes the health tracker *)

Section UpstreamFrames.
Context {js : ECMAScript}.
Variable env : Env.
Variable w : World.

Lemma tmdbFetch_health (path : string) (params : list (string * string)) :
  frames same_health (tmdbFetch env w path params).
Proof.
  unfold tmdbFetch. frame_step.
  - apply frames_modify. intro s; split; reflexivity.
  - destruct (truthy_ostr (TMDB_API_KEY env)); [| frame_step].
    destruct (tmdbFetch_attempts w path params 0 2 "undefined"); frame_step.
Qed.

Lemma fetchTrailerUrl_health (id type : string) :
  frames same_health (fetchTrailerUrl env w id type).
Proof.
  unfold fetchTrailerUrl. frame_step.
  - apply tmdbFetch_health.
  - frame_step.
Qed.

Lemma fetchGenreMap_health (type : string) :
  frames same_health (fetchGenreMap env w type).
Proof.
  unfold fetchGenreMap. frame_step.
  - apply tmdbFetch_health.
  - frame_step.
Qed.

Lemma fetchCategory_health (req : Query) (category : Category) :
  frames same_health (fetchCategory env w req category).
Proof.
  unfold fetchCategory. frame_step.
  - apply tmdbFetch_health.
  - frame_step.
Qed.

Lemma categoryResults_health (req : Query) :
  frames same_health (categoryResults env w req).
Proof.
  unfold categoryResults. frame_step; [apply fetchGenreMap_health |].
  frame_step; [apply fetchGenreMap_health |].
  apply frames_Promise_all; eauto with frames.
  apply Forall_forall. intros m Hm.
  apply in_map_iff in Hm. destruct Hm as [c [<- _]].
  apply fetchCategory_health.
Qed.

Lemma fetchTrailerEntry_health (target : TrailerTarget) :
  frames same_health (fetchTrailerEntry env w target).
Proof.
  unfold fetchTrailerEntry. frame_step.
  - apply fetchTrailerUrl_health.
  - frame_step.
Qed.

End UpstreamFrames.

(** A settled batch always returns. *)
Lemma settle_all_returns {A : Type} (ms : list (M A)) (s : State) :
  exists rs, fst (settle_all ms s) = inr rs.
Proof.
  revert s. induction ms as [| m ms IH]; intro s; simpl.
  - eexists; reflexivity.
  - unfold bind, settle. destruct (m s) as [r s1].
    destruct (IH s1) as [rs Hrs].
    destruct (settle_all ms s1) as [[e | rs'] s2]; simpl in *.
    + discriminate.
    + eexists; reflexivity.
Qed.

Section UpstreamOutcome.
Context {js : ECMAScript}.
Variable env : Env.
Variable w : World.

(** When the upstream path throws, the health tracker is as it was. *)
Lemma getMoviesFromTmdb_throws_health (req : Query) (s s' : State) (e : Error) :
  getMoviesFromTmdb env w req s = (inl e, s') -> same_health s s'.
Proof.
  unfold getMoviesFromTmdb, bind at 1.
  pose proof (categoryResults_health env w req s) as Hc.
  destruct (categoryResults env w req s) as [[e1 | results] s1]; simpl in Hc.
  - intro H; inversion H; subst; exact Hc.
  - unfold bind at 1, Promise_allSettled.
    destruct (settle_all_returns
                (map (fetchTrailerEntry env w) (trailerTargets results)) s1)
      as [rs Hrs].
    destruct (settle_all _ s1) as [[e2 | rs'] s2]; simpl in Hrs; [discriminate |].
    unfold bind, modify, ret. simpl. discriminate.
Qed.

(** When the upstream path answers, both health variables are zero and
    the answer is a 200 listing. *)
Lemma getMoviesFromTmdb_returns_reset (req : Query) (s s' : State) (o : Outcome) :
  getMoviesFromTmdb env w req s = (inr o, s') ->
  tmdbFailureStreak s' = 0 /\ tmdbDisabledUntil s' = 0.
Proof.
  unfold getMoviesFromTmdb, bind at 1.
  destruct (categoryResults env w req s) as [[e1 | results] s1].
  - discriminate.
  - unfold bind at 1, Promise_allSettled.
    destruct (settle_all _ s1) as [[e2 | rs'] s2]; [discriminate |].
    unfold bind, modify, ret. simpl.
    intro H; inversion H; subst; simpl. split; reflexivity.
Qed.

End UpstreamOutcome.

(* ================================================================== *)
(** ** The listing handler, case by case *)
(* ================================================================== *)

Section GetMoviesCases.
Context {js : ECMAScript}.
Variable env : Env.
Variable seedMovies : list SeedMovie.
Variable w : World.

(** The store/seed part never calls the upstream client. *)
Lemma getMovies_fallback_calls (req : Query) :
  frames same_calls (getMovies_fallback seedMovies w req).
Proof.
  unfold getMovies_fallback.
  frame_step; [frame_step |].
  frame_step; [frame_step |].
  frame_step; [frame_step |].
  destruct (readyState w =? 1)%Z; [| frame_step].
  destruct (Movie_find w _ _); [frame_step |].
  frame_step; [apply frames_modify; intro; reflexivity |].
  frame_step; [apply frames_modify; intro; reflexivity |].
  frame_step.
Qed.

(** Not eligible: the handler is the store/seed part, guarded by the outer
    [catch]. *)
Lemma getMovies_not_eligible (req : Query) (s : State) :
  upstreamEligible env w req s = false ->
  getMovies env seedMovies w req s
  = guardedFallback seedMovies w req s.
Proof.
  intro H. unfold getMovies, upstreamEligible in *.
  unfold try_catch at 1. unfold bind at 1. unfold get_state at 1.
  unfold bind at 1. rewrite H. unfold ret at 1.
  reflexivity.
Qed.

(** Eligible and the upstream answers: that answer is the response. *)
Lemma getMovies_upstream_ok (req : Query) (s s' : State) (o : Outcome) :
  upstreamEligible env w req s = true ->
  getMoviesFromTmdb env w req s = (inr o, s') ->
  getMovies env seedMovies w req s = (inr o, s').
Proof.
  intros H Hup. unfold getMovies, upstreamEligible in *.
  unfold try_catch at 1. unfold bind at 1. unfold get_state at 1.
  unfold bind at 1. rewrite H.
  unfold try_catch at 1. unfold bind at 1. rewrite Hup.
  reflexivity.
Qed.

(** Eligible and the upstream throws: the failure is recorded and the
    store/seed part runs from the recorded state. *)
Lemma getMovies_upstream_failed (req : Query) (s s1 : State) (e : Error) :
  upstreamEligible env w req s = true ->
  getMoviesFromTmdb env w req s = (inl e, s1) ->
  0 <= tmdbFailureStreak s ->
  getMovies env seedMovies w req s
  = guardedFallback seedMovies w req (failureRecorded env (now w) s1).
Proof.
  intros H Hup Hs. unfold getMovies, upstreamEligible in *.
  unfold try_catch at 1. unfold bind at 1. unfold get_state at 1.
  unfold bind at 1. rewrite H.
  unfold try_catch at 1. unfold bind at 1. rewrite Hup.
  destruct (getMoviesFromTmdb_throws_health env w req s s1 e Hup) as [_ Hstreak].
  unfold recordFailure, bind, modify, get_state, ret. simpl.
  replace (tmdbFailureStreak s1 + 1 >=? 1)%Z with true
    by (symmetry; apply Z.geb_le; lia).
  simpl. unfold try_catch, failureRecorded, set_tmdbDisabledUntil. simpl.
  reflexivity.
Qed.

(** The end state of the store/seed part: reset when the store served the
    response, untouched otherwise. *)
Lemma getMovies_fallback_state (req : Query) (s : State) :
  match getMovies_fallback seedMovies w req s with
  | (inr (Sent _), s') =>
      if (readyState w =? 1)%Z
      then tmdbFailureStreak s' = 0 /\ tmdbDisabledUntil s' = 0
           /\ upstreamCalls s' = upstreamCalls s
      else s' = s
  | (_, s') => s' = s
  end.
Proof.
  unfold getMovies_fallback.
  destruct (q_search req), (q_category req), (q_type req); simpl;
    try reflexivity;
    unfold bind; simpl;
    (destruct (readyState w =? 1)%Z; simpl; [| reflexivity]);
    (destruct (Movie_find w _ _); simpl; [reflexivity | auto]).
Qed.

Lemma guardedFallback_calls (req : Query) :
  frames same_calls (guardedFallback seedMovies w req).
Proof.
  unfold guardedFallback. frame_step.
  - apply getMovies_fallback_calls.
  - frame_step.
Qed.

(** While the cooldown runs, the handler does not call the upstream. *)
Lemma getMovies_disabled_calls (req : Query) (s : State) :
  now w < tmdbDisabledUntil s ->
  same_calls s (snd (getMovies env seedMovies w req s)).
Proof.
  intro H. rewrite getMovies_not_eligible.
  - apply guardedFallback_calls.
  - unfold upstreamEligible.
    replace (tmdbDisabledUntil s >? now w)%Z with true
      by (symmetry; apply Z.gtb_lt; lia).
    simpl. apply andb_false_r.
Qed.

End GetMoviesCases.

Section GuardedFallback.
Context {js : ECMAScript}.
Variable seedMovies : list SeedMovie.
Variable w : World.

Lemma guarded_not_ready (req : Query) (s : State) :
  readyState w <> 1 -> snd (guardedFallback seedMovies w req s) = s.
Proof.
  intro Hr. unfold guardedFallback, try_catch.
  pose proof (getMovies_fallback_state seedMovies w req s) as H.
  apply Z.eqb_neq in Hr. rewrite Hr in H.
  destruct (getMovies_fallback seedMovies w req s) as [[e | [r | e]] s']; simpl; exact H.
Qed.

Lemma guarded_store_served (req : Query) (s : State) (r : Response) :
  readyState w = 1 ->
  fst (guardedFallback seedMovies w req s) = inr (Sent r) ->
  tmdbFailureStreak (snd (guardedFallback seedMovies w req s)) = 0
  /\ tmdbDisabledUntil (snd (guardedFallback seedMovies w req s)) = 0.
Proof.
  intros Hr. unfold guardedFallback, try_catch.
  pose proof (getMovies_fallback_state seedMovies w req s) as H.
  apply Z.eqb_eq in Hr. rewrite Hr in H.
  destruct (getMovies_fallback seedMovies w req s) as [[e | [r' | e]] s']; simpl.
  - discriminate.
  - intros _. destruct H as [? [? _]]; split; assumption.
  - discriminate.
Qed.

Lemma guarded_streak (req : Query) (s : State) :
  0 <= tmdbFailureStreak s -> 0 <= tmdbFailureStreak (snd (guardedFallback seedMovies w req s)).
Proof.
  intro Hs. unfold guardedFallback, try_catch.
  pose proof (getMovies_fallback_state seedMovies w req s) as H.
  destruct (getMovies_fallback seedMovies w req s) as [[e | [r' | e]] s']; simpl;
    try (subst s'; exact Hs).
  destruct (readyState w =? 1)%Z.
  - destruct H as [H _]; rewrite H; lia.
  - subst s'; exact Hs.
Qed.

End GuardedFallback.

(** The failure streak never goes below zero. *)
Lemma getMovies_streak_nonneg {js : ECMAScript} (env : Env)
    (seedMovies : list SeedMovie) (w : World) (req : Query) (s : State) :
  0 <= tmdbFailureStreak s ->
  0 <= tmdbFailureStreak (snd (getMovies env seedMovies w req s)).
Proof.
  intro Hs.
  destruct (upstreamEligible env w req s) eqn:He.
  - destruct (getMoviesFromTmdb env w req s) as [[e | o] s1] eqn:Hup.
    + rewrite (getMovies_upstream_failed env seedMovies w req s s1 e He Hup Hs).
      apply guarded_streak. simpl.
      destruct (getMoviesFromTmdb_throws_health env w req s s1 e Hup) as [_ H].
      lia.
    + rewrite (getMovies_upstream_ok env seedMovies w req s s1 o He Hup). simpl.
      destruct (getMoviesFromTmdb_returns_reset env w req s s1 o Hup) as [H _].
      lia.
  - rewrite (getMovies_not_eligible env seedMovies w req s He).
    now apply guarded_streak.
Qed.

Lemma serveAll_streak_nonneg {js : ECMAScript} (env : Env)
    (seedMovies : list SeedMovie) (reqs : list (World * Query)) (s : State) :
  0 <= tmdbFailureStreak s ->
  0 <= tmdbFailureStreak (serveAll env seedMovies reqs s).
Proof.
  revert s. induction reqs as [| [w req] rest IH]; intros s Hs; simpl.
  - exact Hs.
  - apply IH. now apply getMovies_streak_nonneg.
Qed.

(* ================================================================== *)
(** ** Health tracker: cooldown and reset *)
(* ================================================================== *)

(** The end state of the store/seed part: reset when the store serves the
    request, untouched otherwise. *)
Lemma guardedFallback_end {js : ECMAScript} (seedMovies : list SeedMovie)
    (w : World) (req : Query) (s : State) :
  snd (guardedFallback seedMovies w req s)
  = if storeServes w req then trackerReset s else s.
Proof.
  unfold guardedFallback, try_catch, getMovies_fallback, storeServes.
  destruct (q_search req), (q_category req), (q_type req); simpl;
    try reflexivity;
    unfold bind; simpl;
    (destruct (readyState w =? 1)%Z; simpl; [| reflexivity]);
    (destruct (Movie_find w _ _); reflexivity).
Qed.

(** The store serves a request exactly when its three text filters are
    absent or strings, the store is connected and the query is answered. *)
Lemma storeServes_iff {js : ECMAScript} (w : World) (req : Query) :
  storeServes w req = true
  <-> textual (q_search req) /\ textual (q_category req) /\ textual (q_type req)
      /\ readyState w = 1
      /\ exists movies,
           Movie_find w
             (buildFilter (text_of (q_search req)) (text_of (q_category req))
                (text_of (q_type req)) (default_to (q_featured req) ""))
             (cappedLimit req)
           = inr movies.
Proof.
  assert (Harr : forall l, ~ textual (JArr l)).
  { intros l [H | [t H]]; discriminate. }
  assert (Hund : textual JUndef) by (left; reflexivity).
  assert (Hstr : forall t, textual (JStr t)) by (intro t; right; now exists t).
  unfold storeServes.
  destruct (q_search req) as [| search | ls], (q_category req) as [| category | lc],
    (q_type req) as [| type | lt]; simpl;
    try (split;
         [ discriminate
         | intros (H1 & H2 & H3 & _);
           first [ elim (Harr _ H1) | elim (Harr _ H2) | elim (Harr _ H3) ] ]);
    rewrite andb_true_iff, Z.eqb_eq;
    (destruct (Movie_find w _ _) as [e | movies];
     [ split;
       [ intros [Hr Hm]; discriminate
       | intros (_ & _ & _ & Hr & movies' & Hm); discriminate ]
     | split;
       [ intros [Hr Hm]; repeat (split; [solve [auto] |]); now exists movies
       | intros (_ & _ & _ & Hr & movies' & Hm); split; [exact Hr | reflexivity] ] ]).
Qed.

(** Requests that arrive during the cooldown and are not served by the
    store leave the whole state as it is. *)
Lemma cooldown_lasts_while_not_served {js : ECMAScript} (env : Env)
    (seedMovies : list SeedMovie) (reqs : list (World * Query)) (s : State) :
  Forall (fun wr => now (fst wr) < tmdbDisabledUntil s
                    /\ storeServes (fst wr) (snd wr) = false) reqs ->
  serveAll env seedMovies reqs s = s.
Proof.
  induction 1 as [| [w req] rest [Hnow Hserved] _ IH]; simpl in *.
  - reflexivity.
  - assert (He : upstreamEligible env w req s = false).
    { unfold upstreamEligible.
      replace (tmdbDisabledUntil s >? now w)%Z with true
        by (symmetry; apply Z.gtb_lt; lia).
      apply andb_false_r. }
    rewrite (getMovies_not_eligible env seedMovies w req s He).
    rewrite guardedFallback_end, Hserved.
    exact IH.
Qed.

(** C1 (as amended).  When the upstream attempt of a request fails, the
    failure streak is incremented and [tmdbDisabledUntil] is set to
    [now + cooldown] (at least [now] when the cooldown is not negative)
    before the store/seed part of the handler runs.  That recorded state is
    the end state of the request exactly when the store does not serve it:
    the store is not connected, its query is rejected, or a [trim] call
    throws before the store is asked; a store-served request ends with both
    variables reset.  With requests handled one after another, each to
    completion before the next begins, the recorded state then lasts,
    without any upstream call, through every later request that arrives
    before the deadline and is not served by the store either.  In any
    state, a request that finds [now < tmdbDisabledUntil] when it arrives
    makes no upstream call. *)
Theorem upstream_failure_starts_cooldown {js : ECMAScript} (env : Env)
    (seedMovies : list SeedMovie) (w : World) (req : Query)
    (s s1 : State) (e : Error) :
  upstreamEligible env w req s = true ->
  getMoviesFromTmdb env w req s = (inl e, s1) ->
  0 <= tmdbFailureStreak s ->
  0 <= TMDB_COOLDOWN_MS env ->
  let recorded := failureRecorded env (now w) s1 in
  let ended := snd (getMovies env seedMovies w req s) in
  getMovies env seedMovies w req s = guardedFallback seedMovies w req recorded
  /\ tmdbFailureStreak recorded = tmdbFailureStreak s + 1
  /\ tmdbDisabledUntil recorded = now w + TMDB_COOLDOWN_MS env
  /\ now w <= tmdbDisabledUntil recorded
  /\ (storeServes w req = false <-> ended = recorded)
  /\ (storeServes w req = true <-> ended = trackerReset recorded)
  /\ (storeServes w req = true
      <-> textual (q_search req) /\ textual (q_category req) /\ textual (q_type req)
          /\ readyState w = 1
          /\ exists movies,
               Movie_find w
                 (buildFilter (text_of (q_search req)) (text_of (q_category req))
                    (text_of (q_type req)) (default_to (q_featured req) ""))
                 (cappedLimit req)
               = inr movies)
  /\ (storeServes w req = false ->
      forall later : list (World * Query),
        Forall (fun wr => now (fst wr) < now w + TMDB_COOLDOWN_MS env
                          /\ storeServes (fst wr) (snd wr) = false) later ->
        serveAll env seedMovies later ended = recorded)
  /\ (forall seedMovies' w' req' t,
        now w' < tmdbDisabledUntil t ->
        upstreamCalls (snd (getMovies env seedMovies' w' req' t)) = upstreamCalls t).
Proof.
  intros He Hup Hs Hcd recorded ended.
  destruct (getMoviesFromTmdb_throws_health env w req s s1 e Hup) as [_ Hstreak].
  pose proof (getMovies_upstream_failed env seedMovies w req s s1 e He Hup Hs) as Hrun.
  assert (Hend : ended = if storeServes w req then trackerReset recorded else recorded).
  { unfold ended. rewrite Hrun. apply guardedFallback_end. }
  assert (Hdiff : trackerReset recorded <> recorded).
  { intro Heq. apply (f_equal tmdbFailureStreak) in Heq. simpl in Heq. lia. }
  split; [exact Hrun |].
  split; [unfold recorded; simpl; lia |].
  split; [unfold recorded; simpl; lia |].
  split; [unfold recorded; simpl; lia |].
  split; [| split; [| split; [| split]]].
  - rewrite Hend. destruct (storeServes w req); split; intro H;
      try reflexivity; try discriminate.
    now elim Hdiff.
  - rewrite Hend. destruct (storeServes w req); split; intro H;
      try reflexivity; try discriminate.
    symmetry in H. now elim Hdiff.
  - apply storeServes_iff.
  - intros Hserved later Hlater.
    rewrite Hend, Hserved.
    apply cooldown_lasts_while_not_served. exact Hlater.
  - intros seedMovies' w' req' t Ht.
    now apply getMovies_disabled_calls.
Qed.

Lemma upstream_failure_starts_cooldown_witness :
  let w := worldRejecting 1000 upstreamDown in
  let later := [ (worldAt 2000 upstreamDown 0, noQuery);
                 (worldRejecting 3000 upstreamDown, limitQuery "0");
                 (worldAt 300999 upstreamDown 0, noQuery) ] in
  serveAll (js := DecimalRuntime) envWithKey [] later
    (snd (getMovies (js := DecimalRuntime) envWithKey [] w noQuery initialState))
  = {| tmdbDisabledUntil := 301000; tmdbFailureStreak := 1;
       upstreamCalls := ["/genre/movie/list"] |}.
Proof.
  destruct (upstream_failure_starts_cooldown (js := DecimalRuntime)
              envWithKey [] (worldRejecting 1000 upstreamDown) noQuery initialState
              (log_call "/genre/movie/list" initialState) "TMDB request failed"
              eq_refl eq_refl ltac:(simpl; lia) ltac:(simpl; lia))
    as (_ & _ & _ & _ & _ & _ & _ & H & _).
  cbv zeta.
  rewrite (H eq_refl
             [ (worldAt 2000 upstreamDown 0, noQuery);
               (worldRejecting 3000 upstreamDown, limitQuery "0");
               (worldAt 300999 upstreamDown 0, noQuery) ]).
  - reflexivity.
  - repeat constructor.
Defined.

(** C1, counterexample.  The upstream is down and the store is connected.
    The first request (time 1000) attempts the upstream and fails, yet ends
    with streak 0 and deadline 0 because the store served it; the next
    request, one millisecond later and well inside the 300000 ms cooldown,
    calls the upstream again. *)
Lemma store_reset_reopens_upstream :
  let w1 := worldAt 1000 upstreamDown 1 in
  let w2 := worldAt 1001 upstreamDown 1 in
  let s1 := snd (getMovies (js := DecimalRuntime) envWithKey [] w1 noQuery initialState) in
  let s2 := snd (getMovies (js := DecimalRuntime) envWithKey [] w2 noQuery s1) in
  upstreamEligible envWithKey w1 noQuery initialState = true
  /\ fst (getMoviesFromTmdb (js := DecimalRuntime) envWithKey w1 noQuery initialState)
     = inl "TMDB request failed"
  /\ tmdbFailureStreak s1 = 0
  /\ tmdbDisabledUntil s1 = 0
  /\ now w2 < now w1 + TMDB_COOLDOWN_MS envWithKey
  /\ upstreamCalls s1 = ["/genre/movie/list"]
  /\ upstreamCalls s2 = ["/genre/movie/list"; "/genre/movie/list"].
Proof.
  repeat split.
Qed.

(** C4.  A request whose [source] parameter is the string [db] makes no
    upstream call, whatever the health tracker holds and whether or not an
    API key is configured. *)
Theorem source_db_skips_upstream {js : ECMAScript} (env : Env)
    (seedMovies : list SeedMovie) (w : World) (req : Query) (s : State) :
  q_source req = JStr "db" ->
  upstreamCalls (snd (getMovies env seedMovies w req s)) = upstreamCalls s.
Proof.
  intro Hsrc. rewrite getMovies_not_eligible.
  - apply guardedFallback_calls.
  - unfold upstreamEligible. rewrite Hsrc. simpl.
    rewrite andb_false_r. reflexivity.
Qed.

Lemma source_db_skips_upstream_witness :
  upstreamCalls
    (snd (getMovies (js := DecimalRuntime) envWithKey []
            (worldAt 1000 upstreamEmpty 1)
            {| q_search := JUndef; q_category := JUndef; q_type := JUndef;
               q_featured := JUndef; q_limit := JUndef; q_source := JStr "db";
               q_perCategory := JUndef |}
            initialState))
  = [].
Proof.
  apply (source_db_skips_upstream (js := DecimalRuntime)). reflexivity.
Defined.

(** C2 (as amended).  After a failed upstream attempt, a response served by
    the persistent store resets the tracker (streak 0, deadline 0), whereas
    a response served from the seed catalog leaves the recorded failure in
    place (streak one higher, deadline [now + cooldown]).  A successful
    upstream fetch resets the tracker. *)
Theorem fallback_reset_by_store_only {js : ECMAScript} (env : Env)
    (seedMovies : list SeedMovie) (w : World) (req : Query)
    (s s1 : State) (e : Error) :
  upstreamEligible env w req s = true ->
  getMoviesFromTmdb env w req s = (inl e, s1) ->
  0 <= tmdbFailureStreak s ->
  let s' := snd (getMovies env seedMovies w req s) in
  (readyState w = 1 ->
   forall r, fst (getMovies env seedMovies w req s) = inr (Sent r) ->
   tmdbFailureStreak s' = 0 /\ tmdbDisabledUntil s' = 0)
  /\ (readyState w <> 1 ->
      tmdbFailureStreak s' = tmdbFailureStreak s + 1
      /\ tmdbDisabledUntil s' = now w + TMDB_COOLDOWN_MS env)
  /\ (forall req0 s0 o s0',
        getMoviesFromTmdb env w req0 s0 = (inr o, s0') ->
        tmdbFailureStreak s0' = 0 /\ tmdbDisabledUntil s0' = 0).
Proof.
  intros He Hup Hs s'.
  destruct (getMoviesFromTmdb_throws_health env w req s s1 e Hup) as [_ Hstreak].
  pose proof (getMovies_upstream_failed env seedMovies w req s s1 e He Hup Hs) as Hrun.
  unfold s'. rewrite Hrun. repeat split.
  - eapply guarded_store_served; eassumption.
  - eapply guarded_store_served; eassumption.
  - rewrite guarded_not_ready by assumption. simpl. lia.
  - rewrite guarded_not_ready by assumption. reflexivity.
  - eapply getMoviesFromTmdb_returns_reset; eassumption.
  - eapply getMoviesFromTmdb_returns_reset; eassumption.
Qed.

Lemma fallback_reset_by_store_only_witness :
  let w := worldAt 1000 upstreamDown 1 in
  let s' := snd (getMovies (js := DecimalRuntime) envWithKey [] w noQuery initialState) in
  tmdbFailureStreak s' = 0 /\ tmdbDisabledUntil s' = 0.
Proof.
  destruct (fallback_reset_by_store_only (js := DecimalRuntime)
              envWithKey [] (worldAt 1000 upstreamDown 1) noQuery initialState
              (log_call "/genre/movie/list" initialState) "TMDB request failed"
              eq_refl eq_refl ltac:(simpl; lia))
    as (H & _ & _).
  exact (H eq_refl _ eq_refl).
Defined.

(** C2, counterexample.  The upstream is down and the store is not
    connected: the request is answered with status 200 from the seed
    catalog, and the tracker still holds the failure (streak 1, deadline
    301000). *)
Lemma seed_response_keeps_failure :
  let w := worldAt 1000 upstreamDown 0 in
  let run := getMovies (js := DecimalRuntime) envWithKey
               [seedOf "Heat" "movie" "Crime" false] w noQuery initialState in
  (exists data, fst run = inr (Sent {| status := 200; body := Listing 1 data |}))
  /\ tmdbFailureStreak (snd run) = 1
  /\ tmdbDisabledUntil (snd run) = 301000.
Proof.
  repeat split. eexists. reflexivity.
Qed.

(* ================================================================== *)
(** ** Normalisation: identifiers *)
(* ================================================================== *)

Lemma byte_hex_head (b : Byte.byte) (rest : string) :
  exists c r, byte_hex b rest = String c r /\ c <> "t"%char /\ c <> "s"%char.
Proof.
  unfold byte_hex. eexists; eexists; split; [reflexivity |].
  destruct b; vm_compute; split; discriminate.
Qed.

(** The text of an ObjectId is empty or begins with a character that is
    neither [t] nor [s]. *)
Lemma ObjectId_toString_head (o : ObjectId) :
  ObjectId_toString o = ""
  \/ exists c r, ObjectId_toString o = String c r /\ c <> "t"%char /\ c <> "s"%char.
Proof.
  destruct o as [bytes]. unfold ObjectId_toString; simpl.
  destruct bytes as [| b bytes]; simpl.
  - left; reflexivity.
  - right. apply byte_hex_head.
Qed.

Lemma ObjectId_toString_length (o : ObjectId) :
  String.length (ObjectId_toString o) = (2 * List.length (oid_bytes o))%nat.
Proof.
  destruct o as [bytes]. unfold ObjectId_toString; simpl.
  induction bytes as [| b bytes IH]; simpl.
  - reflexivity.
  - rewrite IH. lia.
Qed.

(** C3 (as amended).  Upstream-derived ids begin with [tmdb-], seed-derived
    ids begin with [seed-], and a store-derived id is the bare text of the
    document's ObjectId, without any prefix; the three id spaces are
    pairwise disjoint all the same. *)
Theorem id_spaces_disjoint {js : ECMAScript} (year : Z) (item : TmdbObject)
    (category type : string) (trailerMap : Map string) (isFeatured : bool)
    (doc : MovieDoc) (seed : SeedMovie) :
  let upstream_id := cr_id (mapTmdbItem year item category type trailerMap isFeatured) in
  let store_id := cr_id (normalizeMovie doc) in
  let seed_id := cr_id (normalizeSeedMovie seed) in
  prefix "tmdb-" upstream_id = true
  /\ prefix "seed-" seed_id = true
  /\ store_id = ObjectId_toString (md__id doc)
  /\ upstream_id <> store_id
  /\ upstream_id <> seed_id
  /\ store_id <> seed_id.
Proof.
  simpl. repeat split.
  - match goal with |- prefix "" ?x = true => destruct x; reflexivity end.
  - match goal with |- prefix "" ?x = true => destruct x; reflexivity end.
  - destruct (ObjectId_toString_head (md__id doc)) as [H | (c & r & H & Ht & _)];
      rewrite H; intro E; [discriminate | inversion E; congruence].
  - discriminate.
  - destruct (ObjectId_toString_head (md__id doc)) as [H | (c & r & H & _ & Hs)];
      rewrite H; intro E; [discriminate | inversion E; congruence].
Qed.

(** C3, counterexample.  No non-empty prefix is shared by the ids the store
    mapping produces: the documents whose ObjectIds are twelve [00] bytes
    and twelve [ff] bytes are mapped to [000000000000000000000000] and
    [ffffffffffffffffffffffff]. *)
Lemma store_ids_share_no_prefix :
  cr_id (normalizeMovie (docOf (twelve Byte.x00) "movie")) = "000000000000000000000000"
  /\ cr_id (normalizeMovie (docOf (twelve Byte.xff) "movie")) = "ffffffffffffffffffffffff"
  /\ ~ (exists p : string,
          p <> ""
          /\ forall doc, ObjectId_wf (md__id doc) ->
                         prefix p (cr_id (normalizeMovie doc)) = true).
Proof.
  split; [reflexivity | split; [reflexivity |]].
  intros (p & Hp & H).
  pose proof (H (docOf (twelve Byte.x00) "movie") eq_refl) as H0.
  pose proof (H (docOf (twelve Byte.xff) "movie") eq_refl) as H1.
  destruct p as [| c p]; [congruence |].
  vm_compute in H0, H1.
  destruct c as [[] [] [] [] [] [] [] []]; discriminate.
Qed.

(* ================================================================== *)
(** ** Seed catalog fallback: filters *)
(* ================================================================== *)

Lemma truthy_str_true (s : string) : truthy_str s = true <-> s <> "".
Proof.
  unfold truthy_str. destruct (String.eqb_spec s ""); simpl; split;
    congruence.
Qed.

Lemma slice0_incl {A : Type} (xs : list A) (n : jsnum) (x : A) :
  In x (slice0 xs n) -> In x xs.
Proof.
  unfold slice0. intro H.
  rewrite <- (firstn_skipn (slice_end n (List.length xs)) xs).
  apply in_or_app. left. exact H.
Qed.

(** What the seed filters do guarantee: type, category, search text, and
    the featured flag when [featured] is [true]. *)
Lemma filteredSeed_sound (seedMovies : list SeedMovie)
    (search category type : string) (featured : jsval) (limit : jsnum)
    (movie : SeedMovie) :
  In movie (filteredSeed seedMovies search category type featured limit) ->
  In movie seedMovies
  /\ (type <> "" -> sm_type movie = type)
  /\ (category <> "" -> sm_category movie = category)
  /\ (search <> "" ->
      includes (toLowerCase (sm_title movie)) (toLowerCase search) = true)
  /\ (featured = JStr "true" -> truthy_obool (sm_featured movie) = true).
Proof.
  unfold filteredSeed. intro H. apply slice0_incl in H.
  repeat (apply filter_In in H; destruct H as [H ?]).
  repeat split; try assumption.
  - intro Ht. apply truthy_str_true in Ht.
    rewrite Ht in *. simpl in *. now apply String.eqb_eq.
  - intro Hc. apply truthy_str_true in Hc.
    rewrite Hc in *. simpl in *. now apply String.eqb_eq.
  - intro Hs. apply truthy_str_true in Hs.
    rewrite Hs in *. simpl in *. assumption.
  - intro Hf. subst featured. simpl in *. assumption.
Qed.

(** C5, the failing input.  With the store not connected, a request with
    [featured=false] is answered from the seed catalog with every record,
    the featured one included: the seed filter tests [featured === 'true']
    only, while the filter built for the store from the same query carries
    [featured: false]. *)
Theorem seed_fallback_ignores_featured_false :
  let seedMovies := [seedOf "Heat" "movie" "Crime" true;
                     seedOf "Up" "movie" "Family" false] in
  let req := {| q_search := JUndef; q_category := JUndef; q_type := JUndef;
                q_featured := JStr "false"; q_limit := JUndef;
                q_source := JUndef; q_perCategory := JUndef |} in
  let run := getMovies (js := DecimalRuntime) envNoKey seedMovies
               (worldAt 1000 upstreamDown 0) req initialState in
  fst run = inr (Sent {| status := 200;
                         body := Listing 2 (map normalizeSeedMovie seedMovies) |})
  /\ f_featured (buildFilter "" "" "" (JStr "false")) = Some false
  /\ ~ meets_filters "" "" "" (JStr "false") (seedOf "Heat" "movie" "Crime" true).
Proof.
  repeat split.
  intros (_ & _ & _ & _ & H). specialize (H eq_refl). discriminate.
Qed.

(* ================================================================== *)
(** ** Normalisation: the type field *)
(* ================================================================== *)

Lemma mapi_from_In {A B : Type} (f : nat -> A -> B) (xs : list A) (i : nat) (y : B) :
  In y (mapi_from i f xs) -> exists j x, In x xs /\ y = f j x.
Proof.
  revert i. induction xs as [| x xs IH]; intros i H; simpl in H.
  - contradiction.
  - destruct H as [H | H].
    + exists i, x. split; [left; reflexivity | now symmetry].
    + destruct (IH _ H) as (j & x' & Hin & Hy).
      exists j, x'. split; [right; assumption | assumption].
Qed.

(** Every record of the upstream listing is some returned item of some
    category row, mapped with that row's title and type. *)
Lemma tmdbData_In {js : ECMAScript} (w : World) (results : list CategoryResult)
    (trailerMap : Map string) (record : ContentRecord) :
  In record (tmdbData w results trailerMap) ->
  exists r item isFeatured,
    In r results /\ In item (r_results r)
    /\ record = mapTmdbItem (fullYear w) item (c_title (r_category r))
                  (c_type (r_category r)) trailerMap isFeatured.
Proof.
  unfold tmdbData, mapi. intro H.
  apply in_concat in H. destruct H as (l & Hl & Hrec).
  apply mapi_from_In in Hl. destruct Hl as (j & r & Hr & ->).
  apply mapi_from_In in Hrec. destruct Hrec as (i & item & Hitem & ->).
  exists r, item. eexists. repeat split; eassumption.
Qed.

(** What a fulfilled [Promise.all] over [map f xs] returns, element by
    element. *)
Lemma settle_all_map {A B : Type} (f : A -> M B) (Q : A -> B -> Prop) :
  (forall a s b s', f a s = (inr b, s') -> Q a b) ->
  forall xs s rs s',
    settle_all (map f xs) s = (inr rs, s') ->
    forall bs, all_fulfilled rs = inr bs -> Forall2 Q xs bs.
Proof.
  intros Hf. induction xs as [| x xs IH]; intros s rs s' Hrun bs Hall; simpl in Hrun.
  - inversion Hrun; subst. simpl in Hall. inversion Hall. constructor.
  - unfold bind, settle in Hrun.
    destruct (f x s) as [r s1] eqn:Hx.
    destruct (settle_all (map f xs) s1) as [[e | rs1] s2] eqn:Hrest; [discriminate |].
    unfold ret in Hrun. inversion Hrun; subst. simpl in Hall.
    destruct r as [e | b]; [discriminate |].
    destruct (all_fulfilled rs1) as [e | bs1] eqn:Hall1; [discriminate |].
    inversion Hall; subst. constructor.
    + eapply Hf; eassumption.
    + eapply IH; eassumption.
Qed.

Lemma Promise_all_map {A B : Type} (f : A -> M B) (Q : A -> B -> Prop) :
  (forall a s b s', f a s = (inr b, s') -> Q a b) ->
  forall xs s bs s',
    Promise_all (map f xs) s = (inr bs, s') -> Forall2 Q xs bs.
Proof.
  intros Hf xs s bs s'. unfold Promise_all, bind.
  destruct (settle_all (map f xs) s) as [[e | rs] s1] eqn:Hrun; [discriminate |].
  destruct (all_fulfilled rs) as [e | bs1] eqn:Hall; [discriminate |].
  unfold ret. intro H; inversion H; subst.
  eapply settle_all_map; eassumption.
Qed.

(* ================================================================== *)
(** ** Limits: clamping and slicing *)
(* ================================================================== *)

Lemma inject_Z_compare (a b : Z) : (inject_Z a ?= inject_Z b)%Q = (a ?= b)%Z.
Proof. unfold Qcompare; simpl. now rewrite !Z.mul_1_r. Qed.

Lemma Qmin_inject_Z_le (lo hi : Z) :
  lo <= hi -> Qmin (inject_Z lo) (inject_Z hi) = inject_Z lo.
Proof.
  intro H. unfold Qmin, GenericMinMax.gmin. rewrite inject_Z_compare.
  destruct (lo ?= hi)%Z eqn:E; try reflexivity.
  apply Z.compare_gt_iff in E. lia.
Qed.

(** The [Math.min(Math.max(n, lo), hi)] idiom is clamping. *)
Lemma min_max_is_clamp (n : jsnum) (lo hi : Z) :
  lo <= hi ->
  Math_min (Math_max n (num_of_Z lo)) (num_of_Z hi)
  = clamp n (num_of_Z lo) (num_of_Z hi).
Proof.
  intro Hlh. unfold clamp, num_of_Z. destruct n as [| | q |]; simpl.
  - reflexivity.
  - now rewrite Qmin_inject_Z_le.
  - unfold Qmax, GenericMinMax.gmax.
    destruct (q ?= inject_Z lo)%Q eqn:E1.
    + unfold Qmin, GenericMinMax.gmin.
      rewrite <- (Qcompare_antisym q (inject_Z hi)).
      destruct (q ?= inject_Z hi)%Q; reflexivity.
    + now rewrite Qmin_inject_Z_le.
    + unfold Qmin, GenericMinMax.gmin.
      rewrite <- (Qcompare_antisym q (inject_Z hi)).
      destruct (q ?= inject_Z hi)%Q; reflexivity.
  - reflexivity.
Qed.

Lemma or_num_is_number_or {js : ECMAScript} (v : jsval) (d : Z) :
  or_num (Number v) (num_of_Z d) = number_or v d.
Proof.
  unfold or_num, number_or. destruct (Number v) as [| | q |]; simpl; try reflexivity.
  destruct (Qeq_bool q 0); reflexivity.
Qed.

Lemma number_or_falsy {js : ECMAScript} (v : jsval) (d : Z) :
  truthy_num (Number v) = false -> number_or v d = num_of_Z d.
Proof.
  unfold number_or, truthy_num. destruct (Number v) as [| | q |]; try discriminate.
  - reflexivity.
  - destruct (Qeq_bool q 0); [reflexivity | discriminate].
Qed.

Lemma number_or_not_NaN {js : ECMAScript} (v : jsval) (d : Z) :
  number_or v d <> NaN.
Proof.
  unfold number_or, num_of_Z. destruct (Number v) as [| | q |]; try discriminate.
  destruct (Qeq_bool q 0); discriminate.
Qed.

(** A clamped number is finite and lies between the bounds. *)
Lemma clamp_in_range (n : jsnum) (lo hi : Z) :
  lo <= hi -> n <> NaN ->
  exists q, clamp n (num_of_Z lo) (num_of_Z hi) = Fin q
            /\ (inject_Z lo <= q)%Q /\ (q <= inject_Z hi)%Q.
Proof.
  intros Hlh Hn. unfold clamp, num_of_Z.
  assert (Hq : (inject_Z lo <= inject_Z hi)%Q) by (rewrite <- Zle_Qle; exact Hlh).
  destruct n as [| | q |]; simpl.
  - congruence.
  - eexists; split; [reflexivity | split; [apply Qle_refl | exact Hq]].
  - destruct (q ?= inject_Z lo)%Q eqn:E1.
    + destruct (inject_Z hi ?= q)%Q eqn:E2.
      * exists q; split; [reflexivity |]. split.
        -- apply Qeq_alt in E1. rewrite E1. apply Qle_refl.
        -- apply Qeq_alt in E2. rewrite E2. apply Qle_refl.
      * exists (inject_Z hi); split; [reflexivity |]. split; [exact Hq | apply Qle_refl].
      * exists q; split; [reflexivity |]. split.
        -- apply Qeq_alt in E1. rewrite E1. apply Qle_refl.
        -- apply Qgt_alt in E2. now apply Qlt_le_weak.
    + exists (inject_Z lo); split; [reflexivity |]. split; [apply Qle_refl | exact Hq].
    + apply Qgt_alt in E1. destruct (inject_Z hi ?= q)%Q eqn:E2.
      * exists q; split; [reflexivity |]. split; [now apply Qlt_le_weak |].
        apply Qeq_alt in E2. rewrite E2. apply Qle_refl.
      * exists (inject_Z hi); split; [reflexivity |]. split; [exact Hq | apply Qle_refl].
      * exists q; split; [reflexivity |]. split; [now apply Qlt_le_weak |].
        apply Qgt_alt in E2. now apply Qlt_le_weak.
  - eexists; split; [reflexivity | split; [exact Hq | apply Qle_refl]].
Qed.

(** [xs.slice(0, q)] keeps at most [q] elements. *)
Lemma slice0_length_le {A : Type} (xs : list A) (q : Q) :
  (0 <= q)%Q ->
  (inject_Z (Z.of_nat (List.length (slice0 xs (Fin q)))) <= q)%Q.
Proof.
  intro Hq. unfold slice0, slice_end.
  assert (Hb : Qle_bool 0 q = true) by (now apply Qle_bool_iff).
  rewrite Hb.
  assert (Hf : 0 <= Qfloor q).
  { change 0 with (Qfloor 0). now apply Qfloor_resp_le. }
  replace (Qfloor q <? 0)%Z with false by (symmetry; apply Z.ltb_ge; exact Hf).
  rewrite length_firstn.
  apply Qle_trans with (inject_Z (Qfloor q)); [| apply Qfloor_le].
  rewrite <- Zle_Qle. lia.
Qed.

(* ================================================================== *)
(** ** The upstream path: rows and their items *)
(* ================================================================== *)

Section UpstreamRows.
Context {js : ECMAScript}.
Variable env : Env.
Variable w : World.
Variable req : Query.

Lemma fetchCategory_returns (category : Category) (s s' : State) (row : CategoryResult) :
  fetchCategory env w req category s = (inr row, s') -> row_of req category row.
Proof.
  unfold fetchCategory, bind.
  destruct (tmdbFetch env w (c_path category) (c_params category) s) as [[e | payload] s1];
    [discriminate |].
  unfold ret. intro H; inversion H; subst. split; simpl.
  - reflexivity.
  - eexists; reflexivity.
Qed.

Lemma categoryResults_returns (s s' : State) (rows : list CategoryResult) :
  categoryResults env w req s = (inr rows, s') ->
  exists genreMapMovie genreMapTv,
    Forall2 (row_of req) (categories ++ genreCategories genreMapMovie genreMapTv)%list rows.
Proof.
  unfold categoryResults, bind.
  destruct (fetchGenreMap env w "movie" s) as [[e | genreMapMovie] s1]; [discriminate |].
  destruct (fetchGenreMap env w "series" s1) as [[e | genreMapTv] s2]; [discriminate |].
  intro H. exists genreMapMovie, genreMapTv.
  eapply Promise_all_map; [| exact H].
  intros; eapply fetchCategory_returns; eassumption.
Qed.

End UpstreamRows.

Lemma genreRows_types (names : list string) (genreMap : Map Z)
    (suffix path type : string) :
  Forall (fun c => c_type c = type) (genreRows names genreMap suffix path type).
Proof.
  unfold genreRows. apply Forall_forall. intros c Hc.
  apply in_flat_map in Hc. destruct Hc as (name & _ & Hc).
  destruct (Map_get genreMap (toLowerCase name)) as [id |]; [| contradiction].
  destruct (id =? 0)%Z; [contradiction |].
  destruct Hc as [<- | []]. reflexivity.
Qed.

(** Every row the upstream path asks for is typed [movie] or [series]. *)
Lemma category_rows_types (genreMapMovie genreMapTv : Map Z) :
  Forall (fun c => is_movie_or_series (c_type c))
         (categories ++ genreCategories genreMapMovie genreMapTv)%list.
Proof.
  apply Forall_app. split.
  - unfold categories, is_movie_or_series.
    repeat (constructor; [simpl; auto |]). constructor.
  - unfold genreCategories. apply Forall_app. split.
    + eapply Forall_impl; [| apply genreRows_types].
      intros c ->. left; reflexivity.
    + eapply Forall_impl; [| apply genreRows_types].
      intros c ->. right; reflexivity.
Qed.

Lemma Forall2_right_In {A B : Type} (Q : A -> B -> Prop) (xs : list A) (ys : list B) (y : B) :
  Forall2 Q xs ys -> In y ys -> exists x, In x xs /\ Q x y.
Proof.
  induction 1 as [| x y' xs ys Hxy _ IH]; intro Hin.
  - contradiction.
  - destruct Hin as [-> | Hin].
    + exists x; split; [left; reflexivity | exact Hxy].
    + destruct (IH Hin) as (x' & Hx' & HQ).
      exists x'; split; [right; exact Hx' | exact HQ].
Qed.

(** The listing the upstream path sends is built from the fetched rows. *)
Lemma getMoviesFromTmdb_listing {js : ECMAScript} (env : Env) (w : World)
    (req : Query) (s s' : State) (o : Outcome) :
  getMoviesFromTmdb env w req s = (inr o, s') ->
  exists rows s1 trailerMap,
    categoryResults env w req s = (inr rows, s1)
    /\ o = Sent {| status := 200;
                   body := Listing (List.length (tmdbData w rows trailerMap))
                                   (tmdbData w rows trailerMap) |}.
Proof.
  unfold getMoviesFromTmdb, bind at 1.
  destruct (categoryResults env w req s) as [[e1 | rows] s1]; [discriminate |].
  unfold bind at 1, Promise_allSettled.
  destruct (settle_all _ s1) as [[e2 | rs] s2]; [discriminate |].
  unfold bind, modify, ret. simpl.
  intro H; inversion H; subst.
  eexists; eexists; eexists. split; reflexivity.
Qed.

(** C6 (as amended).  Each normalisation function copies the type it is
    given: the document's, the seed record's, or the [type] argument; none
    replaces an unrecognised value.  On the upstream path the argument is
    the type of a category row, so every record of an upstream listing has
    type [movie] or [series]. *)
Theorem type_is_copied {js : ECMAScript} (env : Env) (w : World) :
  (forall doc, cr_type (normalizeMovie doc) = md_type doc)
  /\ (forall seed, cr_type (normalizeSeedMovie seed) = sm_type seed)
  /\ (forall year item category type trailerMap isFeatured,
        cr_type (mapTmdbItem year item category type trailerMap isFeatured) = type)
  /\ (forall req s s' count data,
        getMoviesFromTmdb env w req s
        = (inr (Sent {| status := 200; body := Listing count data |}), s') ->
        Forall (fun record => is_movie_or_series (cr_type record)) data).
Proof.
  repeat split.
  intros req s s' count data Hrun.
  destruct (getMoviesFromTmdb_listing env w req s s' _ Hrun)
    as (rows & s1 & trailerMap & Hrows & Ho).
  inversion Ho; subst. clear Ho.
  destruct (categoryResults_returns env w req s s1 rows Hrows)
    as (genreMapMovie & genreMapTv & Hall).
  apply Forall_forall. intros record Hrec.
  apply tmdbData_In in Hrec.
  destruct Hrec as (row & item & isFeatured & Hrow & _ & ->). simpl.
  destruct (Forall2_right_In _ _ _ _ Hall Hrow) as (category & Hcat & [<- _]).
  pose proof (category_rows_types genreMapMovie genreMapTv) as Htypes.
  rewrite Forall_forall in Htypes. now apply Htypes.
Qed.

Lemma type_is_copied_witness :
  exists record s',
    getMoviesFromTmdb (js := DecimalRuntime) envWithKey
      (worldAt 1000 upstreamOne 0) noQuery initialState
    = (inr (Sent {| status := 200; body := Listing 1 [record] |}), s')
    /\ cr_id record = "tmdb-movie-550"
    /\ cr_trailerUrl record = "https://www.youtube.com/embed/abc"
    /\ Forall (fun r => is_movie_or_series (cr_type r)) [record].
Proof.
  eexists; eexists.
  split; [vm_compute; reflexivity |].
  split; [reflexivity |].
  split; [reflexivity |].
  destruct (type_is_copied (js := DecimalRuntime) envWithKey
              (worldAt 1000 upstreamOne 0)) as (_ & _ & _ & H).
  eapply (H noQuery initialState). vm_compute. reflexivity.
Defined.

(** C6, counterexample.  A seed record and a store document whose type is
    [documentary] are normalised to records of type [documentary]. *)
Lemma unrecognised_type_is_kept :
  cr_type (normalizeSeedMovie (seedOf "Planet" "documentary" "Nature" false))
  = "documentary"
  /\ cr_type (normalizeMovie (docOf (twelve Byte.x00) "documentary")) = "documentary"
  /\ ~ is_movie_or_series
         (cr_type (normalizeSeedMovie (seedOf "Planet" "documentary" "Nature" false))).
Proof.
  repeat split. intros [H | H]; discriminate.
Qed.

(** C7 (as amended).  On the upstream path the per-category limit is
    [clamp(n, 6, 40)] where [n] is [Number(perCategory)] when that is a
    nonzero number and 16 otherwise (absent, not numeric, or zero, that is
    whenever [Number(perCategory)] is falsy): 3 gives 6, 500 gives 40, and
    every fetched row holds at most that many items. *)
Theorem perCategory_clamped {js : ECMAScript} (env : Env) (w : World) (req : Query) :
  perCategory req
  = clamp (number_or (q_perCategory req) 16) (num_of_Z 6) (num_of_Z 40)
  /\ (truthy_num (Number (q_perCategory req)) = false ->
      perCategory req = num_of_Z 16)
  /\ (Number (q_perCategory req) = num_of_Z 3 -> perCategory req = num_of_Z 6)
  /\ (Number (q_perCategory req) = num_of_Z 500 -> perCategory req = num_of_Z 40)
  /\ (forall s s' rows,
        categoryResults env w req s = (inr rows, s') ->
        Forall (fun row =>
                  num_le (num_of_Z (Z.of_nat (List.length (r_results row))))
                         (perCategory req))
               rows).
Proof.
  assert (Hclamp : perCategory req
                   = clamp (number_or (q_perCategory req) 16) (num_of_Z 6) (num_of_Z 40)).
  { unfold perCategory. rewrite or_num_is_number_or.
    apply min_max_is_clamp. lia. }
  split; [exact Hclamp |].
  split; [| split; [| split]].
  - intro H. rewrite Hclamp, (number_or_falsy _ _ H). reflexivity.
  - intro H. rewrite Hclamp. unfold number_or. rewrite H. reflexivity.
  - intro H. rewrite Hclamp. unfold number_or. rewrite H. reflexivity.
  - intros s s' rows Hrun.
    destruct (categoryResults_returns env w req s s' rows Hrun)
      as (genreMapMovie & genreMapTv & Hall).
    apply Forall_forall. intros row Hrow.
    destruct (Forall2_right_In _ _ _ _ Hall Hrow) as (category & _ & [_ [results ->]]).
    destruct (clamp_in_range (number_or (q_perCategory req) 16) 6 40
                ltac:(lia) (number_or_not_NaN _ _)) as (q & Hq & Hlo & _).
    rewrite Hclamp, Hq. simpl.
    apply slice0_length_le.
    apply Qle_trans with (inject_Z 6); [discriminate | exact Hlo].
Qed.

Lemma perCategory_clamped_witness :
  perCategory (js := DecimalRuntime)
    {| q_search := JUndef; q_category := JUndef; q_type := JUndef;
       q_featured := JUndef; q_limit := JUndef; q_source := JUndef;
       q_perCategory := JStr "500" |}
  = num_of_Z 40.
Proof.
  destruct (perCategory_clamped (js := DecimalRuntime) envWithKey
              (worldAt 1000 upstreamEmpty 0)
              {| q_search := JUndef; q_category := JUndef; q_type := JUndef;
                 q_featured := JUndef; q_limit := JUndef; q_source := JUndef;
                 q_perCategory := JStr "500" |}) as (_ & _ & _ & H & _).
  exact (H eq_refl).
Defined.

(** C7, counterexample.  [perCategory=0]: the numeric value is 0, whose
    clamp to [[6, 40]] is 6, but the limit the code computes is 16. *)
Lemma perCategory_zero_gives_16 :
  let req := {| q_search := JUndef; q_category := JUndef; q_type := JUndef;
                q_featured := JUndef; q_limit := JUndef; q_source := JUndef;
                q_perCategory := JStr "0" |} in
  Number (ECMAScript := DecimalRuntime) (q_perCategory req) = num_of_Z 0
  /\ clamp (num_of_Z 0) (num_of_Z 6) (num_of_Z 40) = num_of_Z 6
  /\ perCategory (js := DecimalRuntime) req = num_of_Z 16
  /\ perCategory (js := DecimalRuntime) req
     <> clamp (Number (ECMAScript := DecimalRuntime) (q_perCategory req))
              (num_of_Z 6) (num_of_Z 40).
Proof.
  repeat split. discriminate.
Qed.

(* ================================================================== *)
(** ** Normalisation: the year of an upstream item *)
(* ================================================================== *)

(** C9 (as amended).  The year of an upstream item is [Number] of the first
    four characters of its release date ([release_date], else
    [first_air_date]) whenever that date is not empty, also when the result
    is NaN; it is the current year only when both dates are absent or
    empty. *)
Theorem tmdb_year {js : ECMAScript} (year : Z) (item : TmdbObject)
    (category type : string) (trailerMap : Map string) (isFeatured : bool) :
  let record := mapTmdbItem year item category type trailerMap isFeatured in
  (forall d, o_release_date item = Some d -> d <> "" ->
             cr_year record = Number (JStr (substring 0 4 d)))
  /\ (forall d, truthy_ostr (o_release_date item) = false ->
                o_first_air_date item = Some d -> d <> "" ->
                cr_year record = Number (JStr (substring 0 4 d)))
  /\ (truthy_ostr (o_release_date item) = false ->
      truthy_ostr (o_first_air_date item) = false ->
      cr_year record = num_of_Z year).
Proof.
  simpl. unfold slice4. repeat split.
  - intros d Hd Hne. apply truthy_str_true in Hne.
    rewrite Hd. simpl. rewrite Hne. rewrite Hne. reflexivity.
  - intros d Hrel Hd Hne. apply truthy_str_true in Hne.
    assert (Hdate : or_str (o_release_date item) (or_str (o_first_air_date item) "") = d).
    { rewrite Hd. simpl. rewrite Hne.
      destruct (o_release_date item) as [r |]; simpl in *; [| reflexivity].
      rewrite Hrel. reflexivity. }
    rewrite Hdate, Hne. reflexivity.
  - intros Hrel Hair.
    assert (Hdate : or_str (o_release_date item) (or_str (o_first_air_date item) "") = "").
    { destruct (o_release_date item) as [r |], (o_first_air_date item) as [a |];
        simpl in *; rewrite ?Hrel, ?Hair; reflexivity. }
    rewrite Hdate. reflexivity.
Qed.

Lemma tmdb_year_witness :
  cr_year (mapTmdbItem (js := DecimalRuntime) 2026
             (itemOf 550 (Some "1999-10-15")) "Trending Movies" "movie" [] true)
  = num_of_Z 1999.
Proof.
  destruct (tmdb_year (js := DecimalRuntime) 2026
              (itemOf 550 (Some "1999-10-15")) "Trending Movies" "movie" [] true)
    as (H & _ & _).
  rewrite (H "1999-10-15" eq_refl ltac:(discriminate)). reflexivity.
Defined.

(** C9, counterexample.  An item whose release date is the text [TBA],
    mapped in 2026: the prefix does not parse and the year is NaN, not
    2026. *)
Lemma unparseable_date_gives_NaN :
  let record := mapTmdbItem (js := DecimalRuntime) 2026
                  (itemOf 1 (Some "TBA")) "Upcoming Movies" "movie" [] false in
  Number (ECMAScript := DecimalRuntime) (JStr (substring 0 4 "TBA")) = NaN
  /\ cr_year record = NaN
  /\ cr_year record <> num_of_Z 2026.
Proof.
  repeat split. discriminate.
Qed.

(* ================================================================== *)
(** ** The trailer endpoint *)
(* ================================================================== *)

Lemma normalizedType_valid (type : option string) :
  validTrailerType type ->
  exists t, type = Some t
            /\ (if (t =? "series")%string then "series"
                else if (t =? "movie")%string then "movie" else "") = t
            /\ truthy_str t = true.
Proof.
  intros [-> | ->]; eexists; repeat split; reflexivity.
Qed.

Lemma normalizedType_invalid (type : option string) :
  ~ validTrailerType type ->
  truthy_str
    match type with
    | Some t => if (t =? "series")%string then "series"
                else if (t =? "movie")%string then "movie" else ""
    | None => ""
    end = false.
Proof.
  intro H. destruct type as [t |]; [| reflexivity].
  destruct (String.eqb_spec t "series") as [-> | _].
  - exfalso. apply H. right; reflexivity.
  - destruct (String.eqb_spec t "movie") as [-> | _]; [| reflexivity].
    exfalso. apply H. left; reflexivity.
Qed.

(** No preferred video is found exactly when the results hold no YouTube
    video of any of the kinds. *)
Lemma first_preferred_None (preferred : list string) (results : list TmdbObject) :
  first_preferred preferred results = None
  <-> forall kind item, In kind preferred -> In item results ->
                        is_video_of_kind kind item = false.
Proof.
  induction preferred as [| k rest IH]; simpl.
  - split; [intros _ kind item [] | reflexivity].
  - destruct (find (is_video_of_kind k) results) as [video |] eqn:Hfind.
    + split; [discriminate |]. intro H.
      apply find_some in Hfind. destruct Hfind as [Hin Hv].
      rewrite (H k video (or_introl eq_refl) Hin) in Hv. discriminate.
    + rewrite IH. split.
      * intros H kind item [<- | Hk] Hi.
        -- exact (find_none _ _ Hfind item Hi).
        -- now apply H.
      * intros H kind item Hk Hi. apply H; [right |]; assumption.
Qed.

(** With an API key, [fetchTrailerUrl] is one upstream call and a choice
    among the videos it lists. *)
Lemma fetchTrailerUrl_run (env : Env) (w : World) (id type : string) (s : State) :
  truthy_ostr (TMDB_API_KEY env) = true ->
  fetchTrailerUrl env w id type s
  = let path := if (type =? "series")%string
                then "/tv/" ++ id ++ "/videos" else "/movie/" ++ id ++ "/videos" in
    (match tmdbFetch_attempts w path [] 0 2 "undefined" with
     | inr payload =>
         inr match first_preferred ["Trailer"; "Teaser"; "Clip"]
                     match p_results payload with Some r => r | None => [] end with
             | Some v => "https://www.youtube.com/embed/" ++ interp_str (o_key v)
             | None => ""
             end
     | inl e => inl e
     end,
     log_call path s).
Proof.
  intro Hkey. unfold fetchTrailerUrl, tmdbFetch, bind, modify. rewrite Hkey. cbv zeta.
  destruct (tmdbFetch_attempts w _ [] 0 2 "undefined"); reflexivity.
Qed.

Lemma getTmdbTrailer_lookup (env : Env) (w : World) (t : string)
    (id : option string) (s : State) :
  validTrailerType (Some t) -> truthy_ostr id = true ->
  truthy_ostr (TMDB_API_KEY env) = true ->
  getTmdbTrailer env w (Some t) id s
  = match fetchTrailerUrl env w (interp_str id) t s with
    | (inr url, s1) =>
        (inr (if truthy_str url
              then Sent {| status := 200; body := TrailerData url |}
              else Sent {| status := 404;
                           body := Message "Trailer not available for this title." |}),
         s1)
    | (inl e, s1) => (inr (Next e), s1)
    end.
Proof.
  intros Hty Hid Hkey.
  destruct (normalizedType_valid (Some t) Hty) as (t' & Heq & Hnorm & Ht).
  inversion Heq; subst t'.
  unfold getTmdbTrailer, try_catch.
  rewrite Hnorm, Ht, Hid, Hkey. cbn [negb orb]. unfold bind.
  destruct (fetchTrailerUrl env w (interp_str id) t s) as [[e | url] s1].
  - reflexivity.
  - destruct (truthy_str url); reflexivity.
Qed.

(* ================================================================== *)
(** ** The upstream client: retry, trailer choice, genre map *)
(* ================================================================== *)

(** X1.  [tmdbFetch] is counted as one upstream call and tries the
    upstream at most twice: with an API key the result is the first
    attempt's payload, or else whatever the second attempt gives (its payload
    or its error, the first error being dropped); without a key it throws
    the configuration error and the upstream is not asked at all. *)
Theorem tmdbFetch_retries_once (env : Env) (w : World) (path : string)
    (params : list (string * string)) (s : State) :
  (truthy_ostr (TMDB_API_KEY env) = true ->
   fst (tmdbFetch env w path params s)
   = match upstream w path params 0 with
     | inr payload => inr payload
     | inl _ => upstream w path params 1
     end)
  /\ (truthy_ostr (TMDB_API_KEY env) = false ->
      fst (tmdbFetch env w path params s)
      = inl "TMDB_API_KEY is missing in server/.env")
  /\ snd (tmdbFetch env w path params s) = log_call path s.
Proof.
  unfold tmdbFetch, bind, modify. simpl.
  destruct (truthy_ostr (TMDB_API_KEY env)); (split; [| split]);
    try (intro; discriminate); try reflexivity.
  - intros _.
    destruct (upstream w path params 0) as [e0 | p0]; [| reflexivity].
    destruct (upstream w path params 1) as [e1 | p1]; reflexivity.
  - destruct (upstream w path params 0) as [e0 | p0]; [| reflexivity].
    destruct (upstream w path params 1) as [e1 | p1]; reflexivity.
Qed.

Lemma tmdbFetch_retries_once_witness :
  fst (tmdbFetch envWithKey
         (worldAt 0 (fun _ _ attempt =>
                       match attempt with
                       | O => inl "timeout"
                       | _ => inr {| p_genres := None; p_results := None |}
                       end) 0)
         "/movie/popular" [] initialState)
  = inr {| p_genres := None; p_results := None |}.
Proof.
  destruct (tmdbFetch_retries_once envWithKey
              (worldAt 0 (fun _ _ attempt =>
                            match attempt with
                            | O => inl "timeout"
                            | _ => inr {| p_genres := None; p_results := None |}
                            end) 0)
              "/movie/popular" [] initialState) as (H & _).
  exact (H eq_refl).
Defined.

Lemma first_preferred_Some (preferred : list string) (results : list TmdbObject)
    (video : TmdbObject) :
  first_preferred preferred results = Some video ->
  exists before kind after,
    preferred = (before ++ kind :: after)%list
    /\ (forall k, In k before -> find (is_video_of_kind k) results = None)
    /\ find (is_video_of_kind kind) results = Some video.
Proof.
  induction preferred as [| k rest IH]; simpl; [discriminate |].
  destruct (find (is_video_of_kind k) results) as [v |] eqn:Hfind.
  - intro H; inversion H; subst.
    exists [], k, rest. repeat split; [intros k' [] | exact Hfind].
  - intro H. destruct (IH H) as (before & kind & after & -> & Hnone & Hsome).
    exists (k :: before), kind, after. repeat split; [| exact Hsome].
    intros k' [<- | Hin]; [exact Hfind | now apply Hnone].
Qed.

Lemma is_video_of_kind_true (kind : string) (item : TmdbObject) :
  is_video_of_kind kind item = true ->
  o_site item = Some "YouTube" /\ o_type item = Some kind.
Proof.
  unfold is_video_of_kind.
  destruct (o_site item) as [site |], (o_type item) as [type |]; try discriminate.
  intro H. apply andb_true_iff in H. destruct H as [Hs Ht].
  apply String.eqb_eq in Hs, Ht. now subst.
Qed.

(** X2.  The trailer [fetchTrailerUrl] answers with, once the upstream has
    listed the videos: either the empty string, and then the list holds no
    YouTube video of kind Trailer, Teaser or Clip; or the embed URL of a
    listed YouTube video that is the first of its kind in the list, no
    video of a kind preferred to it (Trailer before Teaser before Clip)
    being listed on YouTube at all. *)
Theorem trailer_choice (env : Env) (w : World) (id type : string) (s : State)
    (payload : Payload) (url : string) :
  truthy_ostr (TMDB_API_KEY env) = true ->
  tmdbFetch_attempts w
    (if (type =? "series")%string
     then "/tv/" ++ id ++ "/videos" else "/movie/" ++ id ++ "/videos")
    [] 0 2 "undefined" = inr payload ->
  fst (fetchTrailerUrl env w id type s) = inr url ->
  let results := match p_results payload with Some r => r | None => [] end in
  (url = ""
   /\ forall kind item, In kind ["Trailer"; "Teaser"; "Clip"] -> In item results ->
                        is_video_of_kind kind item = false)
  \/ (exists video before kind after,
        url = "https://www.youtube.com/embed/" ++ interp_str (o_key video)
        /\ ["Trailer"; "Teaser"; "Clip"] = (before ++ kind :: after)%list
        /\ In video results
        /\ o_site video = Some "YouTube"
        /\ o_type video = Some kind
        /\ find (is_video_of_kind kind) results = Some video
        /\ forall k item, In k before -> In item results ->
                          is_video_of_kind k item = false).
Proof.
  intros Hkey Hfetch Hrun results.
  rewrite (fetchTrailerUrl_run env w id type s Hkey) in Hrun.
  cbv zeta in Hrun. cbn [fst] in Hrun. rewrite Hfetch in Hrun.
  fold results in Hrun.
  destruct (first_preferred ["Trailer"; "Teaser"; "Clip"] results) as [video |] eqn:Hp.
  - right. inversion Hrun; subst url.
    destruct (first_preferred_Some _ _ _ Hp) as (before & kind & after & Hsplit & Hnone & Hsome).
    pose proof (find_some _ _ Hsome) as [Hin Hv].
    destruct (is_video_of_kind_true _ _ Hv) as [Hsite Htype].
    exists video, before, kind, after. repeat split; try assumption.
    intros k item Hk Hitem. exact (find_none _ _ (Hnone k Hk) item Hitem).
  - left. inversion Hrun. split; [reflexivity |].
    now apply first_preferred_None.
Qed.

Lemma trailer_choice_witness :
  exists url,
    fst (fetchTrailerUrl envWithKey
           (worldAt 0 (fun _ _ _ =>
                         inr {| p_genres := None;
                                p_results := Some [ videoOf "YouTube" "Clip" "c1";
                                                    videoOf "Vimeo" "Trailer" "v1";
                                                    videoOf "YouTube" "Teaser" "t1";
                                                    videoOf "YouTube" "Teaser" "t2" ] |}) 0)
           "550" "movie" initialState) = inr url
    /\ url = "https://www.youtube.com/embed/t1".
Proof.
  eexists. split; [reflexivity |].
  destruct (trailer_choice envWithKey
              (worldAt 0 (fun _ _ _ =>
                            inr {| p_genres := None;
                                   p_results := Some [ videoOf "YouTube" "Clip" "c1";
                                                       videoOf "Vimeo" "Trailer" "v1";
                                                       videoOf "YouTube" "Teaser" "t1";
                                                       videoOf "YouTube" "Teaser" "t2" ] |}) 0)
              "550" "movie" initialState _ _ eq_refl eq_refl eq_refl)
    as [[H _] | (video & before & kind & after & H & _)].
  - discriminate H.
  - reflexivity.
Defined.

Lemma Map_get_set_same {V : Type} (m : Map V) (k : string) (v : V) :
  Map_get (Map_set m k v) k = Some v.
Proof.
  induction m as [| [k' v'] m IH]; simpl.
  - now rewrite String.eqb_refl.
  - destruct (String.eqb_spec k' k) as [-> | Hne]; simpl.
    + now rewrite String.eqb_refl.
    + destruct (String.eqb_spec k' k); [contradiction | exact IH].
Qed.

Lemma Map_get_set_other {V : Type} (m : Map V) (k k' : string) (v : V) :
  k' <> k -> Map_get (Map_set m k v) k' = Map_get m k'.
Proof.
  intro Hne. induction m as [| [k0 v0] m IH]; simpl.
  - destruct (String.eqb_spec k k'); [congruence | reflexivity].
  - destruct (String.eqb_spec k0 k) as [-> | H0]; simpl.
    + destruct (String.eqb_spec k k'); [congruence | reflexivity].
    + destruct (String.eqb_spec k0 k'); [reflexivity | exact IH].
Qed.

Lemma genreMapFrom_sound (all genres : list Genre) (acc : Map Z) :
  incl genres all ->
  (forall key id, Map_get acc key = Some id ->
                  exists genre, In genre all /\ genre_entered genre key id) ->
  forall key id,
    Map_get (genreMapFrom genres acc) key = Some id ->
    exists genre, In genre all /\ genre_entered genre key id.
Proof.
  unfold genreMapFrom.
  revert acc. induction genres as [| g genres IH]; intros acc Hincl Hacc key id; simpl.
  - apply Hacc.
  - apply IH.
    + intros x Hx. apply Hincl. now right.
    + intros key' id' Hget.
      destruct (g_name g) as [name |] eqn:Hname; [| now apply Hacc].
      destruct (g_id g) as [gid |] eqn:Hid; [| now apply Hacc].
      destruct (truthy_str name) eqn:Ht; simpl in Hget; [| now apply Hacc].
      destruct (Z.eqb_spec gid 0) as [Hz | Hz]; simpl in Hget; [now apply Hacc |].
      destruct (String.eqb_spec key' (toLowerCase name)) as [-> | Hne].
      * rewrite Map_get_set_same in Hget. inversion Hget; subst id'.
        exists g. split; [apply Hincl; now left |].
        exists name. repeat split; try assumption.
        now apply truthy_str_true.
      * rewrite Map_get_set_other in Hget by assumption. now apply Hacc.
Qed.

Lemma genreMapFrom_keeps (genres : list Genre) (acc : Map Z) (key : string) :
  Map_get acc key <> None -> Map_get (genreMapFrom genres acc) key <> None.
Proof.
  unfold genreMapFrom.
  revert acc. induction genres as [| g genres IH]; intros acc Hacc; simpl.
  - exact Hacc.
  - apply IH.
    destruct (g_name g) as [name |]; [| exact Hacc].
    destruct (g_id g) as [gid |]; [| exact Hacc].
    destruct (truthy_str name && negb (gid =? 0)%Z); [| exact Hacc].
    destruct (String.eqb_spec key (toLowerCase name)) as [-> | Hne].
    + rewrite Map_get_set_same. discriminate.
    + now rewrite Map_get_set_other.
Qed.

Lemma genreMapFrom_complete (genres : list Genre) (acc : Map Z)
    (genre : Genre) (key : string) (id : Z) :
  In genre genres -> genre_entered genre key id ->
  Map_get (genreMapFrom genres acc) key <> None.
Proof.
  revert acc. induction genres as [| g genres IH]; intros acc Hin Hent.
  - contradiction.
  - destruct Hin as [-> | Hin].
    + destruct Hent as (name & Hname & Hne & Hkey & Hid & Hz).
      change (genreMapFrom (genre :: genres) acc)
        with (genreMapFrom genres
                match g_name genre, g_id genre with
                | Some name, Some id =>
                    if truthy_str name && negb (id =? 0)%Z
                    then Map_set acc (toLowerCase name) id
                    else acc
                | _, _ => acc
                end).
      apply genreMapFrom_keeps.
      rewrite Hname, Hid.
      apply truthy_str_true in Hne. rewrite Hne.
      apply Z.eqb_neq in Hz. rewrite Hz. simpl.
      rewrite Hkey, Map_get_set_same. discriminate.
    + apply (IH _ Hin Hent).
Qed.

Lemma fetchGenreMap_run (env : Env) (w : World) (type : string) (s : State) :
  truthy_ostr (TMDB_API_KEY env) = true ->
  fetchGenreMap env w type s
  = let path := if (type =? "series")%string
                then "/genre/tv/list" else "/genre/movie/list" in
    (match tmdbFetch_attempts w path [] 0 2 "undefined" with
     | inr payload =>
         inr (genreMapFrom match p_genres payload with Some g => g | None => [] end [])
     | inl e => inl e
     end,
     log_call path s).
Proof.
  intro Hkey. unfold fetchGenreMap, tmdbFetch, bind, modify. rewrite Hkey. cbv zeta.
  destruct (tmdbFetch_attempts w _ [] 0 2 "undefined"); reflexivity.
Qed.

(** X3.  The genre map [fetchGenreMap] returns binds exactly the lowercased
    names of the listed genres that have a non-empty name and a nonzero id:
    every binding comes from such a genre (so no id in the map is zero),
    and every such genre's lowercased name is bound. *)
Theorem genre_map_bindings (env : Env) (w : World) (type : string)
    (s s' : State) (payload : Payload) (map : Map Z) :
  truthy_ostr (TMDB_API_KEY env) = true ->
  tmdbFetch_attempts w
    (if (type =? "series")%string then "/genre/tv/list" else "/genre/movie/list")
    [] 0 2 "undefined" = inr payload ->
  fetchGenreMap env w type s = (inr map, s') ->
  let genres := match p_genres payload with Some g => g | None => [] end in
  (forall key id,
     Map_get map key = Some id ->
     id <> 0 /\ exists genre, In genre genres /\ genre_entered genre key id)
  /\ (forall genre key id,
        In genre genres -> genre_entered genre key id ->
        Map_get map key <> None).
Proof.
  intros Hkey Hfetch Hrun genres.
  rewrite (fetchGenreMap_run env w type s Hkey) in Hrun. cbv zeta in Hrun.
  rewrite Hfetch in Hrun. inversion Hrun; subst map s'. clear Hrun.
  fold genres. split.
  - intros key id Hget.
    destruct (genreMapFrom_sound genres genres [] (incl_refl _)
                ltac:(intros ? ? H; discriminate H) key id Hget)
      as (genre & Hin & Hent).
    split; [| now exists genre].
    destruct Hent as (_ & _ & _ & _ & _ & Hz). exact Hz.
  - intros genre key id Hin Hent. eapply genreMapFrom_complete; eassumption.
Qed.

Lemma genre_map_bindings_witness :
  exists map s',
    fetchGenreMap envWithKey
      (worldAt 0 (fun _ _ _ =>
                    inr {| p_genres := Some [ {| g_name := Some "Action"; g_id := Some 28 |};
                                              {| g_name := Some "Broken"; g_id := Some 0 |};
                                              {| g_name := None; g_id := Some 7 |} ];
                           p_results := None |}) 0)
      "movie" initialState = (inr map, s')
    /\ Map_get map "action" = Some 28
    /\ Map_get map "broken" = None.
Proof.
  eexists; eexists. split; [reflexivity |].
  split; [| reflexivity].
  destruct (genre_map_bindings envWithKey
              (worldAt 0 (fun _ _ _ =>
                    inr {| p_genres := Some [ {| g_name := Some "Action"; g_id := Some 28 |};
                                              {| g_name := Some "Broken"; g_id := Some 0 |};
                                              {| g_name := None; g_id := Some 7 |} ];
                           p_results := None |}) 0)
              "movie" initialState _ _ _ eq_refl eq_refl eq_refl) as [_ H].
  reflexivity.
Defined.

(* ================================================================== *)
(** ** The upstream listing: failures, calls, size, featured record *)
(* ================================================================== *)

Lemma getMoviesFromTmdb_rows_failed {js : ECMAScript} (env : Env) (w : World)
    (req : Query) (s s1 : State) (e : Error) :
  categoryResults env w req s = (inl e, s1) ->
  getMoviesFromTmdb env w req s = (inl e, s1).
Proof.
  intro H. unfold getMoviesFromTmdb. unfold bind at 1. rewrite H. reflexivity.
Qed.

Lemma getMoviesFromTmdb_rows_fetched {js : ECMAScript} (env : Env) (w : World)
    (req : Query) (s s1 : State) (rows : list CategoryResult) :
  categoryResults env w req s = (inr rows, s1) ->
  exists o s', getMoviesFromTmdb env w req s = (inr o, s').
Proof.
  intro H. unfold getMoviesFromTmdb. unfold bind at 1. rewrite H.
  unfold bind at 1, Promise_allSettled.
  destruct (settle_all_returns
              (map (fetchTrailerEntry env w) (trailerTargets rows)) s1) as [rs Hrs].
  destruct (settle_all _ s1) as [[e2 | rs'] s2]; simpl in Hrs; [discriminate |].
  unfold bind, modify, ret. simpl. eexists; eexists; reflexivity.
Qed.

(** X4.  The upstream listing fails exactly when fetching the genre maps or
    the category rows fails, and with that error; it answers exactly when
    they are fetched.  In particular no failure of a trailer lookup makes
    the listing fail. *)
Theorem listing_fails_only_with_rows {js : ECMAScript} (env : Env) (w : World)
    (req : Query) (s : State) :
  (forall e,
     (exists s1, categoryResults env w req s = (inl e, s1))
     <-> (exists s', getMoviesFromTmdb env w req s = (inl e, s')))
  /\ ((exists rows s1, categoryResults env w req s = (inr rows, s1))
      <-> (exists o s', getMoviesFromTmdb env w req s = (inr o, s'))).
Proof.
  destruct (categoryResults env w req s) as [[e1 | rows] s1] eqn:Hrows.
  - pose proof (getMoviesFromTmdb_rows_failed env w req s s1 e1 Hrows) as Hrun.
    split.
    + intro e. split.
      * intros [x H]. inversion H; subst. eexists; exact Hrun.
      * intros [x H]. rewrite Hrun in H. inversion H; subst. eexists; reflexivity.
    + split.
      * intros (? & ? & H); discriminate H.
      * intros (? & ? & H). rewrite Hrun in H. discriminate H.
  - destruct (getMoviesFromTmdb_rows_fetched env w req s s1 rows Hrows)
      as (o & s' & Hrun).
    split.
    + intro e. split.
      * intros [x H]; discriminate H.
      * intros [x H]. rewrite Hrun in H. discriminate H.
    + split; intros _.
      * exists o, s'. exact Hrun.
      * exists rows, s1. reflexivity.
Qed.

Lemma listing_fails_only_with_rows_witness :
  exists o s',
    getMoviesFromTmdb (js := DecimalRuntime) envWithKey
      (worldAt 0 (fun path _ _ =>
                    if (path =? "/movie/550/videos")%string
                    then inl "TMDB request failed"
                    else upstreamOne path [] 0%nat) 0)
      noQuery initialState = (inr o, s').
Proof.
  destruct (listing_fails_only_with_rows (js := DecimalRuntime) envWithKey
              (worldAt 0 (fun path _ _ =>
                            if (path =? "/movie/550/videos")%string
                            then inl "TMDB request failed"
                            else upstreamOne path [] 0%nat) 0)
              noQuery initialState) as [_ [H _]].
  apply H. eexists; eexists. vm_compute. reflexivity.
Defined.

(** *** Counting upstream calls *)

Lemma calls_within_ret {A : Type} (a : A) : calls_within 0 (ret a).
Proof. intro s; simpl; lia. Qed.

Lemma calls_within_throw {A : Type} (e : Error) : calls_within 0 (@throw A e).
Proof. intro s; simpl; lia. Qed.

Lemma calls_within_weaken {A : Type} (n n' : nat) (m : M A) :
  (n <= n')%nat -> calls_within n m -> calls_within n' m.
Proof. intros Hle H s. specialize (H s). lia. Qed.

Lemma calls_within_bind {A B : Type} (n k : nat) (m : M A) (f : A -> M B) :
  calls_within n m -> (forall a, calls_within k (f a)) ->
  calls_within (n + k) (bind m f).
Proof.
  intros Hm Hf s. unfold bind. specialize (Hm s).
  destruct (m s) as [[e | a] s1]; simpl in *.
  - lia.
  - specialize (Hf a s1). lia.
Qed.

Lemma calls_within_try_catch {A : Type} (n k : nat) (m : M A) (h : Error -> M A) :
  calls_within n m -> (forall e, calls_within k (h e)) ->
  calls_within (n + k) (try_catch m h).
Proof.
  intros Hm Hh s. unfold try_catch. specialize (Hm s).
  destruct (m s) as [[e | a] s1]; simpl in *.
  - specialize (Hh e s1). lia.
  - lia.
Qed.

Lemma calls_within_modify (f : State -> State) :
  (forall s, upstreamCalls (f s) = upstreamCalls s) -> calls_within 0 (modify f).
Proof. intros H s. simpl. rewrite H. lia. Qed.

Lemma calls_within_settle_all {A : Type} (ms : list (M A)) :
  Forall (calls_within 1) ms -> calls_within (List.length ms) (settle_all ms).
Proof.
  induction 1 as [| m ms Hm _ IH]; simpl.
  - apply calls_within_ret.
  - intro s. unfold bind, settle. specialize (Hm s).
    destruct (m s) as [r s1]. simpl in Hm.
    specialize (IH s1).
    destruct (settle_all ms s1) as [[e | rs] s2]; simpl in *; lia.
Qed.

Lemma calls_within_Promise_all {A : Type} (ms : list (M A)) :
  Forall (calls_within 1) ms -> calls_within (List.length ms) (Promise_all ms).
Proof.
  intro H. unfold Promise_all.
  replace (List.length ms) with (List.length ms + 0)%nat by lia.
  apply calls_within_bind; [now apply calls_within_settle_all |].
  intro rs. destruct (all_fulfilled rs);
    [apply calls_within_throw | apply calls_within_ret].
Qed.

Lemma tmdbFetch_state (env : Env) (w : World) (path : string)
    (params : list (string * string)) (s : State) :
  snd (tmdbFetch env w path params s) = log_call path s.
Proof.
  unfold tmdbFetch, bind, modify. simpl.
  destruct (truthy_ostr (TMDB_API_KEY env)); [| reflexivity].
  destruct (upstream w path params 0) as [e0 | p0]; [| reflexivity].
  destruct (upstream w path params 1) as [e1 | p1]; reflexivity.
Qed.

Lemma tmdbFetch_one_call (env : Env) (w : World) (path : string)
    (params : list (string * string)) :
  calls_within 1 (tmdbFetch env w path params).
Proof.
  intro s. rewrite tmdbFetch_state. simpl. lia.
Qed.

Lemma after_tmdbFetch_one_call {A : Type} (env : Env) (w : World) (path : string)
    (params : list (string * string)) (f : Payload -> A) :
  calls_within 1 (bind (tmdbFetch env w path params) (fun payload => ret (f payload))).
Proof.
  change 1%nat with (1 + 0)%nat.
  apply calls_within_bind; [apply tmdbFetch_one_call |].
  intro; apply calls_within_ret.
Qed.

Lemma genreRows_length (names : list string) (genreMap : Map Z)
    (suffix path type : string) :
  (List.length (genreRows names genreMap suffix path type) <= List.length names)%nat.
Proof.
  unfold genreRows. induction names as [| name names IH]; simpl; [lia |].
  rewrite length_app.
  destruct (Map_get genreMap (toLowerCase name)) as [id |]; simpl; [| lia].
  destruct (id =? 0)%Z; simpl; lia.
Qed.

(** Between 9 and 33 rows are asked for. *)
Lemma category_rows_count (genreMapMovie genreMapTv : Map Z) :
  (9 <= List.length (categories ++ genreCategories genreMapMovie genreMapTv)%list <= 33)%nat.
Proof.
  unfold genreCategories. rewrite !length_app.
  pose proof (genreRows_length movieGenres genreMapMovie " Movies" "/discover/movie" "movie").
  pose proof (genreRows_length tvGenres genreMapTv " TV" "/discover/tv" "series").
  simpl in *. lia.
Qed.

(** At most six trailers are looked up. *)
Lemma trailerTargets_length (rows : list CategoryResult) :
  (List.length (trailerTargets rows) <= 6)%nat.
Proof.
  unfold trailerTargets.
  assert (H : forall l : list CategoryResult,
             (List.length
                (flat_map
                   (fun category =>
                      map (fun item => {| t_id := o_id item;
                                          t_type := c_type (r_category category) |})
                          (firstn 3 (r_results category))) l)
              <= 3 * List.length l)%nat).
  { induction l as [| c l IH]; [simpl; lia |].
    cbn [flat_map List.length]. rewrite length_app, length_map.
    pose proof (firstn_le_length 3 (r_results c)). lia. }
  specialize (H (firstn 2 rows)).
  pose proof (firstn_le_length 2 rows). lia.
Qed.

Lemma calls_within_same_calls {A : Type} (m : M A) :
  frames same_calls m -> calls_within 0 m.
Proof. intros H s. rewrite (H s). lia. Qed.

Section CallCounts.
Context {js : ECMAScript}.
Variable env : Env.
Variable w : World.

Lemma fetchGenreMap_one_call (type : string) :
  calls_within 1 (fetchGenreMap env w type).
Proof.
  unfold fetchGenreMap. change 1%nat with (1 + 0)%nat.
  apply calls_within_bind; [apply tmdbFetch_one_call |].
  intro; apply calls_within_ret.
Qed.

Lemma fetchCategory_one_call (req : Query) (category : Category) :
  calls_within 1 (fetchCategory env w req category).
Proof.
  unfold fetchCategory. change 1%nat with (1 + 0)%nat.
  apply calls_within_bind; [apply tmdbFetch_one_call |].
  intro; apply calls_within_ret.
Qed.

Lemma fetchTrailerUrl_one_call (id type : string) :
  calls_within 1 (fetchTrailerUrl env w id type).
Proof.
  unfold fetchTrailerUrl. change 1%nat with (1 + 0)%nat.
  apply calls_within_bind; [apply tmdbFetch_one_call |].
  intro; apply calls_within_ret.
Qed.

Lemma fetchTrailerEntry_one_call (target : TrailerTarget) :
  calls_within 1 (fetchTrailerEntry env w target).
Proof.
  unfold fetchTrailerEntry. change 1%nat with (1 + 0)%nat.
  apply calls_within_bind; [apply fetchTrailerUrl_one_call |].
  intro; apply calls_within_ret.
Qed.

Lemma categoryResults_calls (req : Query) :
  calls_within 35 (categoryResults env w req).
Proof.
  unfold categoryResults. change 35%nat with (1 + (1 + 33))%nat.
  apply calls_within_bind; [apply fetchGenreMap_one_call |]. intro genreMapMovie.
  apply calls_within_bind; [apply fetchGenreMap_one_call |]. intro genreMapTv.
  eapply calls_within_weaken;
    [| apply calls_within_Promise_all].
  - rewrite length_map. apply category_rows_count.
  - apply Forall_forall. intros m Hm.
    apply in_map_iff in Hm. destruct Hm as [c [<- _]].
    apply fetchCategory_one_call.
Qed.

Lemma getMoviesFromTmdb_calls (req : Query) :
  calls_within 41 (getMoviesFromTmdb env w req).
Proof.
  unfold getMoviesFromTmdb. change 41%nat with (35 + (6 + (0 + (0 + 0))))%nat.
  apply calls_within_bind; [apply categoryResults_calls |]. intro rows.
  apply calls_within_bind.
  - unfold Promise_allSettled.
    eapply calls_within_weaken; [| apply calls_within_settle_all].
    + rewrite length_map. apply trailerTargets_length.
    + apply Forall_forall. intros m Hm.
      apply in_map_iff in Hm. destruct Hm as [t [<- _]].
      apply fetchTrailerEntry_one_call.
  - intro trailerResults. cbv zeta.
    apply calls_within_bind; [apply calls_within_modify; reflexivity |]. intro.
    apply calls_within_bind; [apply calls_within_modify; reflexivity |]. intro.
    apply calls_within_ret.
Qed.

Lemma recordFailure_calls : calls_within 0 (recordFailure env w).
Proof.
  intro s. unfold recordFailure, bind, modify, get_state. simpl.
  destruct (tmdbFailureStreak s + 1 >=? 1)%Z; simpl; lia.
Qed.

End CallCounts.

(** X5.  One listing request makes at most 41 upstream calls: the two genre
    lists, at most 33 category rows and at most 6 trailer lookups. *)
Theorem listing_upstream_calls_bounded {js : ECMAScript} (env : Env)
    (seedMovies : list SeedMovie) (w : World) (req : Query) (s : State) :
  (List.length (upstreamCalls (snd (getMovies env seedMovies w req s)))
   <= List.length (upstreamCalls s) + 41)%nat.
Proof.
  revert s. change (calls_within 41 (getMovies env seedMovies w req)).
  unfold getMovies. change 41%nat with (0 + (41 + 0) + 0)%nat.
  apply calls_within_try_catch; [| intro; apply calls_within_ret].
  apply calls_within_bind; [intro s; simpl; lia |]. intro s0. cbv zeta.
  apply calls_within_bind.
  - destruct (truthy_ostr (TMDB_API_KEY env)
              && negb (strict_eq_str (q_source req) "db")
              && negb (tmdbDisabledUntil s0 >? now w)%Z).
    + change 41%nat with (41 + 0 + (0 + 0))%nat.
      apply calls_within_try_catch.
      * apply calls_within_bind; [apply getMoviesFromTmdb_calls |].
        intro; apply calls_within_ret.
      * intro. apply calls_within_bind; [apply recordFailure_calls |].
        intro; apply calls_within_ret.
    + eapply calls_within_weaken; [| apply calls_within_ret]. lia.
  - intros [r |].
    + apply calls_within_ret.
    + apply calls_within_same_calls. apply getMovies_fallback_calls.
Qed.

Lemma mapi_from_In_ge {A B : Type} (f : nat -> A -> B) (xs : list A) (i : nat) (y : B) :
  In y (mapi_from i f xs) -> exists j x, (i <= j)%nat /\ In x xs /\ y = f j x.
Proof.
  revert i. induction xs as [| x xs IH]; intros i H; simpl in H.
  - contradiction.
  - destruct H as [H | H].
    + exists i, x. repeat split; [lia | now left | now symmetry].
    + destruct (IH _ H) as (j & x' & Hle & Hin & Hy).
      exists j, x'. repeat split; [lia | now right | assumption].
Qed.

Lemma mapi_from_length {A B : Type} (f : nat -> A -> B) (xs : list A) (i : nat) :
  List.length (mapi_from i f xs) = List.length xs.
Proof.
  revert i. induction xs as [| x xs IH]; intro i; simpl; [reflexivity |].
  now rewrite IH.
Qed.

Section ListingShape.
Context {js : ECMAScript}.
Variable w : World.
Variable trailerMap : Map string.

Lemma tmdbData_rows (rows : list CategoryResult) :
  tmdbData w rows trailerMap = List.concat (mapi_from 0 (rowRecords w trailerMap) rows).
Proof. reflexivity. Qed.

Lemma later_rows_not_featured (rows : list CategoryResult) (k : nat) :
  Forall (fun record => cr_featured record = Some false)
         (List.concat (mapi_from (S k) (rowRecords w trailerMap) rows)).
Proof.
  apply Forall_forall. intros record Hin.
  apply in_concat in Hin. destruct Hin as (l & Hl & Hrec).
  apply mapi_from_In_ge in Hl. destruct Hl as (j & row & Hj & _ & ->).
  unfold rowRecords, mapi in Hrec.
  apply mapi_from_In in Hrec. destruct Hrec as (i & item & _ & ->). simpl.
  destruct j; [lia | reflexivity].
Qed.

Lemma later_items_not_featured (row : CategoryResult) (items : list TmdbObject) :
  Forall (fun record => cr_featured record = Some false)
         (mapi_from 1
            (fun index item =>
               mapTmdbItem (fullYear w) item
                 (c_title (r_category row)) (c_type (r_category row))
                 trailerMap ((0 =? 0)%nat && (index =? 0)%nat))
            items).
Proof.
  apply Forall_forall. intros record Hin.
  apply mapi_from_In_ge in Hin. destruct Hin as (j & item & Hj & _ & ->). simpl.
  destruct j; [lia | reflexivity].
Qed.

Lemma tmdbData_featured (rows : list CategoryResult) (i : nat) (record : ContentRecord) :
  nth_error (tmdbData w rows trailerMap) i = Some record ->
  cr_featured record = Some ((i =? 0)%nat && firstRowNonEmpty rows).
Proof.
  rewrite tmdbData_rows. destruct rows as [| row rest].
  - destruct i; discriminate.
  - cbn [mapi_from List.concat]. unfold rowRecords at 1, mapi.
    unfold firstRowNonEmpty.
    destruct (r_results row) as [| item items] eqn:Hres.
    + cbn [mapi_from app]. intro H. apply nth_error_In in H.
      pose proof (later_rows_not_featured rest 0) as Hall.
      rewrite Forall_forall in Hall. rewrite (Hall _ H).
      now rewrite andb_false_r.
    + cbn [mapi_from app]. destruct i as [| i]; cbn [nth_error].
      * intro H; inversion H; subst. reflexivity.
      * intro H. apply nth_error_In in H. apply in_app_or in H.
        destruct H as [H | H].
        -- pose proof (later_items_not_featured row items) as Hall.
           rewrite Forall_forall in Hall. now rewrite (Hall _ H).
        -- pose proof (later_rows_not_featured rest 0) as Hall.
           rewrite Forall_forall in Hall. now rewrite (Hall _ H).
Qed.

Lemma tmdbData_length (rows : list CategoryResult) :
  List.length (tmdbData w rows trailerMap) = sum_lengths rows.
Proof.
  rewrite tmdbData_rows. generalize 0%nat.
  induction rows as [| row rest IH]; intro k; simpl; [reflexivity |].
  rewrite length_app, IH. unfold rowRecords, mapi.
  now rewrite mapi_from_length.
Qed.

End ListingShape.

(** X6.  In an upstream listing the only record that can be featured is the
    very first one, and it is featured exactly when the first category row
    holds an item; every other record has [featured: false]. *)
Theorem featured_is_first_record {js : ECMAScript} (env : Env) (w : World)
    (req : Query) (s s' : State) (count : nat) (data : list ContentRecord) :
  getMoviesFromTmdb env w req s
  = (inr (Sent {| status := 200; body := Listing count data |}), s') ->
  exists rows s1,
    categoryResults env w req s = (inr rows, s1)
    /\ forall i record,
         nth_error data i = Some record ->
         cr_featured record = Some ((i =? 0)%nat && firstRowNonEmpty rows).
Proof.
  intro Hrun.
  destruct (getMoviesFromTmdb_listing env w req s s' _ Hrun)
    as (rows & s1 & trailerMap & Hrows & Ho).
  inversion Ho; subst. clear Ho.
  exists rows, s1. split; [exact Hrows |].
  intros i record. apply tmdbData_featured.
Qed.

Lemma featured_is_first_record_witness :
  exists record s',
    getMoviesFromTmdb (js := DecimalRuntime) envWithKey
      (worldAt 1000 upstreamOne 0) noQuery initialState
    = (inr (Sent {| status := 200; body := Listing 1 [record] |}), s')
    /\ cr_featured record = Some true.
Proof.
  eexists; eexists. split; [vm_compute; reflexivity |].
  destruct (featured_is_first_record (js := DecimalRuntime) envWithKey
              (worldAt 1000 upstreamOne 0) noQuery initialState _ _ _ eq_refl)
    as (rows & s1 & Hrows & H).
  reflexivity.
Defined.

Lemma perCategory_range {js : ECMAScript} (req : Query) :
  exists q, perCategory req = Fin q /\ (inject_Z 6 <= q)%Q /\ (q <= inject_Z 40)%Q.
Proof.
  unfold perCategory. rewrite or_num_is_number_or.
  rewrite (min_max_is_clamp _ 6 40) by lia.
  apply clamp_in_range; [lia | apply number_or_not_NaN].
Qed.

Lemma row_of_length {js : ECMAScript} (req : Query) (category : Category)
    (row : CategoryResult) :
  row_of req category row -> (List.length (r_results row) <= 40)%nat.
Proof.
  intros [_ [results ->]].
  destruct (perCategory_range req) as (q & -> & Hlo & Hhi).
  assert (H0 : (0 <= q)%Q) by (apply Qle_trans with (inject_Z 6); [discriminate | exact Hlo]).
  pose proof (slice0_length_le results q H0) as Hlen.
  assert (Hz : (inject_Z (Z.of_nat (List.length (slice0 results (Fin q)))) <= inject_Z 40)%Q)
    by (eapply Qle_trans; eassumption).
  rewrite <- Zle_Qle in Hz. lia.
Qed.

Lemma sum_lengths_bound (rows : list CategoryResult) (k : nat) :
  Forall (fun row => (List.length (r_results row) <= k)%nat) rows ->
  (sum_lengths rows <= k * List.length rows)%nat.
Proof.
  induction 1 as [| row rows Hrow _ IH]; simpl; [lia |]. nia.
Qed.

(** X7.  An upstream listing's [count] is the length of its [data], which is
    the total of the row lengths, and never exceeds 1320 (33 rows of at most
    40 items). *)
Theorem upstream_listing_size {js : ECMAScript} (env : Env) (w : World)
    (req : Query) (s s' : State) (count : nat) (data : list ContentRecord) :
  getMoviesFromTmdb env w req s
  = (inr (Sent {| status := 200; body := Listing count data |}), s') ->
  count = List.length data
  /\ (count <= 1320)%nat
  /\ exists rows s1,
       categoryResults env w req s = (inr rows, s1)
       /\ count = sum_lengths rows
       /\ (9 <= List.length rows <= 33)%nat.
Proof.
  intro Hrun.
  destruct (getMoviesFromTmdb_listing env w req s s' _ Hrun)
    as (rows & s1 & trailerMap & Hrows & Ho).
  inversion Ho; subst. clear Ho.
  destruct (categoryResults_returns env w req s s1 rows Hrows)
    as (genreMapMovie & genreMapTv & Hall).
  pose proof (category_rows_count genreMapMovie genreMapTv) as Hcount.
  rewrite (Forall2_length Hall) in Hcount.
  assert (Hrowlen : Forall (fun row => (List.length (r_results row) <= 40)%nat) rows).
  { apply Forall_forall. intros row Hrow.
    destruct (Forall2_right_In _ _ _ _ Hall Hrow) as (category & _ & Hof).
    eapply row_of_length; exact Hof. }
  pose proof (sum_lengths_bound rows 40 Hrowlen) as Hsum.
  rewrite tmdbData_length.
  split; [reflexivity |]. split; [nia |].
  exists rows, s1. repeat split; [exact Hrows | lia | lia].
Qed.

Lemma upstream_listing_size_witness :
  exists data s',
    getMoviesFromTmdb (js := DecimalRuntime) envWithKey
      (worldAt 1000 upstreamOne 0) noQuery initialState
    = (inr (Sent {| status := 200; body := Listing 1 data |}), s')
    /\ List.length data = 1%nat.
Proof.
  eexists; eexists. split; [vm_compute; reflexivity |].
  destruct (upstream_listing_size (js := DecimalRuntime) envWithKey
              (worldAt 1000 upstreamOne 0) noQuery initialState _ _ _ eq_refl)
    as (H & _).
  symmetry. exact H.
Defined.

(* ================================================================== *)
(** ** The listing handler: shape of the answer, availability *)
(* ================================================================== *)

Section FallbackAnswers.
Context {js : ECMAScript}.
Variable seedMovies : list SeedMovie.
Variable w : World.

(** With textual filters the store/seed part is the store query or the
    seed filter, on the raw strings. *)
Lemma getMovies_fallback_textual (req : Query) (s : State) :
  textual (q_search req) -> textual (q_category req) -> textual (q_type req) ->
  getMovies_fallback seedMovies w req s
  = let search := text_of (q_search req) in
    let category := text_of (q_category req) in
    let type := text_of (q_type req) in
    let featured := default_to (q_featured req) "" in
    if (readyState w =? 1)%Z
    then match Movie_find w (buildFilter search category type featured)
                 (cappedLimit req) with
         | inl e => (inl e, s)
         | inr movies =>
             (inr (Sent {| status := 200;
                           body := Listing (List.length movies)
                                           (map normalizeMovie movies) |}),
              set_tmdbDisabledUntil 0 (set_tmdbFailureStreak 0 s))
         end
    else (inr (Sent {| status := 200;
                       body := Listing
                                 (List.length
                                    (filteredSeed seedMovies search category type
                                       featured (cappedLimit req)))
                                 (map normalizeSeedMovie
                                    (filteredSeed seedMovies search category type
                                       featured (cappedLimit req))) |}),
          s).
Proof.
  intros [Hs | [search Hs]] [Hc | [category Hc]] [Ht | [type Ht]];
    unfold getMovies_fallback; rewrite Hs, Hc, Ht; simpl;
    unfold bind; simpl;
    (destruct (readyState w =? 1)%Z; [| reflexivity]);
    (destruct (Movie_find w _ _); reflexivity).
Qed.

Lemma getMovies_fallback_shape (req : Query) (s : State) (r : Response) :
  fst (getMovies_fallback seedMovies w req s) = inr (Sent r) ->
  status r = 200
  /\ exists count data, body r = Listing count data /\ count = List.length data.
Proof.
  unfold getMovies_fallback.
  destruct (q_search req), (q_category req), (q_type req); simpl;
    try discriminate;
    unfold bind; simpl;
    (destruct (readyState w =? 1)%Z; simpl;
     [ destruct (Movie_find w _ _); simpl; [discriminate |] | ]);
    intro H; inversion H; subst; simpl;
    (split; [reflexivity |]); eexists; eexists;
    (split; [reflexivity |]); now rewrite length_map.
Qed.

Lemma guardedFallback_returns (req : Query) (s : State) :
  exists o, fst (guardedFallback seedMovies w req s) = inr o.
Proof.
  unfold guardedFallback, try_catch.
  destruct (getMovies_fallback seedMovies w req s) as [[e | o] s'];
    eexists; reflexivity.
Qed.

Lemma guardedFallback_shape (req : Query) (s : State) (r : Response) :
  fst (guardedFallback seedMovies w req s) = inr (Sent r) ->
  status r = 200
  /\ exists count data, body r = Listing count data /\ count = List.length data.
Proof.
  unfold guardedFallback, try_catch.
  pose proof (getMovies_fallback_shape req s r) as H.
  destruct (getMovies_fallback seedMovies w req s) as [[e | o] s']; simpl in *.
  - discriminate.
  - exact H.
Qed.


Lemma guardedFallback_tracker (req : Query) (s : State) :
  tracker_ok s -> tracker_ok (snd (guardedFallback seedMovies w req s)).
Proof.
  intro Hs. unfold guardedFallback, try_catch.
  pose proof (getMovies_fallback_state seedMovies w req s) as H.
  destruct (getMovies_fallback seedMovies w req s) as [[e | [r' | e]] s']; simpl;
    try (subst s'; exact Hs).
  destruct (readyState w =? 1)%Z.
  - destruct H as (H1 & H2 & _). unfold tracker_ok. rewrite H1, H2. split; [lia | auto].
  - subst s'; exact Hs.
Qed.

End FallbackAnswers.

(** The three ways [getMovies] can run, in one statement. *)
Lemma getMovies_cases {js : ECMAScript} (env : Env) (seedMovies : list SeedMovie)
    (w : World) (req : Query) (s : State) :
  0 <= tmdbFailureStreak s ->
  getMovies env seedMovies w req s = guardedFallback seedMovies w req s
  \/ (exists o s', getMoviesFromTmdb env w req s = (inr o, s')
                   /\ getMovies env seedMovies w req s = (inr o, s'))
  \/ (exists e s1, getMoviesFromTmdb env w req s = (inl e, s1)
                   /\ getMovies env seedMovies w req s
                      = guardedFallback seedMovies w req
                          (failureRecorded env (now w) s1)).
Proof.
  intro Hs.
  destruct (upstreamEligible env w req s) eqn:He.
  - destruct (getMoviesFromTmdb env w req s) as [[e | o] s1] eqn:Hup.
    + right; right. exists e, s1. split; [reflexivity |].
      exact (getMovies_upstream_failed env seedMovies w req s s1 e He Hup Hs).
    + right; left. exists o, s1. split; [reflexivity |].
      exact (getMovies_upstream_ok env seedMovies w req s s1 o He Hup).
  - left. now apply getMovies_not_eligible.
Qed.

(** No error escapes the handler. *)
Lemma getMovies_returns {js : ECMAScript} (env : Env) (seedMovies : list SeedMovie)
    (w : World) (req : Query) (s : State) :
  exists o, fst (getMovies env seedMovies w req s) = inr o.
Proof.
  unfold getMovies, try_catch.
  match goal with
  | |- context [let (_, _) := ?m s in _] => destruct (m s) as [[e | o] s']
  end; eexists; reflexivity.
Qed.

Lemma recordFailure_returns (env : Env) (w : World) (s : State) :
  exists s', recordFailure env w s = (inr tt, s').
Proof.
  unfold recordFailure, bind, modify, get_state. simpl.
  destruct (tmdbFailureStreak s + 1 >=? 1)%Z; eexists; reflexivity.
Qed.

(** Whatever the tracker holds, the handler ends with the upstream's answer
    or with the store/seed part run from some state. *)
Lemma getMovies_ends {js : ECMAScript} (env : Env) (seedMovies : list SeedMovie)
    (w : World) (req : Query) (s : State) :
  (exists s2, getMovies env seedMovies w req s = guardedFallback seedMovies w req s2)
  \/ (exists o s', getMoviesFromTmdb env w req s = (inr o, s')
                   /\ getMovies env seedMovies w req s = (inr o, s')).
Proof.
  destruct (upstreamEligible env w req s) eqn:He.
  - destruct (getMoviesFromTmdb env w req s) as [[e | o] s1] eqn:Hup.
    + left. destruct (recordFailure_returns env w s1) as [s2 Hrec].
      exists s2. unfold getMovies, upstreamEligible in *.
      unfold try_catch at 1. unfold bind at 1. unfold get_state at 1.
      unfold bind at 1. rewrite He.
      unfold try_catch at 1. unfold bind at 1. rewrite Hup.
      unfold bind at 1. rewrite Hrec. reflexivity.
    + right. exists o, s1. split; [reflexivity |].
      exact (getMovies_upstream_ok env seedMovies w req s s1 o He Hup).
  - left. exists s. now apply getMovies_not_eligible.
Qed.

(** X8.  [getMovies] never throws, and whenever it sends a response, that
    response has status 200 and a listing body whose [count] is the length
    of its [data]; this holds on the upstream, store and seed paths
    alike. *)
Theorem listing_response_shape {js : ECMAScript} (env : Env)
    (seedMovies : list SeedMovie) (w : World) (req : Query) (s : State) :
  (exists o, fst (getMovies env seedMovies w req s) = inr o)
  /\ forall r,
       fst (getMovies env seedMovies w req s) = inr (Sent r) ->
       status r = 200
       /\ exists count data, body r = Listing count data /\ count = List.length data.
Proof.
  split; [apply getMovies_returns |].
  intros r Hr.
  destruct (getMovies_ends env seedMovies w req s)
    as [[s2 Hrun] | (o & s' & Hup & Hrun)]; rewrite Hrun in Hr.
  - eapply guardedFallback_shape; exact Hr.
  - simpl in Hr. inversion Hr; subst o.
    destruct (getMoviesFromTmdb_listing env w req s s' _ Hup)
      as (rows & s1 & trailerMap & _ & Ho).
    inversion Ho; subst. simpl. split; [reflexivity |].
    eexists; eexists; split; reflexivity.
Qed.

Lemma listing_response_shape_witness :
  exists data,
    fst (getMovies (js := DecimalRuntime) envWithKey
           [seedOf "Heat" "movie" "Crime" false]
           (worldAt 1000 upstreamDown 0) noQuery initialState)
    = inr (Sent {| status := 200; body := Listing 1 data |})
    /\ List.length data = 1%nat.
Proof.
  eexists. split; [reflexivity |].
  destruct (listing_response_shape (js := DecimalRuntime) envWithKey
              [seedOf "Heat" "movie" "Crime" false]
              (worldAt 1000 upstreamDown 0) noQuery initialState) as [_ H].
  destruct (H _ eq_refl) as (_ & count & data & Hbody & Hcount).
  reflexivity.
Defined.



(** X10.  Without an API key a listing request makes no upstream call and
    records no failure: the tracker ends as it began, or reset to zero when
    the store served the response. *)
Theorem no_key_no_upstream {js : ECMAScript} (env : Env)
    (seedMovies : list SeedMovie) (w : World) (req : Query) (s : State) :
  truthy_ostr (TMDB_API_KEY env) = false ->
  let s' := snd (getMovies env seedMovies w req s) in
  upstreamCalls s' = upstreamCalls s
  /\ (s' = s
      \/ (readyState w = 1
          /\ tmdbFailureStreak s' = 0 /\ tmdbDisabledUntil s' = 0)).
Proof.
  intros Hkey s'. unfold s'.
  assert (He : upstreamEligible env w req s = false)
    by (unfold upstreamEligible; rewrite Hkey; reflexivity).
  rewrite (getMovies_not_eligible env seedMovies w req s He).
  split; [apply guardedFallback_calls |].
  unfold guardedFallback, try_catch.
  pose proof (getMovies_fallback_state seedMovies w req s) as H.
  destruct (getMovies_fallback seedMovies w req s) as [[e | [r | e]] s1]; simpl;
    try (left; exact H).
  destruct (Z.eqb_spec (readyState w) 1) as [Hready | Hready].
  - right. destruct H as (H1 & H2 & _). auto.
  - left; exact H.
Qed.

Lemma no_key_no_upstream_witness :
  upstreamCalls
    (snd (getMovies (js := DecimalRuntime) envNoKey []
            (worldAt 1000 upstreamEmpty 1) noQuery initialState)) = [].
Proof.
  destruct (no_key_no_upstream (js := DecimalRuntime) envNoKey []
              (worldAt 1000 upstreamEmpty 1) noQuery initialState eq_refl)
    as [H _].
  exact H.
Defined.

(* ================================================================== *)
(** ** The health tracker across requests *)
(* ================================================================== *)

Lemma getMovies_tracker {js : ECMAScript} (env : Env) (seedMovies : list SeedMovie)
    (w : World) (req : Query) (s : State) :
  tracker_ok s -> tracker_ok (snd (getMovies env seedMovies w req s)).
Proof.
  intros Hs. pose proof Hs as [Hstreak _].
  destruct (getMovies_cases env seedMovies w req s Hstreak)
    as [Hrun | [(o & s' & Hup & Hrun) | (e & s1 & Hup & Hrun)]]; rewrite Hrun.
  - now apply guardedFallback_tracker.
  - simpl. destruct (getMoviesFromTmdb_returns_reset env w req s s' o Hup) as [H1 H2].
    unfold tracker_ok. rewrite H1, H2. split; [lia | auto].
  - apply guardedFallback_tracker.
    destruct (getMoviesFromTmdb_throws_health env w req s s1 e Hup) as [_ H].
    unfold tracker_ok, failureRecorded. simpl. split; lia.
Qed.

Lemma serveAll_tracker {js : ECMAScript} (env : Env) (seedMovies : list SeedMovie)
    (reqs : list (World * Query)) (s : State) :
  tracker_ok s -> tracker_ok (serveAll env seedMovies reqs s).
Proof.
  revert s. induction reqs as [| [w req] rest IH]; intros s Hs; simpl.
  - exact Hs.
  - apply IH. now apply getMovies_tracker.
Qed.

(** X11.  In every state the handler can reach from the initial one, by any
    sequence of listing requests in any worlds, the failure streak is not
    negative and a zero streak comes with a zero deadline: there is no
    cooldown without a recorded failure. *)
Theorem tracker_invariant {js : ECMAScript} (env : Env)
    (seedMovies : list SeedMovie) (reqs : list (World * Query)) :
  let s := serveAll env seedMovies reqs initialState in
  0 <= tmdbFailureStreak s
  /\ (tmdbFailureStreak s = 0 -> tmdbDisabledUntil s = 0).
Proof.
  apply (serveAll_tracker env seedMovies reqs initialState).
  split; [simpl; lia | reflexivity].
Qed.

Lemma tracker_invariant_witness :
  tmdbDisabledUntil
    (serveAll (js := DecimalRuntime) envWithKey []
       [ (worldAt 1000 upstreamDown 0, noQuery);
         (worldAt 2000 upstreamDown 1, noQuery) ]
       initialState) = 0.
Proof.
  destruct (tracker_invariant (js := DecimalRuntime) envWithKey []
              [ (worldAt 1000 upstreamDown 0, noQuery);
                (worldAt 2000 upstreamDown 1, noQuery) ]) as [_ H].
  apply H. reflexivity.
Defined.

(** *** The streak is never read *)

Lemma streak_blind_ret {A : Type} (a : A) : streak_blind (ret a).
Proof. intros s1 s2 H. split; [reflexivity | exact H]. Qed.

Lemma streak_blind_throw {A : Type} (e : Error) : streak_blind (@throw A e).
Proof. intros s1 s2 H. split; [reflexivity | exact H]. Qed.

Lemma streak_blind_modify (f : State -> State) :
  (forall s1 s2, streak_apart s1 s2 -> streak_apart (f s1) (f s2)) ->
  streak_blind (modify f).
Proof. intros Hf s1 s2 H. split; [reflexivity | now apply Hf]. Qed.

Lemma streak_blind_bind {A B : Type} (m : M A) (k : A -> M B) :
  streak_blind m -> (forall a, streak_blind (k a)) -> streak_blind (bind m k).
Proof.
  intros Hm Hk s1 s2 H. unfold bind.
  destruct (Hm s1 s2 H) as [Hfst Hsnd].
  destruct (m s1) as [[e1 | a1] t1], (m s2) as [[e2 | a2] t2];
    simpl in Hfst, Hsnd; try discriminate.
  - inversion Hfst; subst. split; [reflexivity | exact Hsnd].
  - inversion Hfst; subst. now apply Hk.
Qed.

Lemma streak_blind_try_catch {A : Type} (m : M A) (h : Error -> M A) :
  streak_blind m -> (forall e, streak_blind (h e)) -> streak_blind (try_catch m h).
Proof.
  intros Hm Hh s1 s2 H. unfold try_catch.
  destruct (Hm s1 s2 H) as [Hfst Hsnd].
  destruct (m s1) as [[e1 | a1] t1], (m s2) as [[e2 | a2] t2];
    simpl in Hfst, Hsnd; try discriminate.
  - inversion Hfst; subst. now apply Hh.
  - inversion Hfst; subst. split; [reflexivity | exact Hsnd].
Qed.

Lemma streak_blind_settle {A : Type} (m : M A) :
  streak_blind m -> streak_blind (settle m).
Proof.
  intros Hm s1 s2 H. unfold settle.
  destruct (Hm s1 s2 H) as [Hfst Hsnd].
  destruct (m s1) as [r1 t1], (m s2) as [r2 t2]; simpl in *.
  subst. split; [reflexivity | exact Hsnd].
Qed.

Lemma streak_blind_settle_all {A : Type} (ms : list (M A)) :
  Forall streak_blind ms -> streak_blind (settle_all ms).
Proof.
  induction 1 as [| m ms Hm _ IH]; simpl.
  - apply streak_blind_ret.
  - apply streak_blind_bind; [now apply streak_blind_settle |].
    intro r. apply streak_blind_bind; [exact IH |].
    intro rs. apply streak_blind_ret.
Qed.

Lemma streak_blind_Promise_all {A : Type} (ms : list (M A)) :
  Forall streak_blind ms -> streak_blind (Promise_all ms).
Proof.
  intro H. unfold Promise_all.
  apply streak_blind_bind; [now apply streak_blind_settle_all |].
  intro rs. destruct (all_fulfilled rs);
    [apply streak_blind_throw | apply streak_blind_ret].
Qed.

Lemma streak_blind_string_receiver (v : jsval) : streak_blind (string_receiver v).
Proof. destruct v; simpl; first [apply streak_blind_ret | apply streak_blind_throw]. Qed.

Lemma streak_apart_log_call (path : string) (s1 s2 : State) :
  streak_apart s1 s2 -> streak_apart (log_call path s1) (log_call path s2).
Proof. intros (H1 & H2 & H3 & H4). unfold streak_apart; simpl. rewrite H2. auto. Qed.

Lemma streak_apart_reset_streak (s1 s2 : State) :
  streak_apart s1 s2 ->
  streak_apart (set_tmdbFailureStreak 0 s1) (set_tmdbFailureStreak 0 s2).
Proof. intros (H1 & H2 & H3 & H4). unfold streak_apart; simpl. repeat split; auto; lia. Qed.

Lemma streak_apart_set_deadline (v : Z) (s1 s2 : State) :
  streak_apart s1 s2 ->
  streak_apart (set_tmdbDisabledUntil v s1) (set_tmdbDisabledUntil v s2).
Proof. intros (H1 & H2 & H3 & H4). unfold streak_apart; simpl. auto. Qed.

Section StreakBlind.
Context {js : ECMAScript}.
Variable env : Env.
Variable seedMovies : list SeedMovie.
Variable w : World.

Lemma tmdbFetch_blind (path : string) (params : list (string * string)) :
  streak_blind (tmdbFetch env w path params).
Proof.
  unfold tmdbFetch.
  apply streak_blind_bind.
  - apply streak_blind_modify. apply streak_apart_log_call.
  - intros _. destruct (truthy_ostr (TMDB_API_KEY env)); [| apply streak_blind_throw].
    destruct (tmdbFetch_attempts w path params 0 2 "undefined");
      [apply streak_blind_throw | apply streak_blind_ret].
Qed.

Lemma fetchGenreMap_blind (type : string) : streak_blind (fetchGenreMap env w type).
Proof.
  unfold fetchGenreMap. apply streak_blind_bind; [apply tmdbFetch_blind |].
  intro; apply streak_blind_ret.
Qed.

Lemma fetchCategory_blind (req : Query) (category : Category) :
  streak_blind (fetchCategory env w req category).
Proof.
  unfold fetchCategory. apply streak_blind_bind; [apply tmdbFetch_blind |].
  intro; apply streak_blind_ret.
Qed.

Lemma fetchTrailerEntry_blind (target : TrailerTarget) :
  streak_blind (fetchTrailerEntry env w target).
Proof.
  unfold fetchTrailerEntry, fetchTrailerUrl.
  apply streak_blind_bind.
  - apply streak_blind_bind; [apply tmdbFetch_blind |].
    intro; apply streak_blind_ret.
  - intro; apply streak_blind_ret.
Qed.

Lemma categoryResults_blind (req : Query) : streak_blind (categoryResults env w req).
Proof.
  unfold categoryResults.
  apply streak_blind_bind; [apply fetchGenreMap_blind |]. intro genreMapMovie.
  apply streak_blind_bind; [apply fetchGenreMap_blind |]. intro genreMapTv.
  apply streak_blind_Promise_all.
  apply Forall_forall. intros m Hm.
  apply in_map_iff in Hm. destruct Hm as [c [<- _]].
  apply fetchCategory_blind.
Qed.

Lemma getMoviesFromTmdb_blind (req : Query) :
  streak_blind (getMoviesFromTmdb env w req).
Proof.
  unfold getMoviesFromTmdb.
  apply streak_blind_bind; [apply categoryResults_blind |]. intro rows.
  apply streak_blind_bind.
  - unfold Promise_allSettled. apply streak_blind_settle_all.
    apply Forall_forall. intros m Hm.
    apply in_map_iff in Hm. destruct Hm as [t [<- _]].
    apply fetchTrailerEntry_blind.
  - intro trailerResults. cbv zeta.
    apply streak_blind_bind;
      [apply streak_blind_modify; apply streak_apart_reset_streak |]. intro.
    apply streak_blind_bind;
      [apply streak_blind_modify; apply streak_apart_set_deadline |]. intro.
    apply streak_blind_ret.
Qed.

Lemma recordFailure_blind : streak_blind (recordFailure env w).
Proof.
  intros s1 s2 (H1 & H2 & H3 & H4).
  unfold recordFailure, bind, modify, get_state. simpl.
  replace (tmdbFailureStreak s1 + 1 >=? 1)%Z with true
    by (symmetry; apply Z.geb_le; lia).
  replace (tmdbFailureStreak s2 + 1 >=? 1)%Z with true
    by (symmetry; apply Z.geb_le; lia).
  simpl. split; [reflexivity |].
  unfold streak_apart; simpl. repeat split; [exact H2 | lia | lia].
Qed.

Lemma getMovies_fallback_blind (req : Query) :
  streak_blind (getMovies_fallback seedMovies w req).
Proof.
  unfold getMovies_fallback.
  apply streak_blind_bind; [apply streak_blind_string_receiver |]. intro search.
  apply streak_blind_bind; [apply streak_blind_string_receiver |]. intro category.
  apply streak_blind_bind; [apply streak_blind_string_receiver |]. intro type.
  cbv zeta.
  destruct (readyState w =? 1)%Z; [| apply streak_blind_ret].
  destruct (Movie_find w _ _); [apply streak_blind_throw |].
  apply streak_blind_bind;
    [apply streak_blind_modify; apply streak_apart_reset_streak |]. intro.
  apply streak_blind_bind;
    [apply streak_blind_modify; apply streak_apart_set_deadline |]. intro.
  apply streak_blind_ret.
Qed.

(** The handler after it has read the clock and the deadline. *)
Lemma getMovies_body_blind (req : Query) (attempt : bool) :
  streak_blind
    (bind (if attempt
           then try_catch
                  (bind (getMoviesFromTmdb env w req) (fun r => ret (Some r)))
                  (fun _ => bind (recordFailure env w) (fun _ => ret None))
           else ret None)
          (fun early =>
             match early with
             | Some r => ret r
             | None => getMovies_fallback seedMovies w req
             end)).
Proof.
  apply streak_blind_bind.
  - destruct attempt; [| apply streak_blind_ret].
    apply streak_blind_try_catch.
    + apply streak_blind_bind; [apply getMoviesFromTmdb_blind |].
      intro; apply streak_blind_ret.
    + intro. apply streak_blind_bind; [apply recordFailure_blind |].
      intro; apply streak_blind_ret.
  - intros [r |]; [apply streak_blind_ret | apply getMovies_fallback_blind].
Qed.

Lemma getMovies_unfold (req : Query) (s : State) :
  getMovies env seedMovies w req s
  = try_catch
      (bind (if truthy_ostr (TMDB_API_KEY env)
                && negb (strict_eq_str (q_source req) "db")
                && negb (tmdbDisabledUntil s >? now w)%Z
             then try_catch
                    (bind (getMoviesFromTmdb env w req) (fun r => ret (Some r)))
                    (fun _ => bind (recordFailure env w) (fun _ => ret None))
             else ret None)
            (fun early =>
               match early with
               | Some r => ret r
               | None => getMovies_fallback seedMovies w req
               end))
      (fun error => ret (Next error)) s.
Proof. reflexivity. Qed.

Lemma getMovies_blind (req : Query) : streak_blind (getMovies env seedMovies w req).
Proof.
  intros s1 s2 H. pose proof H as (Hdu & _).
  rewrite !getMovies_unfold. rewrite <- Hdu.
  apply streak_blind_try_catch; [apply getMovies_body_blind | | exact H].
  intro; apply streak_blind_ret.
Qed.

End StreakBlind.

(** X12.  The failure streak is never read for a decision: two states that
    agree on the deadline (and on the calls made so far) and differ only in
    their streaks, neither negative, give the same outcome of a listing
    request, the same deadline afterwards and the same upstream calls. *)
Theorem streak_never_read {js : ECMAScript} (env : Env)
    (seedMovies : list SeedMovie) (w : World) (req : Query) (s1 s2 : State) :
  tmdbDisabledUntil s1 = tmdbDisabledUntil s2 ->
  upstreamCalls s1 = upstreamCalls s2 ->
  0 <= tmdbFailureStreak s1 ->
  0 <= tmdbFailureStreak s2 ->
  fst (getMovies env seedMovies w req s1) = fst (getMovies env seedMovies w req s2)
  /\ tmdbDisabledUntil (snd (getMovies env seedMovies w req s1))
     = tmdbDisabledUntil (snd (getMovies env seedMovies w req s2))
  /\ upstreamCalls (snd (getMovies env seedMovies w req s1))
     = upstreamCalls (snd (getMovies env seedMovies w req s2)).
Proof.
  intros Hdu Hcalls H1 H2.
  destruct (getMovies_blind env seedMovies w req s1 s2
              (conj Hdu (conj Hcalls (conj H1 H2)))) as [Hfst (Hd & Hc & _)].
  repeat split; assumption.
Qed.

Lemma streak_never_read_witness :
  tmdbDisabledUntil
    (snd (getMovies (js := DecimalRuntime) envWithKey []
            (worldAt 1000 upstreamDown 0) noQuery initialState))
  = tmdbDisabledUntil
      (snd (getMovies (js := DecimalRuntime) envWithKey []
              (worldAt 1000 upstreamDown 0) noQuery
              (set_tmdbFailureStreak 7 initialState))).
Proof.
  destruct (streak_never_read (js := DecimalRuntime) envWithKey []
              (worldAt 1000 upstreamDown 0) noQuery
              initialState (set_tmdbFailureStreak 7 initialState)
              eq_refl eq_refl ltac:(simpl; lia) ltac:(simpl; lia))
    as (_ & H & _).
  exact H.
Defined.

(* ================================================================== *)
(** ** The trailer endpoint and the tracker *)
(* ================================================================== *)

Lemma validTrailerType_dec (type : option string) :
  validTrailerType type \/ ~ validTrailerType type.
Proof.
  unfold validTrailerType. destruct type as [t |].
  - destruct (String.eqb_spec t "movie") as [-> | Hm]; [left; now left |].
    destruct (String.eqb_spec t "series") as [-> | Hs]; [left; now right |].
    right. intros [H | H]; inversion H; contradiction.
  - right. intros [H | H]; discriminate.
Qed.

(** X13.  The trailer endpoint neither consults nor updates the health
    tracker: it leaves both variables as they are, also when the upstream
    fails, and a well-formed request with a key configured makes exactly one
    upstream call whatever the deadline says; a rejected request (400 or
    503) makes none. *)
Theorem trailer_endpoint_ignores_tracker (env : Env) (w : World)
    (type id : option string) (s : State) :
  let s' := snd (getTmdbTrailer env w type id s) in
  tmdbDisabledUntil s' = tmdbDisabledUntil s
  /\ tmdbFailureStreak s' = tmdbFailureStreak s
  /\ (validTrailerType type -> truthy_ostr id = true ->
      truthy_ostr (TMDB_API_KEY env) = true ->
      exists path, upstreamCalls s' = path :: upstreamCalls s)
  /\ (~ validTrailerType type \/ truthy_ostr id = false
      \/ truthy_ostr (TMDB_API_KEY env) = false ->
      upstreamCalls s' = upstreamCalls s).
Proof.
  cbv zeta.
  destruct (validTrailerType_dec type) as [Hty | Hty].
  - destruct (normalizedType_valid type Hty) as (t & -> & Hnorm & Ht).
    destruct (truthy_ostr id) eqn:Hid.
    + destruct (truthy_ostr (TMDB_API_KEY env)) eqn:Hkey.
      * rewrite (getTmdbTrailer_lookup env w t id s Hty Hid Hkey).
        rewrite (fetchTrailerUrl_run env w (interp_str id) t s Hkey). cbv zeta.
        destruct (tmdbFetch_attempts w _ [] 0 2 "undefined") as [e | payload]; simpl;
          (repeat split; [intros; eexists; reflexivity |]);
          intros [H | [H | H]]; [contradiction | discriminate | discriminate
                                | contradiction | discriminate | discriminate].
      * unfold getTmdbTrailer, try_catch. rewrite Hnorm, Ht, Hid, Hkey. simpl.
        repeat split; try reflexivity. intros _ _ H; discriminate H.
    + unfold getTmdbTrailer, try_catch. rewrite Hnorm, Ht, Hid. simpl.
      repeat split; try reflexivity. intros _ H; discriminate H.
  - unfold getTmdbTrailer, try_catch.
    rewrite (normalizedType_invalid type Hty). simpl.
    repeat split; try reflexivity. intros H; contradiction.
Qed.

Lemma trailer_endpoint_ignores_tracker_witness :
  upstreamCalls
    (snd (getTmdbTrailer envWithKey (worldAt 1000 upstreamOne 0)
            (Some "movie") (Some "550")
            (set_tmdbDisabledUntil 999999 initialState)))
  = ["/movie/550/videos"].
Proof.
  destruct (trailer_endpoint_ignores_tracker envWithKey (worldAt 1000 upstreamOne 0)
              (Some "movie") (Some "550")
              (set_tmdbDisabledUntil 999999 initialState))
    as (_ & _ & H & _).
  destruct (H (or_introl eq_refl) eq_refl eq_refl) as [path Hpath].
  reflexivity.
Defined.

(* ================================================================== *)
(** ** The client: recognising upstream ids, lazy trailers, types *)
(* ================================================================== *)

Lemma strip_prefix_app (p s : string) : strip_prefix p (p ++ s) = Some s.
Proof.
  induction p as [| c p IH]; simpl.
  - destruct s; reflexivity.
  - now rewrite Ascii.eqb_refl.
Qed.

Lemma string_of_uint_digits (d : Decimal.uint) :
  all_digits (NilEmpty.string_of_uint d) = true.
Proof. induction d; simpl; auto. Qed.

Lemma string_of_uint_nonempty (d : Decimal.uint) :
  d <> Decimal.Nil -> NilEmpty.string_of_uint d <> "".
Proof. destruct d; simpl; intro H; try discriminate. contradiction. Qed.

(** The decimal text of an integer that is not negative: digits, at least
    one. *)
Lemma Z_to_string_digits (z : Z) :
  0 <= z -> Z_to_string z <> "" /\ all_digits (Z_to_string z) = true.
Proof.
  intro Hz. unfold Z_to_string. destruct z as [| p | p]; [| | lia].
  - split; [discriminate | reflexivity].
  - simpl. unfold NilZero.string_of_uint.
    pose proof (Unsigned.to_uint_nonnil p) as Hnil.
    destruct (Pos.to_uint p) as [| u | u | u | u | u | u | u | u | u | u];
      [contradiction | ..];
      (split; [simpl; discriminate | simpl; apply string_of_uint_digits]).
Qed.

Lemma matchTmdbId_upstream (type digits : string) :
  is_movie_or_series type -> digits <> "" -> all_digits digits = true ->
  matchTmdbId ("tmdb-" ++ type ++ "-" ++ digits) = Some (type, digits).
Proof.
  intros Hty Hne Hd. apply truthy_str_true in Hne.
  unfold matchTmdbId. rewrite strip_prefix_app.
  destruct Hty as [-> | ->].
  - unfold match_kind_digits at 1.
    change ("movie" ++ "-" ++ digits) with (("movie" ++ "-") ++ digits).
    rewrite strip_prefix_app, Hne, Hd. reflexivity.
  - unfold match_kind_digits.
    change (strip_prefix ("movie" ++ "-") ("series" ++ "-" ++ digits)) with (@None string).
    change ("series" ++ "-" ++ digits) with (("series" ++ "-") ++ digits).
    rewrite strip_prefix_app, Hne, Hd. reflexivity.
Qed.

Lemma matchTmdbId_store (o : ObjectId) : matchTmdbId (ObjectId_toString o) = None.
Proof.
  unfold matchTmdbId.
  destruct (ObjectId_toString_head o) as [-> | (c & r & -> & Ht & _)].
  - reflexivity.
  - cbn [strip_prefix].
    replace (Ascii.eqb "t" c) with false; [reflexivity |].
    symmetry. apply Ascii.eqb_neq. congruence.
Qed.

(** X14.  The id the upstream mapping gives a record is read back by the
    client's pattern [/^tmdb-(movie|series)-(\d+)$/]: for a type [movie] or
    [series] and an item id that is an integer from 0 to below 10^21 (those
    a template literal prints in plain decimal), the match captures that
    type and the decimal text of that id. *)
Theorem upstream_id_read_back {js : ECMAScript} (year : Z) (item : TmdbObject)
    (category type : string) (trailerMap : Map string) (isFeatured : bool) (z : Z) :
  is_movie_or_series type ->
  o_id item = Some z ->
  0 <= z < 10 ^ 21 ->
  matchTmdbId (cr_id (mapTmdbItem year item category type trailerMap isFeatured))
  = Some (type, Z_to_string z).
Proof.
  intros Hty Hid [Hz _]. simpl. rewrite Hid. simpl interp_id.
  destruct (Z_to_string_digits z Hz) as [Hne Hd].
  exact (matchTmdbId_upstream type (Z_to_string z) Hty Hne Hd).
Qed.

Lemma upstream_id_read_back_witness :
  matchTmdbId
    (cr_id (mapTmdbItem (js := DecimalRuntime) 2026 (itemOf 550 None)
              "Popular TV" "series" [] false))
  = Some ("series", "550").
Proof.
  apply (upstream_id_read_back (js := DecimalRuntime) 2026 (itemOf 550 None)
           "Popular TV" "series" [] false 550).
  - right; reflexivity.
  - reflexivity.
  - split; [lia | reflexivity].
Defined.

(** X15.  For a record that comes from the store or from the seed catalog
    the client's [resolveTrailerForItem] answers the record's own
    [trailerUrl] and never uses the network: such ids do not match the
    upstream pattern. *)
Theorem store_and_seed_trailers_are_local (get : Transport) (doc : MovieDoc)
    (seed : SeedMovie) :
  matchTmdbId (cr_id (normalizeMovie doc)) = None
  /\ matchTmdbId (cr_id (normalizeSeedMovie seed)) = None
  /\ resolveTrailerForItem get (Some (normalizeMovie doc)) = md_trailerUrl doc
  /\ resolveTrailerForItem get (Some (normalizeSeedMovie seed)) = sm_trailerUrl seed.
Proof.
  assert (Hdoc : matchTmdbId (cr_id (normalizeMovie doc)) = None)
    by apply matchTmdbId_store.
  assert (Hseed : matchTmdbId (cr_id (normalizeSeedMovie seed)) = None)
    by reflexivity.
  repeat split; try assumption.
  - unfold resolveTrailerForItem. rewrite Hdoc. simpl.
    unfold truthy_str. destruct (String.eqb_spec (md_trailerUrl doc) ""); simpl; congruence.
  - unfold resolveTrailerForItem. rewrite Hseed. simpl.
    unfold truthy_str. destruct (String.eqb_spec (sm_trailerUrl seed) ""); simpl; congruence.
Qed.

Lemma truthy_str_false (s : string) : truthy_str s = false -> s = "".
Proof.
  unfold truthy_str. destruct (String.eqb_spec s ""); simpl; [auto | discriminate].
Qed.

Lemma safeType_valid (type : string) :
  is_movie_or_series type ->
  (if (type =? "series")%string then "series" else "movie") = type.
Proof. intros [-> | ->]; reflexivity. Qed.

(** What the client reads from the trailer route for a well-formed
    request. *)
Lemma fetchTmdbTrailer_route (env : Env) (w : World) (s : State)
    (onError : Error -> Response) (type digits : string) :
  (forall e, exists m, body (onError e) = Message m) ->
  is_movie_or_series type -> digits <> "" ->
  match fetchTmdbTrailer (trailerRoute env w s onError) type digits with
  | inr url => url
  | inl _ => ""
  end
  = if truthy_ostr (TMDB_API_KEY env)
    then match fst (fetchTrailerUrl env w digits type s) with
         | inr url => url
         | inl _ => ""
         end
    else "".
Proof.
  intros Herr Hty Hne.
  assert (Hvalid : validTrailerType (Some type))
    by (destruct Hty as [-> | ->]; [left | right]; reflexivity).
  assert (Hid : truthy_ostr (Some digits) = true) by (now apply truthy_str_true).
  unfold fetchTmdbTrailer. rewrite (safeType_valid type Hty).
  unfold trailerRoute.
  destruct (truthy_ostr (TMDB_API_KEY env)) eqn:Hkey.
  - rewrite (getTmdbTrailer_lookup env w type (Some digits) s Hvalid Hid Hkey).
    simpl interp_str.
    destruct (fetchTrailerUrl env w digits type s) as [[e | url] s1]; simpl fst.
    + destruct (Herr e) as [m Hm].
      destruct (response_ok (onError e)); [rewrite Hm |]; reflexivity.
    + destruct (truthy_str url) eqn:Hurl; simpl.
      * reflexivity.
      * symmetry. now apply truthy_str_false.
  - destruct (normalizedType_valid (Some type) Hvalid) as (t & Heq & Hnorm & Ht).
    inversion Heq; subst t.
    unfold getTmdbTrailer, try_catch. rewrite Hnorm, Ht, Hid, Hkey. reflexivity.
Qed.

(** X16.  Lazy trailer resolution, end to end.  For a record of an upstream
    listing that carries no trailer and whose item id is an integer from 0
    to below 10^21, the client's [resolveTrailerForItem], served by the
    trailer route, answers exactly the URL the server's [fetchTrailerUrl]
    finds for that id and type, and the empty string when that lookup
    fails, finds nothing, or no API key is configured. *)
Theorem lazy_trailer_resolution {js : ECMAScript} (env : Env) (w : World)
    (s : State) (onError : Error -> Response) (year : Z) (item : TmdbObject)
    (category type : string) (trailerMap : Map string) (isFeatured : bool) (z : Z) :
  (forall e, exists m, body (onError e) = Message m) ->
  is_movie_or_series type ->
  o_id item = Some z ->
  0 <= z < 10 ^ 21 ->
  cr_trailerUrl (mapTmdbItem year item category type trailerMap isFeatured) = "" ->
  resolveTrailerForItem (trailerRoute env w s onError)
    (Some (mapTmdbItem year item category type trailerMap isFeatured))
  = if truthy_ostr (TMDB_API_KEY env)
    then match fst (fetchTrailerUrl env w (Z_to_string z) type s) with
         | inr url => url
         | inl _ => ""
         end
    else "".
Proof.
  intros Herr Hty Hid [Hz _] Hnone.
  destruct (Z_to_string_digits z Hz) as [Hne Hd].
  unfold resolveTrailerForItem. rewrite Hnone. cbn [truthy_str String.eqb negb].
  assert (Hmatch : matchTmdbId
                     (cr_id (mapTmdbItem year item category type trailerMap isFeatured))
                   = Some (type, Z_to_string z)).
  { simpl. rewrite Hid. simpl interp_id.
    exact (matchTmdbId_upstream type (Z_to_string z) Hty Hne Hd). }
  rewrite Hmatch.
  exact (fetchTmdbTrailer_route env w s onError type (Z_to_string z) Herr Hty Hne).
Qed.

Lemma lazy_trailer_resolution_witness :
  resolveTrailerForItem
    (trailerRoute envWithKey (worldAt 1000 upstreamOne 0) initialState
       (fun _ => {| status := 500; body := Message "Internal server error" |}))
    (Some (mapTmdbItem (js := DecimalRuntime) 2026 (itemOf 550 None)
             "Popular Movies" "movie" [] false))
  = "https://www.youtube.com/embed/abc".
Proof.
  rewrite (lazy_trailer_resolution (js := DecimalRuntime) envWithKey
             (worldAt 1000 upstreamOne 0) initialState
             (fun _ => {| status := 500; body := Message "Internal server error" |})
             2026 (itemOf 550 None) "Popular Movies" "movie" [] false 550
             ltac:(intro; eexists; reflexivity)
             (or_introl eq_refl) eq_refl ltac:(split; [lia | reflexivity]) eq_refl).
  reflexivity.
Defined.

(** X17.  The client's [normalizeContentType] answers [movie], [series] or
    the empty string, applying it twice changes nothing, and it leaves the
    two types of the catalog as they are. *)
Theorem normalizeContentType_idempotent (type : option string) :
  (normalizeContentType type = "movie"
   \/ normalizeContentType type = "series"
   \/ normalizeContentType type = "")
  /\ normalizeContentType (Some (normalizeContentType type))
     = normalizeContentType type
  /\ (forall t, is_movie_or_series t -> normalizeContentType (Some t) = t).
Proof.
  split; [| split].
  - unfold normalizeContentType.
    destruct (toLowerCase (trim (or_str type "")) =? "movie")%string; [auto |].
    destruct (existsb _ _); auto.
  - unfold normalizeContentType at 2 3.
    destruct (toLowerCase (trim (or_str type "")) =? "movie")%string; [reflexivity |].
    destruct (existsb _ _); reflexivity.
  - intros t [-> | ->]; reflexivity.
Qed.

Lemma normalizeContentType_idempotent_witness :
  normalizeContentType (Some "  TV Series ") = "series"
  /\ normalizeContentType (Some "series") = "series".
Proof.
  split; [reflexivity |].
  destruct (normalizeContentType_idempotent (Some "series")) as (_ & _ & H).
  apply H. right; reflexivity.
Defined.

(* ================================================================== *)
(** ** Row titles of an upstream listing *)
(* ================================================================== *)








(* ================================================================== *)
(** ** The seed listing, end to end *)
(* ================================================================== *)

Lemma filter_fuse {A : Type} (p q : A -> bool) (l : list A) :
  filter q (filter p l) = filter (fun x => p x && q x) l.
Proof.
  induction l as [| x l IH]; [reflexivity |]. simpl.
  destruct (p x); simpl; [| exact IH].
  destruct (q x); [now rewrite IH | exact IH].
Qed.

(** The four [.filter] calls are one pass with the conjunction of their
    tests. *)
Lemma filteredSeed_one_pass (seedMovies : list SeedMovie)
    (search category type : string) (featured : jsval) (limit : jsnum) :
  filteredSeed seedMovies search category type featured limit
  = slice0 (filter (seed_keeps search category type featured) seedMovies) limit.
Proof.
  unfold filteredSeed. rewrite !filter_fuse. f_equal.
  apply filter_ext. intro movie. unfold seed_keeps.
  now rewrite !andb_assoc.
Qed.

(** X19.  The seed listing, end to end.  When the upstream is not attempted
    (no key, [source=db], or cooldown running) and the store is not
    connected, a request with textual filters is answered with status 200
    and exactly those catalog records, in catalog order and cut at the
    capped limit, whose type and category equal the given ones, whose
    lowercased title contains the lowercased search text, and that are
    featured when [featured] is [true]; the state is left as it was. *)
Theorem seed_listing_exact {js : ECMAScript} (env : Env)
    (seedMovies : list SeedMovie) (w : World) (req : Query) (s : State) :
  upstreamEligible env w req s = false ->
  readyState w <> 1 ->
  textual (q_search req) -> textual (q_category req) -> textual (q_type req) ->
  let kept :=
    slice0
      (filter (seed_keeps (text_of (q_search req)) (text_of (q_category req))
                 (text_of (q_type req)) (default_to (q_featured req) ""))
              seedMovies)
      (cappedLimit req) in
  getMovies env seedMovies w req s
  = (inr (Sent {| status := 200;
                  body := Listing (List.length kept) (map normalizeSeedMovie kept) |}),
     s).
Proof.
  intros He Hready Hs Hc Ht kept.
  rewrite (getMovies_not_eligible env seedMovies w req s He).
  unfold guardedFallback, try_catch.
  rewrite (getMovies_fallback_textual seedMovies w req s Hs Hc Ht). cbv zeta.
  apply Z.eqb_neq in Hready. rewrite Hready.
  rewrite filteredSeed_one_pass. reflexivity.
Qed.

Lemma seed_listing_exact_witness :
  fst (getMovies (js := DecimalRuntime) envNoKey
         [ seedOf "Heat" "movie" "Crime" true;
           seedOf "The Wire" "series" "Crime" false;
           seedOf "Up" "movie" "Family" false ]
         (worldAt 1000 upstreamDown 0)
         {| q_search := JUndef; q_category := JUndef; q_type := JStr "movie";
            q_featured := JUndef; q_limit := JStr "5"; q_source := JUndef;
            q_perCategory := JUndef |}
         initialState)
  = inr (Sent {| status := 200;
                 body := Listing 2
                           (map normalizeSeedMovie
                              [ seedOf "Heat" "movie" "Crime" true;
                                seedOf "Up" "movie" "Family" false ]) |}).
Proof.
  rewrite (seed_listing_exact (js := DecimalRuntime) envNoKey
             [ seedOf "Heat" "movie" "Crime" true;
               seedOf "The Wire" "series" "Crime" false;
               seedOf "Up" "movie" "Family" false ]
             (worldAt 1000 upstreamDown 0)
             {| q_search := JUndef; q_category := JUndef; q_type := JStr "movie";
                q_featured := JUndef; q_limit := JStr "5"; q_source := JUndef;
                q_perCategory := JUndef |}
             initialState eq_refl ltac:(simpl; lia)
             (or_introl eq_refl) (or_introl eq_refl)
             (or_intror (ex_intro _ "movie" eq_refl))).
  reflexivity.
Defined.

(* ================================================================== *)
(** ** The upstream path and the request's filters *)
(* ================================================================== *)

Lemma getMoviesFromTmdb_perCategory_only {js : ECMAScript} (env : Env) (w : World)
    (req1 req2 : Query) (s : State) :
  q_perCategory req1 = q_perCategory req2 ->
  getMoviesFromTmdb env w req1 s = getMoviesFromTmdb env w req2 s.
Proof.
  intro H.
  assert (Hper : perCategory req1 = perCategory req2)
    by (unfold perCategory; now rewrite H).
  unfold getMoviesFromTmdb, categoryResults, fetchCategory.
  rewrite Hper. reflexivity.
Qed.

(** X20.  When the upstream answers, the listing does not depend on the
    request's [search], [category], [type], [featured] or [limit]: two
    requests that agree on [perCategory] and are both eligible for the
    upstream receive the same response and leave the same state. *)
Theorem upstream_listing_ignores_filters {js : ECMAScript} (env : Env)
    (seedMovies : list SeedMovie) (w : World) (req1 req2 : Query)
    (s s' : State) (o : Outcome) :
  q_perCategory req1 = q_perCategory req2 ->
  upstreamEligible env w req1 s = true ->
  upstreamEligible env w req2 s = true ->
  getMoviesFromTmdb env w req1 s = (inr o, s') ->
  getMovies env seedMovies w req1 s = (inr o, s')
  /\ getMovies env seedMovies w req2 s = (inr o, s').
Proof.
  intros Hper He1 He2 Hup. split.
  - exact (getMovies_upstream_ok env seedMovies w req1 s s' o He1 Hup).
  - apply (getMovies_upstream_ok env seedMovies w req2 s s' o He2).
    rewrite <- (getMoviesFromTmdb_perCategory_only env w req1 req2 s Hper).
    exact Hup.
Qed.

Lemma upstream_listing_ignores_filters_witness :
  getMovies (js := DecimalRuntime) envWithKey [] (worldAt 1000 upstreamOne 0)
    {| q_search := JStr "zzz"; q_category := JStr "Drama"; q_type := JStr "series";
       q_featured := JStr "true"; q_limit := JStr "1"; q_source := JUndef;
       q_perCategory := JUndef |}
    initialState
  = getMovies (js := DecimalRuntime) envWithKey [] (worldAt 1000 upstreamOne 0)
      noQuery initialState.
Proof.
  destruct (getMoviesFromTmdb (js := DecimalRuntime) envWithKey
              (worldAt 1000 upstreamOne 0) noQuery initialState)
    as [[e | o] s'] eqn:Hup; [vm_compute in Hup; discriminate Hup |].
  destruct (upstream_listing_ignores_filters (js := DecimalRuntime) envWithKey []
              (worldAt 1000 upstreamOne 0) noQuery
              {| q_search := JStr "zzz"; q_category := JStr "Drama";
                 q_type := JStr "series"; q_featured := JStr "true";
                 q_limit := JStr "1"; q_source := JUndef;
                 q_perCategory := JUndef |}
              initialState s' o eq_refl eq_refl eq_refl Hup) as [H1 H2].
  rewrite H1, H2. reflexivity.
Defined.

(* ================================================================== *)
(** ** Normalisation: seed slugs and upstream images *)
(* ================================================================== *)

Lemma lower_char_not_upper (c : ascii) : is_upper (lower_char c) = false.
Proof. destruct c as [[] [] [] [] [] [] [] []]; reflexivity. Qed.

Lemma some_char_app (test : ascii -> bool) (a b : string) :
  some_char test (a ++ b) = some_char test a || some_char test b.
Proof.
  induction a as [| c a IH]; simpl; [reflexivity |].
  now rewrite IH, orb_assoc.
Qed.

Lemma toLowerCase_no_upper (s : string) : some_char is_upper (toLowerCase s) = false.
Proof.
  induction s as [| c s IH]; simpl; [reflexivity |].
  now rewrite lower_char_not_upper, IH.
Qed.

Lemma replace_ws_no_space (inrun : bool) (s : string) :
  some_char is_space (replace_ws inrun s) = false.
Proof.
  revert inrun. induction s as [| c s IH]; intro inrun; simpl; [reflexivity |].
  destruct (is_space c) eqn:Hc.
  - destruct inrun; simpl; apply IH.
  - simpl. now rewrite Hc, IH.
Qed.

Lemma replace_ws_no_upper (inrun : bool) (s : string) :
  some_char is_upper s = false -> some_char is_upper (replace_ws inrun s) = false.
Proof.
  revert inrun. induction s as [| c s IH]; intros inrun H; simpl in *; [reflexivity |].
  apply orb_false_iff in H. destruct H as [Hc Hs].
  destruct (is_space c).
  - destruct inrun; simpl; now apply IH.
  - simpl. now rewrite Hc, IH.
Qed.

(** X21.  The id of a seed record is a slug: it holds no white space and no
    ASCII capital letter, whatever the title. *)
Theorem seed_id_is_slug (movie : SeedMovie) :
  some_char is_space (cr_id (normalizeSeedMovie movie)) = false
  /\ some_char is_upper (cr_id (normalizeSeedMovie movie)) = false.
Proof.
  simpl. split.
  - apply replace_ws_no_space.
  - apply replace_ws_no_upper, toLowerCase_no_upper.
Qed.

Lemma image_base_nonempty (size path : string) :
  TMDB_IMAGE_BASE ++ size ++ path <> "".
Proof. unfold TMDB_IMAGE_BASE. simpl. discriminate. Qed.

(** X22.  An upstream record has an image exactly when it has a backdrop:
    both are empty when the item has neither a poster path nor a backdrop
    path, and otherwise both are URLs under the image base; without a
    backdrop path the backdrop is the image itself. *)
Theorem image_and_backdrop_together {js : ECMAScript} (year : Z) (item : TmdbObject)
    (category type : string) (trailerMap : Map string) (isFeatured : bool) :
  let record := mapTmdbItem year item category type trailerMap isFeatured in
  (cr_image record = "" <-> cr_backdrop record = "")
  /\ (cr_image record = ""
      <-> truthy_ostr (o_poster_path item) = false
          /\ truthy_ostr (o_backdrop_path item) = false)
  /\ (cr_image record <> "" -> prefix TMDB_IMAGE_BASE (cr_image record) = true)
  /\ (cr_backdrop record <> "" -> prefix TMDB_IMAGE_BASE (cr_backdrop record) = true)
  /\ (truthy_ostr (o_backdrop_path item) = false ->
      cr_backdrop record = cr_image record).
Proof.
  simpl.
  destruct (truthy_ostr (o_poster_path item)), (truthy_ostr (o_backdrop_path item));
    repeat split; intros; try reflexivity; try discriminate;
    try (exfalso; eapply image_base_nonempty; eassumption);
    try (destruct H; discriminate);
    try contradiction.
Qed.

Lemma image_and_backdrop_together_witness :
  cr_backdrop (mapTmdbItem (js := DecimalRuntime) 2026
                 {| o_id := Some 1; o_title := None; o_name := None;
                    o_release_date := None; o_first_air_date := None;
                    o_poster_path := Some "/p.jpg"; o_backdrop_path := None;
                    o_overview := None; o_adult := None; o_site := None;
                    o_type := None; o_key := None |}
                 "Now Playing" "movie" [] false)
  = "https://image.tmdb.org/t/p/w500/p.jpg".
Proof.
  destruct (image_and_backdrop_together (js := DecimalRuntime) 2026
              {| o_id := Some 1; o_title := None; o_name := None;
                 o_release_date := None; o_first_air_date := None;
                 o_poster_path := Some "/p.jpg"; o_backdrop_path := None;
                 o_overview := None; o_adult := None; o_site := None;
                 o_type := None; o_key := None |}
              "Now Playing" "movie" [] false) as (_ & _ & _ & _ & H).
  rewrite (H eq_refl). reflexivity.
Defined.

(* ================================================================== *)
(** ** The records of an upstream listing *)
(* ================================================================== *)

Lemma settle_all_Forall {A : Type} (P : Error + A -> Prop) (ms : list (M A)) :
  (forall m, In m ms -> forall s r s', m s = (r, s') -> P r) ->
  forall s rs s', settle_all ms s = (inr rs, s') -> Forall P rs.
Proof.
  induction ms as [| m ms IH]; intros Hms s rs s' Hrun; simpl in Hrun.
  - inversion Hrun; subst. constructor.
  - unfold bind, settle in Hrun.
    destruct (m s) as [r s1] eqn:Hm.
    destruct (settle_all ms s1) as [[e | rs1] s2] eqn:Hrest; [discriminate |].
    unfold ret in Hrun. inversion Hrun; subst. constructor.
    + eapply Hms; [now left | exact Hm].
    + eapply IH; [| exact Hrest]. intros m' Hin. apply Hms. now right.
Qed.

Lemma Map_of_entries_from {V : Type} (entries : list (string * V)) (acc : Map V)
    (k : string) (v : V) :
  Map_get (fold_left (fun m kv => Map_set m (fst kv) (snd kv)) entries acc) k = Some v ->
  In (k, v) entries \/ Map_get acc k = Some v.
Proof.
  revert acc. induction entries as [| [k0 v0] entries IH]; intros acc H; simpl in H.
  - now right.
  - destruct (IH _ H) as [Hin | Hget]; [left; now right |].
    simpl in Hget.
    destruct (String.eqb_spec k k0) as [-> | Hne].
    + rewrite Map_get_set_same in Hget. inversion Hget; subst. left; now left.
    + rewrite Map_get_set_other in Hget by assumption. now right.
Qed.

Lemma Map_of_entries_sound {V : Type} (entries : list (string * V))
    (k : string) (v : V) :
  Map_get (Map_of_entries entries) k = Some v -> In (k, v) entries.
Proof.
  unfold Map_of_entries. intro H.
  destruct (Map_of_entries_from entries [] k v H) as [Hin | Hget];
    [exact Hin | discriminate Hget].
Qed.

Lemma fetchTrailerUrl_embed (env : Env) (w : World) (id type : string)
    (s : State) (url : string) :
  fst (fetchTrailerUrl env w id type s) = inr url -> embed_or_empty url.
Proof.
  unfold fetchTrailerUrl, bind.
  destruct (tmdbFetch env w _ [] s) as [[e | payload] s1]; [discriminate |].
  unfold ret. cbn [fst].
  match goal with
  | |- context [first_preferred ?kinds ?results] =>
      destruct (first_preferred kinds results) as [video |]
  end; intro H; injection H as <-.
  - right. simpl.
    first [ reflexivity
          | match goal with |- prefix "" ?x = true => destruct x; reflexivity end ].
  - left. reflexivity.
Qed.

Lemma fetchTrailerEntry_embed (env : Env) (w : World) (target : TrailerTarget)
    (s s' : State) (r : Error + string * string) :
  fetchTrailerEntry env w target s = (r, s') ->
  match r with
  | inr (_, url) => embed_or_empty url
  | inl _ => True
  end.
Proof.
  unfold fetchTrailerEntry, bind.
  pose proof (fetchTrailerUrl_embed env w (interp_id (t_id target)) (t_type target) s) as H.
  destruct (fetchTrailerUrl env w _ _ s) as [[e | url] s1]; simpl in *;
    intro Hr; inversion Hr; subst; [exact I |].
  now apply H.
Qed.

Lemma trailerEntries_embed (results : list (Error + string * string)) :
  Forall (fun r => match r with
                   | inr (_, url) => embed_or_empty url
                   | inl _ => True
                   end) results ->
  forall key url, In (key, url) (trailerEntries results) -> embed_or_empty url.
Proof.
  intros Hall key url Hin. unfold trailerEntries in Hin.
  apply in_flat_map in Hin. destruct Hin as (r & Hr & Hin).
  rewrite Forall_forall in Hall. specialize (Hall r Hr).
  destruct r as [e | [k u]]; [contradiction |].
  destruct (truthy_str u); [| contradiction].
  destruct Hin as [Heq | []]. inversion Heq; subst. exact Hall.
Qed.

(** The listing the upstream path sends, with the trailers it looked up. *)
Lemma getMoviesFromTmdb_listing_trailers {js : ECMAScript} (env : Env) (w : World)
    (req : Query) (s s' : State) (o : Outcome) :
  getMoviesFromTmdb env w req s = (inr o, s') ->
  exists rows s1 trailerResults s2,
    categoryResults env w req s = (inr rows, s1)
    /\ settle_all (map (fetchTrailerEntry env w) (trailerTargets rows)) s1
       = (inr trailerResults, s2)
    /\ o = Sent {| status := 200;
                   body := Listing
                     (List.length
                        (tmdbData w rows (Map_of_entries (trailerEntries trailerResults))))
                     (tmdbData w rows (Map_of_entries (trailerEntries trailerResults))) |}.
Proof.
  unfold getMoviesFromTmdb, bind at 1.
  destruct (categoryResults env w req s) as [[e1 | rows] s1]; [discriminate |].
  unfold bind at 1, Promise_allSettled.
  destruct (settle_all _ s1) as [[e2 | rs] s2] eqn:Hsettle; [discriminate |].
  unfold bind, modify, ret. simpl.
  intro H; inversion H; subst.
  exists rows, s1, rs, s2. repeat split; first [reflexivity | exact Hsettle].
Qed.

(** X23.  Every record of an upstream listing is well formed: its type is
    [movie] with duration [Movie] or [series] with duration [Series], its
    id begins with [tmdb-] followed by that type, its rating is [13+] or
    [18+], it carries no timestamps, and its trailer is empty or a YouTube
    embed URL. *)
Theorem upstream_records_well_formed {js : ECMAScript} (env : Env) (w : World)
    (req : Query) (s s' : State) (count : nat) (data : list ContentRecord) :
  getMoviesFromTmdb env w req s
  = (inr (Sent {| status := 200; body := Listing count data |}), s') ->
  Forall
    (fun record =>
       ((cr_type record = "movie" /\ cr_duration record = "Movie"
         /\ prefix "tmdb-movie-" (cr_id record) = true)
        \/ (cr_type record = "series" /\ cr_duration record = "Series"
            /\ prefix "tmdb-series-" (cr_id record) = true))
       /\ (cr_rating record = "13+" \/ cr_rating record = "18+")
       /\ cr_createdAt record = None /\ cr_updatedAt record = None
       /\ embed_or_empty (cr_trailerUrl record))
    data.
Proof.
  intro Hrun.
  destruct (getMoviesFromTmdb_listing_trailers env w req s s' _ Hrun)
    as (rows & s1 & trailerResults & s2 & Hrows & Hsettle & Ho).
  inversion Ho; subst. clear Ho.
  destruct (categoryResults_returns env w req s s1 rows Hrows)
    as (genreMapMovie & genreMapTv & Hall).
  pose proof (category_rows_types genreMapMovie genreMapTv) as Htypes.
  rewrite Forall_forall in Htypes.
  assert (Hembed : forall key url,
             In (key, url) (trailerEntries trailerResults) -> embed_or_empty url).
  { apply trailerEntries_embed.
    eapply settle_all_Forall; [| exact Hsettle].
    intros m Hm t r t' Hr.
    apply in_map_iff in Hm. destruct Hm as (target & <- & _).
    eapply fetchTrailerEntry_embed; exact Hr. }
  apply Forall_forall. intros record Hrec.
  apply tmdbData_In in Hrec.
  destruct Hrec as (row & item & isFeatured & Hrow & _ & ->).
  destruct (Forall2_right_In _ _ _ _ Hall Hrow) as (category & Hcat & [<- _]).
  specialize (Htypes _ Hcat). simpl.
  repeat split.
  - destruct Htypes as [Ht | Ht]; rewrite Ht; [left | right];
      (split; [reflexivity | split; [reflexivity |]]); simpl;
      first [ reflexivity
            | match goal with |- prefix "" ?x = true => destruct x; reflexivity end ].
  - destruct (truthy_obool (o_adult item)); [now right | now left].
  - match goal with
    | |- embed_or_empty (or_str ?o "") =>
        destruct o as [url |] eqn:Hget; simpl; [| now left]
    end.
    destruct (truthy_str url); [| now left].
    apply Map_of_entries_sound in Hget. eapply Hembed; exact Hget.
Qed.

Lemma upstream_records_well_formed_witness :
  exists record s',
    getMoviesFromTmdb (js := DecimalRuntime) envWithKey
      (worldAt 1000 upstreamOne 0) noQuery initialState
    = (inr (Sent {| status := 200; body := Listing 1 [record] |}), s')
    /\ embed_or_empty (cr_trailerUrl record).
Proof.
  eexists; eexists. split; [vm_compute; reflexivity |].
  pose proof (upstream_records_well_formed (js := DecimalRuntime) envWithKey
                (worldAt 1000 upstreamOne 0) noQuery initialState _ _ _ eq_refl) as H.
  inversion H as [| record rest (_ & _ & _ & _ & Hembed) _]. exact Hembed.
Defined.

(* ================================================================== *)
(** ** Eligibility decides whether the upstream is called *)
(* ================================================================== *)

Lemma calls_grow_refl (s : State) : calls_grow s s.
Proof. unfold calls_grow; lia. Qed.

Lemma calls_grow_trans (s1 s2 s3 : State) :
  calls_grow s1 s2 -> calls_grow s2 s3 -> calls_grow s1 s3.
Proof. unfold calls_grow; lia. Qed.

Lemma frames_after_bind {A B : Type} (R : State -> State -> Prop)
    (m : M A) (k : A -> M B) :
  (forall s, R s s) ->
  (forall a, frames R (k a)) ->
  forall s, R (snd (m s)) (snd (bind m k s)).
Proof.
  intros Hrefl Hk s. unfold bind.
  destruct (m s) as [[e | a] s1]; simpl; [apply Hrefl | apply Hk].
Qed.

Section CallsGrow.
Context {js : ECMAScript}.
Variable env : Env.
Variable w : World.

Lemma tmdbFetch_grows (path : string) (params : list (string * string)) :
  frames calls_grow (tmdbFetch env w path params).
Proof. intro s. rewrite tmdbFetch_state. unfold calls_grow. simpl. lia. Qed.

Lemma after_fetch_grows {A : Type} (path : string) (params : list (string * string))
    (f : Payload -> A) :
  frames calls_grow (bind (tmdbFetch env w path params) (fun payload => ret (f payload))).
Proof.
  apply (frames_bind calls_grow calls_grow_trans); [apply tmdbFetch_grows |].
  intro. apply (frames_ret calls_grow calls_grow_refl).
Qed.

Lemma rows_and_trailers_grow (req : Query) (genreMapMovie : Map Z) :
  frames calls_grow
    (bind
       (bind (fetchGenreMap env w "series")
             (fun genreMapTv =>
                Promise_all
                  (map (fetchCategory env w req)
                       (categories ++ genreCategories genreMapMovie genreMapTv)%list)))
       (fun results =>
          bind (Promise_allSettled
                  (map (fetchTrailerEntry env w) (trailerTargets results)))
               (fun trailerResults =>
                  let trailerMap := Map_of_entries (trailerEntries trailerResults) in
                  let data := tmdbData w results trailerMap in
                  bind (modify (set_tmdbFailureStreak 0))
                       (fun _ =>
                          bind (modify (set_tmdbDisabledUntil 0))
                               (fun _ =>
                                  ret (Sent {| status := 200;
                                               body := Listing (List.length data) data |})))))).
Proof.
  apply (frames_bind calls_grow calls_grow_trans).
  - apply (frames_bind calls_grow calls_grow_trans).
    + unfold fetchGenreMap. apply after_fetch_grows.
    + intro genreMapTv.
      apply (frames_Promise_all calls_grow calls_grow_refl calls_grow_trans).
      apply Forall_forall. intros m Hm.
      apply in_map_iff in Hm. destruct Hm as [c [<- _]].
      unfold fetchCategory. apply after_fetch_grows.
  - intro results.
    apply (frames_bind calls_grow calls_grow_trans).
    + unfold Promise_allSettled.
      apply (frames_settle_all calls_grow calls_grow_refl calls_grow_trans).
      apply Forall_forall. intros m Hm.
      apply in_map_iff in Hm. destruct Hm as [t [<- _]].
      unfold fetchTrailerEntry, fetchTrailerUrl.
      apply (frames_bind calls_grow calls_grow_trans); [apply after_fetch_grows |].
      intro. apply (frames_ret calls_grow calls_grow_refl).
    + intro trailerResults. cbv zeta.
      apply (frames_bind calls_grow calls_grow_trans);
        [apply frames_modify; intro; unfold calls_grow; simpl; lia |]. intro.
      apply (frames_bind calls_grow calls_grow_trans);
        [apply frames_modify; intro; unfold calls_grow; simpl; lia |]. intro.
      apply (frames_ret calls_grow calls_grow_refl).
Qed.

(** The upstream path begins with a call for the movie genres. *)
Lemma getMoviesFromTmdb_calls_first (req : Query) (s : State) :
  (List.length (upstreamCalls s) + 1
   <= List.length (upstreamCalls (snd (getMoviesFromTmdb env w req s))))%nat.
Proof.
  assert (Hassoc :
    getMoviesFromTmdb env w req s
    = bind (fetchGenreMap env w "movie")
        (fun genreMapMovie =>
           bind
             (bind (fetchGenreMap env w "series")
                   (fun genreMapTv =>
                      Promise_all
                        (map (fetchCategory env w req)
                             (categories ++ genreCategories genreMapMovie genreMapTv)%list)))
             (fun results =>
                bind (Promise_allSettled
                        (map (fetchTrailerEntry env w) (trailerTargets results)))
                     (fun trailerResults =>
                        let trailerMap := Map_of_entries (trailerEntries trailerResults) in
                        let data := tmdbData w results trailerMap in
                        bind (modify (set_tmdbFailureStreak 0))
                             (fun _ =>
                                bind (modify (set_tmdbDisabledUntil 0))
                                     (fun _ =>
                                        ret (Sent {| status := 200;
                                                     body := Listing (List.length data) data |}))))))
        s).
  { unfold getMoviesFromTmdb, categoryResults. unfold bind at 1 2 3.
    unfold bind at 4.
    destruct (fetchGenreMap env w "movie" s) as [[e | genreMapMovie] s1]; reflexivity. }
  rewrite Hassoc.
  pose proof (frames_after_bind calls_grow (fetchGenreMap env w "movie") _
                calls_grow_refl (rows_and_trailers_grow req) s) as Hrest.
  unfold calls_grow in Hrest.
  assert (Hfirst : snd (fetchGenreMap env w "movie" s) = log_call "/genre/movie/list" s).
  { unfold fetchGenreMap. unfold bind.
    pose proof (tmdbFetch_state env w "/genre/movie/list" [] s) as Hst. simpl in Hst |- *.
    destruct (tmdbFetch env w "/genre/movie/list" [] s) as [[e | payload] s1];
      simpl in *; exact Hst. }
  rewrite Hfirst in Hrest. cbn [log_call upstreamCalls List.length] in Hrest.
  apply (Nat.le_trans _ (S (List.length (upstreamCalls s)))); [lia | exact Hrest].
Qed.

Lemma recordFailure_same_calls (s : State) :
  upstreamCalls (snd (recordFailure env w s)) = upstreamCalls s.
Proof.
  unfold recordFailure, bind, modify, get_state. simpl.
  destruct (tmdbFailureStreak s + 1 >=? 1)%Z; reflexivity.
Qed.

End CallsGrow.

Lemma getMovies_eligible_calls {js : ECMAScript} (env : Env)
    (seedMovies : list SeedMovie) (w : World) (req : Query) (s : State) :
  upstreamEligible env w req s = true ->
  upstreamCalls (snd (getMovies env seedMovies w req s))
  = upstreamCalls (snd (getMoviesFromTmdb env w req s)).
Proof.
  intro He.
  destruct (getMoviesFromTmdb env w req s) as [[e | o] s1] eqn:Hup.
  - destruct (recordFailure_returns env w s1) as [s2 Hrec].
    pose proof (recordFailure_same_calls env w s1) as Hcalls.
    rewrite Hrec in Hcalls. simpl in Hcalls.
    assert (Hrun : getMovies env seedMovies w req s
                   = guardedFallback seedMovies w req s2).
    { unfold getMovies, upstreamEligible in *.
      unfold try_catch at 1. unfold bind at 1. unfold get_state at 1.
      unfold bind at 1. rewrite He.
      unfold try_catch at 1. unfold bind at 1. rewrite Hup.
      unfold bind at 1. rewrite Hrec. reflexivity. }
    rewrite Hrun. simpl.
    rewrite (guardedFallback_calls seedMovies w req s2). exact Hcalls.
  - now rewrite (getMovies_upstream_ok env seedMovies w req s s1 o He Hup).
Qed.

Lemma strict_eq_str_false (v : jsval) (text : string) :
  strict_eq_str v text = false <-> v <> JStr text.
Proof.
  destruct v as [| t | l]; simpl.
  - split; [discriminate | reflexivity].
  - destruct (String.eqb_spec t text) as [-> | Hne]; split; congruence.
  - split; [discriminate | reflexivity].
Qed.

(** X24.  A listing request calls the upstream exactly when an API key is
    configured, its [source] is not the string [db], and the deadline is
    not after the current time; at [now = tmdbDisabledUntil] the cooldown
    is over.  In every other case no upstream call is made. *)
Theorem upstream_called_iff_eligible {js : ECMAScript} (env : Env)
    (seedMovies : list SeedMovie) (w : World) (req : Query) (s : State) :
  upstreamCalls (snd (getMovies env seedMovies w req s)) <> upstreamCalls s
  <-> (truthy_ostr (TMDB_API_KEY env) = true
       /\ q_source req <> JStr "db"
       /\ tmdbDisabledUntil s <= now w).
Proof.
  destruct (upstreamEligible env w req s) eqn:He.
  - pose proof He as Hparts. unfold upstreamEligible in Hparts.
    apply andb_true_iff in Hparts. destruct Hparts as [Hparts Hdu].
    apply andb_true_iff in Hparts. destruct Hparts as [Hkey Hsrc].
    apply negb_true_iff in Hsrc, Hdu.
    apply strict_eq_str_false in Hsrc.
    split.
    + intros _. repeat split; try assumption.
      destruct (Z.gtb_spec (tmdbDisabledUntil s) (now w)); [discriminate | lia].
    + intros _ Heq.
      pose proof (getMovies_eligible_calls env seedMovies w req s He) as Hcalls.
      pose proof (getMoviesFromTmdb_calls_first env w req s) as Hfirst.
      rewrite <- Hcalls, Heq in Hfirst. lia.
  - split.
    + intro Hne. exfalso. apply Hne.
      rewrite (getMovies_not_eligible env seedMovies w req s He).
      apply guardedFallback_calls.
    + intros (Hkey & Hsrc & Hdu). exfalso.
      unfold upstreamEligible in He. rewrite Hkey in He.
      apply strict_eq_str_false in Hsrc. rewrite Hsrc in He. simpl in He.
      apply negb_false_iff in He.
      destruct (Z.gtb_spec (tmdbDisabledUntil s) (now w)); [lia | discriminate].
Qed.

Lemma upstream_called_iff_eligible_witness :
  upstreamCalls
    (snd (getMovies (js := DecimalRuntime) envWithKey []
            (worldAt 301000 upstreamDown 0) noQuery
            (set_tmdbDisabledUntil 301000 (set_tmdbFailureStreak 1 initialState))))
  <> [].
Proof.
  apply (upstream_called_iff_eligible (js := DecimalRuntime) envWithKey []
           (worldAt 301000 upstreamDown 0) noQuery
           (set_tmdbDisabledUntil 301000 (set_tmdbFailureStreak 1 initialState))).
  repeat split; [discriminate | simpl; lia].
Defined.

(* ================================================================== *)
(** ** The trailer endpoint and the error middleware *)
(* ================================================================== *)

Lemma is_video_of_kind_iff (kind : string) (item : TmdbObject) :
  is_video_of_kind kind item = true <-> youtube_of_kind kind item.
Proof.
  unfold is_video_of_kind, youtube_of_kind.
  destruct (o_site item) as [site |], (o_type item) as [type |]; simpl;
    try (split; [discriminate | intros [H1 H2]; discriminate]).
  rewrite andb_true_iff, !String.eqb_eq. split.
  - intros [-> ->]. split; reflexivity.
  - intros [H1 H2]. inversion H1; inversion H2. split; reflexivity.
Qed.

Lemma is_video_of_kind_false (kind : string) (item : TmdbObject) :
  is_video_of_kind kind item = false -> ~ youtube_of_kind kind item.
Proof.
  intros Hf Hy. apply is_video_of_kind_iff in Hy. congruence.
Qed.

(** What [results.find(test)] finds is the first element that passes. *)
Lemma find_first {A : Type} (test : A -> bool) (l : list A) (x : A) :
  find test l = Some x ->
  test x = true
  /\ exists front back, l = (front ++ x :: back)%list
                        /\ forall y, In y front -> test y = false.
Proof.
  induction l as [| a l IH]; simpl; [discriminate |].
  destruct (test a) eqn:Ha.
  - intro H; inversion H; subst. split; [exact Ha |].
    exists [], l. split; [reflexivity | intros y []].
  - intro H. destruct (IH H) as (Hx & front & back & -> & Hfront).
    split; [exact Hx |].
    exists (a :: front), back. split; [reflexivity |].
    intros y [<- | Hy]; [exact Ha | now apply Hfront].
Qed.

(** The middleware answers an error without status and of no special name
    with 500 and a fixed message. *)
Lemma errorHandler_new_Error (message : string) :
  errorHandler false (new_Error message)
  = Answered 500 {| eb_message := "Internal server error"; eb_details := None |}.
Proof. reflexivity. Qed.

(** C8 (as amended).  The handler of the trailer endpoint sends 400 when
    the type is neither [movie] nor [series] or the id is missing;
    otherwise 503 when no API key is configured; otherwise, when the
    upstream answers the videos request, 404 if its results list no YouTube
    video of kind Trailer, Teaser or Clip, and 200 with
    [{data: {trailerUrl}}] if they list one, the URL embedding the key of
    the first listed video of the most preferred kind present.  These four
    are the only statuses the handler sends.  When the videos request fails,
    the handler sends nothing and hands the error to [next]: the client
    then receives the answer of the error middleware, which is 500 with the
    message [Internal server error] for an error made by [new Error(..)], as
    the upstream client throws for an answer that is not ok. *)
Theorem trailer_endpoint_statuses (env : Env) (w : World)
    (thrown : Error -> ErrorObject) (type id : option string) (s : State) :
  let outcome := fst (getTmdbTrailer env w type id s) in
  let answer := trailerEndpoint env w thrown type id s in
  (~ validTrailerType type \/ truthy_ostr id = false ->
   answer = FromHandler {| status := 400;
                           body := Message "Valid type and id are required." |})
  /\ (validTrailerType type -> truthy_ostr id = true ->
      truthy_ostr (TMDB_API_KEY env) = false ->
      answer = FromHandler {| status := 503;
                              body := Message "TMDB trailer service is unavailable." |})
  /\ (validTrailerType type -> truthy_ostr id = true ->
      truthy_ostr (TMDB_API_KEY env) = true ->
      forall t, type = Some t ->
        let path := if (t =? "series")%string
                    then "/tv/" ++ interp_str id ++ "/videos"
                    else "/movie/" ++ interp_str id ++ "/videos" in
        match tmdbFetch_attempts w path [] 0 2 "undefined" with
        | inr payload =>
            let results := match p_results payload with Some r => r | None => [] end in
            (answer = FromHandler
                        {| status := 404;
                           body := Message "Trailer not available for this title." |}
             /\ forall item, In item results -> ~ matchingTrailer item)
            \/ (exists video kind earlier later front back,
                  answer = FromHandler
                             {| status := 200;
                                body := TrailerData ("https://www.youtube.com/embed/"
                                                     ++ interp_str (o_key video)) |}
                  /\ youtube_of_kind kind video
                  /\ ["Trailer"; "Teaser"; "Clip"] = (earlier ++ kind :: later)%list
                  /\ results = (front ++ video :: back)%list
                  /\ (forall item, In item front -> ~ youtube_of_kind kind item)
                  /\ (forall k item, In k earlier -> In item results ->
                                     ~ youtube_of_kind k item))
        | inl e =>
            outcome = inr (Next e)
            /\ answer = FromMiddleware (errorHandler false (thrown e))
            /\ (thrown e = new_Error e ->
                answer = FromMiddleware
                           (Answered 500 {| eb_message := "Internal server error";
                                            eb_details := None |}))
        end)
  /\ (forall r, answer = FromHandler r ->
                status r = 200 \/ status r = 400 \/ status r = 503 \/ status r = 404)
  /\ (forall h, answer = FromMiddleware h ->
                exists t e,
                  type = Some t
                  /\ tmdbFetch_attempts w
                       (if (t =? "series")%string
                        then "/tv/" ++ interp_str id ++ "/videos"
                        else "/movie/" ++ interp_str id ++ "/videos")
                       [] 0 2 "undefined" = inl e
                  /\ h = errorHandler false (thrown e))
  /\ answer <> Unanswered.
Proof.
  cbv zeta.
  assert (Hbad : ~ validTrailerType type \/ truthy_ostr id = false ->
                 fst (getTmdbTrailer env w type id s)
                 = inr (Sent {| status := 400;
                                body := Message "Valid type and id are required." |})).
  { unfold getTmdbTrailer, try_catch. intros [Hbad | Hid].
    - rewrite (normalizedType_invalid type Hbad). reflexivity.
    - rewrite Hid. rewrite orb_true_r. reflexivity. }
  assert (Hnokey : validTrailerType type -> truthy_ostr id = true ->
                   truthy_ostr (TMDB_API_KEY env) = false ->
                   fst (getTmdbTrailer env w type id s)
                   = inr (Sent {| status := 503;
                                  body := Message "TMDB trailer service is unavailable." |})).
  { unfold getTmdbTrailer, try_catch. intros Hty Hid Hkey.
    destruct (normalizedType_valid type Hty) as (t & -> & Hnorm & Ht).
    rewrite Hnorm, Ht, Hid, Hkey. reflexivity. }
  assert (Hlookup : validTrailerType type -> truthy_ostr id = true ->
                    truthy_ostr (TMDB_API_KEY env) = true ->
                    forall t, type = Some t ->
                      fst (getTmdbTrailer env w type id s)
                      = match tmdbFetch_attempts w
                                (if (t =? "series")%string
                                 then "/tv/" ++ interp_str id ++ "/videos"
                                 else "/movie/" ++ interp_str id ++ "/videos")
                                [] 0 2 "undefined" with
                        | inr payload =>
                            match first_preferred ["Trailer"; "Teaser"; "Clip"]
                                    match p_results payload with
                                    | Some r => r | None => []
                                    end with
                            | Some video =>
                                inr (Sent {| status := 200;
                                             body := TrailerData
                                                       ("https://www.youtube.com/embed/"
                                                        ++ interp_str (o_key video)) |})
                            | None =>
                                inr (Sent {| status := 404;
                                             body := Message
                                                       "Trailer not available for this title." |})
                            end
                        | inl e => inr (Next e)
                        end).
  { intros Hty Hid Hkey t ->.
    rewrite (getTmdbTrailer_lookup env w t id s Hty Hid Hkey).
    rewrite (fetchTrailerUrl_run env w (interp_str id) t s Hkey). cbv zeta.
    destruct (tmdbFetch_attempts w _ [] 0 2 "undefined") as [e | payload];
      [reflexivity |].
    destruct (first_preferred _ _) as [video |]; reflexivity. }
  unfold trailerEndpoint.
  split; [| split; [| split; [| split; [| split]]]].
  - intro H. rewrite (Hbad H). reflexivity.
  - intros Hty Hid Hkey. rewrite (Hnokey Hty Hid Hkey). reflexivity.
  - intros Hty Hid Hkey t Ht. rewrite (Hlookup Hty Hid Hkey t Ht).
    destruct (tmdbFetch_attempts w _ [] 0 2 "undefined") as [e | payload].
    + split; [reflexivity |]. split; [reflexivity |].
      intros ->. now rewrite errorHandler_new_Error.
    + destruct (first_preferred _ _) as [video |] eqn:Hpref.
      * right.
        apply first_preferred_Some in Hpref.
        destruct Hpref as (earlier & kind & later & Hsplit & Hnone & Hsome).
        destruct (find_first _ _ _ Hsome) as (Hkind & front & back & Hres & Hfront).
        exists video, kind, earlier, later, front, back.
        split; [reflexivity |].
        split; [now apply is_video_of_kind_iff |].
        split; [exact Hsplit |].
        split; [exact Hres |].
        split.
        -- intros item Hi. apply is_video_of_kind_false. now apply Hfront.
        -- intros k item Hk Hi. apply is_video_of_kind_false.
           exact (find_none _ _ (Hnone k Hk) item Hi).
      * left. split; [reflexivity |].
        intros item Hi Hm.
        pose proof (proj1 (first_preferred_None _ _) Hpref) as Hnone.
        destruct Hm as [Hm | [Hm | Hm]]; apply is_video_of_kind_iff in Hm;
          rewrite Hnone in Hm; simpl; auto; discriminate.
  - intros r Hr.
    destruct (validTrailerType_dec type) as [Hty | Hty];
      [| rewrite (Hbad (or_introl Hty)) in Hr; inversion Hr; simpl; auto].
    destruct (truthy_ostr id) eqn:Hid;
      [| rewrite (Hbad (or_intror eq_refl)) in Hr; inversion Hr; simpl; auto].
    destruct (truthy_ostr (TMDB_API_KEY env)) eqn:Hkey;
      [| rewrite (Hnokey Hty eq_refl eq_refl) in Hr; inversion Hr; simpl; auto].
    destruct (normalizedType_valid type Hty) as (t & Ht & _).
    rewrite (Hlookup Hty eq_refl eq_refl t Ht) in Hr.
    destruct (tmdbFetch_attempts w _ [] 0 2 "undefined") as [e | payload];
      [discriminate |].
    destruct (first_preferred _ _); inversion Hr; simpl; auto.
  - intros h Hh.
    destruct (validTrailerType_dec type) as [Hty | Hty];
      [| rewrite (Hbad (or_introl Hty)) in Hh; discriminate].
    destruct (truthy_ostr id) eqn:Hid;
      [| rewrite (Hbad (or_intror eq_refl)) in Hh; discriminate].
    destruct (truthy_ostr (TMDB_API_KEY env)) eqn:Hkey;
      [| rewrite (Hnokey Hty eq_refl eq_refl) in Hh; discriminate].
    destruct (normalizedType_valid type Hty) as (t & Ht & _).
    rewrite (Hlookup Hty eq_refl eq_refl t Ht) in Hh.
    exists t.
    destruct (tmdbFetch_attempts w _ [] 0 2 "undefined") as [e | payload].
    + exists e. split; [exact Ht |]. split; [reflexivity |].
      inversion Hh. reflexivity.
    + destruct (first_preferred _ _); discriminate.
  - unfold getTmdbTrailer, try_catch.
    match goal with
    | |- context [let (_, _) := ?m in _] => destruct m as [[e | [r | e]] s']
    end; discriminate.
Qed.

Lemma trailer_endpoint_statuses_witness :
  trailerEndpoint envWithKey (worldAt 1000 upstreamOne 0) new_Error
    (Some "music") (Some "550") initialState
  = FromHandler {| status := 400; body := Message "Valid type and id are required." |}
  /\ trailerEndpoint envNoKey (worldAt 1000 upstreamOne 0) new_Error
       (Some "movie") (Some "550") initialState
     = FromHandler {| status := 503;
                      body := Message "TMDB trailer service is unavailable." |}
  /\ trailerEndpoint envWithKey (worldAt 1000 upstreamOne 0) new_Error
       (Some "movie") (Some "550") initialState
     = FromHandler {| status := 200;
                      body := TrailerData "https://www.youtube.com/embed/abc" |}
  /\ trailerEndpoint envWithKey (worldAt 1000 upstreamEmpty 0) new_Error
       (Some "series") (Some "550") initialState
     = FromHandler {| status := 404;
                      body := Message "Trailer not available for this title." |}
  /\ trailerEndpoint envWithKey (worldAt 1000 upstreamNotOk 0) new_Error
       (Some "movie") (Some "550") initialState
     = FromMiddleware (Answered 500 {| eb_message := "Internal server error";
                                       eb_details := None |}).
Proof.
  split; [| split; [| split; [| split]]].
  - destruct (trailer_endpoint_statuses envWithKey (worldAt 1000 upstreamOne 0)
                new_Error (Some "music") (Some "550") initialState) as (H & _).
    apply H. left. intros [E | E]; discriminate.
  - destruct (trailer_endpoint_statuses envNoKey (worldAt 1000 upstreamOne 0)
                new_Error (Some "movie") (Some "550") initialState) as (_ & H & _).
    apply H; [left |..]; reflexivity.
  - destruct (trailer_endpoint_statuses envWithKey (worldAt 1000 upstreamOne 0)
                new_Error (Some "movie") (Some "550") initialState)
      as (_ & _ & H & _).
    destruct (H (or_introl eq_refl) eq_refl eq_refl "movie" eq_refl)
      as [[H404 _] | (video & kind & earlier & later & front & back & H200 & _)].
    + discriminate H404.
    + reflexivity.
  - destruct (trailer_endpoint_statuses envWithKey (worldAt 1000 upstreamEmpty 0)
                new_Error (Some "series") (Some "550") initialState)
      as (_ & _ & H & _).
    destruct (H (or_intror eq_refl) eq_refl eq_refl "series" eq_refl)
      as [[H404 _] | (video & kind & earlier & later & front & back & H200 & _)].
    + exact H404.
    + discriminate H200.
  - destruct (trailer_endpoint_statuses envWithKey (worldAt 1000 upstreamNotOk 0)
                new_Error (Some "movie") (Some "550") initialState)
      as (_ & _ & H & _).
    exact (proj2 (proj2 (H (or_introl eq_refl) eq_refl eq_refl "movie" eq_refl))
             eq_refl).
Defined.

(** C8, counterexample.  A key is configured, the type is [movie] and the
    id is present, but the upstream answers both attempts of the videos
    request with a status that is not ok and no message: [tmdbFetch] throws
    [new Error('TMDB request failed')], the handler passes it to [next] and
    the client receives status 500 from the error middleware, which is none
    of the four statuses. *)
Lemma failed_videos_request_answers_500 :
  let w := worldAt 1000 upstreamNotOk 0 in
  let answer := trailerEndpoint envWithKey w new_Error
                  (Some "movie") (Some "550") initialState in
  validTrailerType (Some "movie")
  /\ truthy_ostr (TMDB_API_KEY envWithKey) = true
  /\ fst (getTmdbTrailer envWithKey w (Some "movie") (Some "550") initialState)
     = inr (Next "TMDB request failed")
  /\ answer = FromMiddleware (errorHandler false (new_Error "TMDB request failed"))
  /\ answer_status answer = Some 500
  /\ ~ (answer_status answer = Some 200 \/ answer_status answer = Some 400
        \/ answer_status answer = Some 503 \/ answer_status answer = Some 404).
Proof.
  cbv zeta. split; [left; reflexivity |].
  repeat (split; [reflexivity |]).
  intros [H | [H | [H | H]]]; discriminate H.
Qed.

(* ================================================================== *)
(** ** The store/seed limit *)
(* ================================================================== *)

(** [xs.slice(0, q)] for a limit of at least 1 keeps the first [floor q]
    elements. *)
Lemma slice0_firstn {A : Type} (xs : list A) (q : Q) :
  (1 <= q)%Q -> slice0 xs (Fin q) = firstn (Z.to_nat (Qfloor q)) xs.
Proof.
  intro Hq. unfold slice0, slice_end.
  assert (H0 : (0 <= q)%Q) by (apply Qle_trans with 1%Q; [discriminate | exact Hq]).
  assert (Hb : Qle_bool 0 q = true) by (now apply Qle_bool_iff).
  rewrite Hb.
  assert (Hf : 0 <= Qfloor q).
  { change 0 with (Qfloor 0). now apply Qfloor_resp_le. }
  replace (Qfloor q <? 0)%Z with false by (symmetry; apply Z.ltb_ge; exact Hf).
  destruct (Nat.le_ge_cases (Z.to_nat (Qfloor q)) (List.length xs)) as [Hle | Hge].
  - now rewrite Nat.min_l.
  - rewrite Nat.min_r by exact Hge.
    rewrite firstn_all. symmetry. now apply firstn_all2.
Qed.

(** When the upstream does not answer, the handler is its store/seed part
    run from some state. *)
Lemma getMovies_on_fallback {js : ECMAScript} (env : Env)
    (seedMovies : list SeedMovie) (w : World) (req : Query) (s : State) :
  upstreamEligible env w req s = false
  \/ (exists e s1, getMoviesFromTmdb env w req s = (inl e, s1)) ->
  exists s2, getMovies env seedMovies w req s = guardedFallback seedMovies w req s2.
Proof.
  intros [He | (e & s1 & Hup)].
  - exists s. now apply getMovies_not_eligible.
  - destruct (getMovies_ends env seedMovies w req s)
      as [Hfb | (o & s' & Hok & _)]; [exact Hfb |].
    rewrite Hup in Hok. discriminate.
Qed.

(** C10.  On the store/seed path (the upstream is not attempted, or its
    attempt fails) of a request with textual filters, the limit is
    [clamp(n, 1, 500)] where [n] is [Number(limit)] when that is a nonzero
    number and 50 otherwise, the absent parameter standing for the text
    [200]: an absent limit gives 200, and a limit that is zero or not a
    number ([Number(limit)] falsy) gives 50, not 1.  With a connected store
    the handler asks the store for exactly that limit and answers with what
    the store returns; otherwise it answers with the first [floor(limit)]
    matching records of the seed catalog, so with the first 50 of them when
    [Number(limit)] is falsy. *)
Theorem cappedLimit_clamped {js : ECMAScript} (env : Env)
    (seedMovies : list SeedMovie) (w : World) (req : Query) (s : State) :
  textual (q_search req) -> textual (q_category req) -> textual (q_type req) ->
  upstreamEligible env w req s = false
  \/ (exists e s1, getMoviesFromTmdb env w req s = (inl e, s1)) ->
  let limit := default_to (q_limit req) "200" in
  let n := clamp (number_or limit 50) (num_of_Z 1) (num_of_Z 500) in
  let search := text_of (q_search req) in
  let category := text_of (q_category req) in
  let type := text_of (q_type req) in
  let featured := default_to (q_featured req) "" in
  let matching := filter (seed_keeps search category type featured) seedMovies in
  cappedLimit req = n
  /\ (q_limit req = JUndef -> Number (JStr "200") = num_of_Z 200 -> n = num_of_Z 200)
  /\ (truthy_num (Number limit) = false -> n = num_of_Z 50)
  /\ (readyState w = 1 ->
      fst (getMovies env seedMovies w req s)
      = match Movie_find w (buildFilter search category type featured) n with
        | inr movies =>
            inr (Sent {| status := 200;
                         body := Listing (List.length movies)
                                         (map normalizeMovie movies) |})
        | inl e => inr (Next e)
        end)
  /\ (readyState w <> 1 ->
      exists q,
        n = Fin q /\ (1 <= q)%Q /\ (q <= 500)%Q
        /\ fst (getMovies env seedMovies w req s)
           = inr (Sent {| status := 200;
                          body := Listing
                                    (Nat.min (Z.to_nat (Qfloor q)) (List.length matching))
                                    (map normalizeSeedMovie
                                         (firstn (Z.to_nat (Qfloor q)) matching)) |}))
  /\ (readyState w <> 1 -> truthy_num (Number limit) = false ->
      fst (getMovies env seedMovies w req s)
      = inr (Sent {| status := 200;
                     body := Listing (Nat.min 50 (List.length matching))
                                     (map normalizeSeedMovie (firstn 50 matching)) |})).
Proof.
  intros Hs Hc Ht Hpath limit n search category type featured matching.
  assert (Hclamp : cappedLimit req = n).
  { unfold cappedLimit, n. fold limit. rewrite or_num_is_number_or.
    apply min_max_is_clamp. lia. }
  assert (H50 : truthy_num (Number limit) = false -> n = num_of_Z 50).
  { intro H. unfold n. rewrite (number_or_falsy _ _ H). reflexivity. }
  destruct (getMovies_on_fallback env seedMovies w req s Hpath) as [s2 Hrun].
  assert (Hseed : readyState w <> 1 ->
                  forall q, n = Fin q -> (1 <= q)%Q ->
                    fst (getMovies env seedMovies w req s)
                    = inr (Sent {| status := 200;
                                   body := Listing
                                             (Nat.min (Z.to_nat (Qfloor q))
                                                      (List.length matching))
                                             (map normalizeSeedMovie
                                                  (firstn (Z.to_nat (Qfloor q))
                                                          matching)) |})).
  { intros Hready q Hn Hq.
    rewrite Hrun. unfold guardedFallback, try_catch.
    rewrite (getMovies_fallback_textual seedMovies w req s2 Hs Hc Ht). cbv zeta.
    apply Z.eqb_neq in Hready. rewrite Hready. cbn [fst].
    rewrite filteredSeed_one_pass, Hclamp, Hn.
    fold search category type featured matching.
    rewrite (slice0_firstn matching q Hq), length_firstn. reflexivity. }
  split; [exact Hclamp |].
  split; [| split; [exact H50 |]].
  { intros Habs H200. unfold n, limit, number_or.
    rewrite Habs. simpl. rewrite H200. reflexivity. }
  split; [| split].
  - intro Hready. rewrite Hrun. unfold guardedFallback, try_catch.
    rewrite (getMovies_fallback_textual seedMovies w req s2 Hs Hc Ht). cbv zeta.
    apply Z.eqb_eq in Hready. rewrite Hready, Hclamp.
    fold search category type featured.
    destruct (Movie_find w _ n); reflexivity.
  - intro Hready.
    destruct (clamp_in_range (number_or limit 50) 1 500 ltac:(lia)
                (number_or_not_NaN limit 50)) as (q & Hn & Hlo & Hhi).
    exists q. fold n in Hn.
    split; [exact Hn |]. split; [exact Hlo |]. split; [exact Hhi |].
    exact (Hseed Hready q Hn Hlo).
  - intros Hready Hfalsy.
    exact (Hseed Hready (inject_Z 50) (H50 Hfalsy) ltac:(discriminate)).
Qed.

Lemma cappedLimit_clamped_witness :
  let catalog := repeat (seedOf "T" "movie" "Drama" false) 60 in
  fst (getMovies (js := DecimalRuntime) envNoKey catalog
         (worldAt 1000 upstreamDown 0) (limitQuery "0") initialState)
  = inr (Sent {| status := 200;
                 body := Listing 50 (map normalizeSeedMovie (firstn 50 catalog)) |})
  /\ (let docs := repeat (docOf (twelve Byte.x00) "movie") 60 in
      fst (getMovies (js := DecimalRuntime) envNoKey []
             (worldHolding 1000 upstreamDown docs) (limitQuery "abc") initialState)
      = inr (Sent {| status := 200;
                     body := Listing 50 (map normalizeMovie (firstn 50 docs)) |}))
  /\ cappedLimit (js := DecimalRuntime) noQuery = num_of_Z 200.
Proof.
  split; [| split].
  - destruct (cappedLimit_clamped (js := DecimalRuntime) envNoKey
                (repeat (seedOf "T" "movie" "Drama" false) 60)
                (worldAt 1000 upstreamDown 0) (limitQuery "0") initialState
                (or_introl eq_refl) (or_introl eq_refl) (or_introl eq_refl)
                (or_introl eq_refl)) as (_ & _ & _ & _ & _ & H).
    exact (H ltac:(simpl; lia) eq_refl).
  - destruct (cappedLimit_clamped (js := DecimalRuntime) envNoKey []
                (worldHolding 1000 upstreamDown
                   (repeat (docOf (twelve Byte.x00) "movie") 60))
                (limitQuery "abc") initialState
                (or_introl eq_refl) (or_introl eq_refl) (or_introl eq_refl)
                (or_introl eq_refl)) as (_ & _ & _ & H & _).
    exact (H eq_refl).
  - destruct (cappedLimit_clamped (js := DecimalRuntime) envNoKey []
                (worldAt 1000 upstreamDown 0) noQuery initialState
                (or_introl eq_refl) (or_introl eq_refl) (or_introl eq_refl)
                (or_introl eq_refl)) as (Hc & H & _).
    rewrite Hc. exact (H eq_refl eq_refl).
Defined.
